(** * The Kafka relay engine of [src/_kafka.py]

    A shallow embedding of the speed monitor [log_speed], the two module-level
    relay loops [receive_messages] / [send_messages] and the methods
    [consume_messages] / [produce_messages] of [AioKafkaEngine].

    The relays are coroutines that talk to four kinds of objects: the wall
    clock, [asyncio.Queue]s, an [asyncio.Event] used as shutdown signal and
    the two broker clients.  Every object lives in a [World]; a coroutine is
    a function from a world to a [Result] and a new world, and every
    interaction appends an [Event] to the world's trace, so that ordering
    properties are statements about that trace.

    The speed monitor is embedded twice: over exact numbers, as a step of the
    outbound loop, and in module [Double] over IEEE 754 doubles, where its
    own properties are stated. *)

From Stdlib Require Import ZArith QArith List String Bool Arith Lia.
From Stdlib Require Import SpecFloat.
Import ListNotations.
Open Scope string_scope.
Open Scope list_scope.
Open Scope Z_scope.

(** ** Data *)

(** A record's payload is opaque to the relays; it is kept as its JSON text. *)
Definition Value := string.

Record TopicPartition := mkTP { tp_topic : string; tp_partition : Z }.

Definition tp_eqb (a b : TopicPartition) : bool :=
  String.eqb (tp_topic a) (tp_topic b) && Z.eqb (tp_partition a) (tp_partition b).

(** What the relay reads of a consumer record: [m.offset] and [m.value]. *)
Record ConsumerRecord := mkRec { rec_offset : Z; rec_value : Value }.

(** [getmany] returns a dict from partition to list of records; [batch.items()]
    walks it in insertion order, so it is an association list. *)
Definition Batch := list (TopicPartition * list ConsumerRecord).

Definition Offsets := list (TopicPartition * Z).

Inductive Exn := ZeroDivisionError | OverflowError | ValueError | KafkaError.

(** A coroutine returns, raises, or stays suspended on an [await] that nothing
    in the world completes (a [put] on a full queue, a [get] on an empty one). *)
Inductive Result (A : Type) :=
| Ok (a : A)
| Raised (e : Exn)
| Suspended.
Arguments Ok {A} a.
Arguments Raised {A} e.
Arguments Suspended {A}.

Inductive LogRecord :=
| LogSpeed (topic : string) (qsize counter : Z) (delta_time speed : Q)
| LogPartition (tp : TopicPartition) (n : Z)
| LogDone
| LogShutdown.

Definition QueueId := nat.
Definition EventId := nat.
Definition ConsumerId := nat.
Definition ProducerId := nat.
Bind Scope nat_scope with QueueId EventId ConsumerId ProducerId.

Inductive Event :=
| EvCallLogSpeed (counter : Z) (start_time : Q) (q : QueueId) (topic : string) (interval : Z)
| EvTime (t : Q)
| EvIsSet (ev : EventId) (b : bool)
| EvLog (r : LogRecord)
| EvGetMany (c : ConsumerId) (timeout_ms max_records : Z) (batch : Batch)
| EvPut (q : QueueId) (v : Value)
| EvCommit (c : ConsumerId) (offsets : Offsets)
| EvSleep (seconds : Z)
| EvGet (q : QueueId) (v : Value)
| EvSend (p : ProducerId) (topic : string) (v : Value)
| EvTaskDone (q : QueueId).

(** ** Objects *)

(** [asyncio.Queue]: [maxsize <= 0] means unbounded. *)
Record AQueue := mkQueue {
  maxsize : Z;
  items : list Value;
  unfinished_tasks : Z
}.

(** [asyncio.Event] as the relay sees it: the flag is set by another task, so
    the successive answers of [is_set()] are given by the environment. *)
Record AEvent := mkEvent {
  is_set_script : nat -> bool;
  is_set_calls : nat
}.

Inductive PollReply := PollOffer (offer : Batch) | PollError.

(** Modelled from the spec: the consumer client ([AIOKafkaConsumer]) is an
    external collaborator whose code is not in the repository.  It supports
    "batched poll-with-timeout, per-partition batch results, and manual offset
    commit decoupled from poll"; a poll returns "up to a configured maximum
    record count" and a commit records "the broker offsets up to the fetched
    position" (the next offset to read) of the partitions fetched so far.
    Broker failures surface as exceptions. *)
Record Consumer := mkConsumer {
  poll_script : nat -> PollReply;
  polls : nat;
  commit_script : nat -> bool;
  commit_calls : nat;
  position : Offsets;
  committed : Offsets
}.

(** The producer client ([AIOKafkaProducer], created with [acks="all"]) is an
    external collaborator.  Its [send] returns as soon as the client has taken
    the record into its send buffer, and what it returns is the future of the
    broker's acknowledgement; the relays await the call and drop that future.
    So the relays see of the producer only whether each [send] call is
    accepted: [send_script] gives the answers, [sends] counts the calls and
    [delivered] lists the records delivered to the client, in order.  Whether
    and when the broker acknowledges them is outside the relays' world. *)
Record Producer := mkProducer {
  send_script : nat -> bool;
  sends : nat;
  delivered : list (string * Value)
}.

Record World := mkWorld {
  clock : nat -> Q;
  clock_reads : nat;
  queues : QueueId -> AQueue;
  events : EventId -> AEvent;
  consumers : ConsumerId -> Consumer;
  producers : ProducerId -> Producer;
  trace : list Event
}.

Definition upd {A : Type} (f : nat -> A) (k : nat) (v : A) : nat -> A :=
  fun i => if Nat.eqb i k then v else f i.

Definition emit (e : Event) (w : World) : World :=
  mkWorld (clock w) (clock_reads w) (queues w) (events w) (consumers w)
          (producers w) (trace w ++ [e]).

Definition set_queue (q : QueueId) (x : AQueue) (w : World) : World :=
  mkWorld (clock w) (clock_reads w) (upd (queues w) q x) (events w)
          (consumers w) (producers w) (trace w).

Definition set_event (ev : EventId) (x : AEvent) (w : World) : World :=
  mkWorld (clock w) (clock_reads w) (queues w) (upd (events w) ev x)
          (consumers w) (producers w) (trace w).

Definition set_consumer (c : ConsumerId) (x : Consumer) (w : World) : World :=
  mkWorld (clock w) (clock_reads w) (queues w) (events w)
          (upd (consumers w) c x) (producers w) (trace w).

Definition set_producer (p : ProducerId) (x : Producer) (w : World) : World :=
  mkWorld (clock w) (clock_reads w) (queues w) (events w) (consumers w)
          (upd (producers w) p x) (trace w).

Definition tick (w : World) : World :=
  mkWorld (clock w) (S (clock_reads w)) (queues w) (events w) (consumers w)
          (producers w) (trace w).

(** ** The coroutine monad *)

Definition M (A : Type) : Type := World -> Result A * World.

Definition ret {A : Type} (a : A) : M A := fun w => (Ok a, w).

Definition raise {A : Type} (e : Exn) : M A := fun w => (Raised e, w).

Definition suspend {A : Type} : M A := fun w => (Suspended, w).

Definition bind {A B : Type} (m : M A) (k : A -> M B) : M B :=
  fun w =>
    match m w with
    | (Ok a, w') => k a w'
    | (Raised e, w') => (Raised e, w')
    | (Suspended, w') => (Suspended, w')
    end.

Declare Scope coro_scope.
Delimit Scope coro_scope with coro.
Notation "x <- m ;; k" := (bind m (fun x => k))
  (at level 61, m at next level, right associativity) : coro_scope.
Notation "m ;; k" := (bind m (fun _ => k))
  (at level 61, right associativity) : coro_scope.
Notation "' pat <- m ;; k" := (bind m (fun x => match x with pat => k end))
  (at level 61, pat pattern, m at next level, right associativity) : coro_scope.
Open Scope coro_scope.

(** ** Primitives *)

(** [time.time()] *)
Definition time_time : M Q :=
  fun w => let t := clock w (clock_reads w) in (Ok t, emit (EvTime t) (tick w)).

(** [logger.info(...)] *)
Definition logger_info (r : LogRecord) : M unit :=
  fun w => (Ok tt, emit (EvLog r) w).

(** [shutdown_event.is_set()] *)
Definition is_set (ev : EventId) : M bool :=
  fun w =>
    let e := events w ev in
    let b := is_set_script e (is_set_calls e) in
    (Ok b, emit (EvIsSet ev b)
             (set_event ev (mkEvent (is_set_script e) (S (is_set_calls e))) w)).

(** [asyncio.sleep(seconds)] *)
Definition asyncio_sleep (seconds : Z) : M unit :=
  fun w => (Ok tt, emit (EvSleep seconds) w).

Definition qlen (q : AQueue) : Z := Z.of_nat (List.length (items q)).

(** [Queue.full()] *)
Definition full (q : AQueue) : bool :=
  if maxsize q <=? 0 then false else maxsize q <=? qlen q.

(** [_queue.qsize()] *)
Definition queue_qsize (q : QueueId) : M Z :=
  fun w => (Ok (qlen (queues w q)), w).

(** [send_queue.empty()] *)
Definition queue_empty (q : QueueId) : M bool :=
  fun w => (Ok (match items (queues w q) with [] => true | _ => false end), w).

(** [await queue.put(v)]: waits while the queue is full, then appends and
    counts one more unfinished task. *)
Definition queue_put (q : QueueId) (v : Value) : M unit :=
  fun w =>
    let x := queues w q in
    if full x then (Suspended, w)
    else (Ok tt, emit (EvPut q v)
                   (set_queue q (mkQueue (maxsize x) (items x ++ [v])
                                         (unfinished_tasks x + 1)) w)).

(** [await queue.get()]: waits while the queue is empty, then pops the head. *)
Definition queue_get (q : QueueId) : M Value :=
  fun w =>
    let x := queues w q in
    match items x with
    | [] => (Suspended, w)
    | v :: rest =>
        (Ok v, emit (EvGet q v)
                 (set_queue q (mkQueue (maxsize x) rest (unfinished_tasks x)) w))
    end.

(** [queue.task_done()]: raises [ValueError] when called more often than
    there were items put. *)
Definition queue_task_done (q : QueueId) : M unit :=
  fun w =>
    let x := queues w q in
    if unfinished_tasks x <=? 0 then (Raised ValueError, w)
    else (Ok tt, emit (EvTaskDone q)
                   (set_queue q (mkQueue (maxsize x) (items x)
                                         (unfinished_tasks x - 1)) w)).

(** *** Consumer client *)

(** Modelled from the spec: what a poll for "up to a configured maximum
    record count" returns of the broker's offer, the client's code being
    outside the repository: at most [n] records, partition by partition; a
    partition of which nothing is taken is absent from the result. *)
Fixpoint limit_records (n : nat) (offer : Batch) : Batch :=
  match offer with
  | [] => []
  | (tp, msgs) :: rest =>
      match firstn n msgs with
      | [] => limit_records n rest
      | taken => (tp, taken) :: limit_records (n - List.length taken) rest
      end
  end.

Fixpoint set_offset (tp : TopicPartition) (off : Z) (o : Offsets) : Offsets :=
  match o with
  | [] => [(tp, off)]
  | (tp', off') :: rest =>
      if tp_eqb tp' tp then (tp', off) :: rest
      else (tp', off') :: set_offset tp off rest
  end.

Fixpoint get_offset (tp : TopicPartition) (o : Offsets) : option Z :=
  match o with
  | [] => None
  | (tp', off') :: rest => if tp_eqb tp' tp then Some off' else get_offset tp rest
  end.

(** Modelled from the spec: the client's "fetched position", the next offset
    to read; it moves past the last record a poll returned. *)
Fixpoint advance (b : Batch) (pos : Offsets) : Offsets :=
  match b with
  | [] => pos
  | (tp, msgs) :: rest =>
      match rev msgs with
      | [] => advance rest pos
      | m :: _ => advance rest (set_offset tp (rec_offset m + 1) pos)
      end
  end.

(** Modelled from the spec: [await consumer.getmany(timeout_ms=...,
    max_records=...)] of the external consumer client, a batched poll of
    what the broker offers; a broker failure raises.  The spec says nothing
    of a maximum below one; here such a poll takes no record. *)
Definition consumer_getmany (c : ConsumerId) (timeout_ms max_records : Z) : M Batch :=
  fun w =>
    let x := consumers w c in
    match poll_script x (polls x) with
    | PollError =>
        (Raised KafkaError,
         set_consumer c (mkConsumer (poll_script x) (S (polls x)) (commit_script x)
                                    (commit_calls x) (position x) (committed x)) w)
    | PollOffer offer =>
        let b := limit_records (Z.to_nat max_records) offer in
        (Ok b, emit (EvGetMany c timeout_ms max_records b)
                 (set_consumer c (mkConsumer (poll_script x) (S (polls x))
                                             (commit_script x) (commit_calls x)
                                             (advance b (position x)) (committed x)) w))
    end.

(** Modelled from the spec: [await consumer.commit()] of the external
    consumer client.  The relay passes no offsets, so the commit is of "the
    broker offsets up to the fetched position", for every partition fetched
    so far; a broker failure raises. *)
Definition consumer_commit (c : ConsumerId) : M unit :=
  fun w =>
    let x := consumers w c in
    if commit_script x (commit_calls x) then
      (Ok tt, emit (EvCommit c (position x))
                (set_consumer c (mkConsumer (poll_script x) (polls x) (commit_script x)
                                            (S (commit_calls x)) (position x)
                                            (position x)) w))
    else
      (Raised KafkaError,
       set_consumer c (mkConsumer (poll_script x) (polls x) (commit_script x)
                                  (S (commit_calls x)) (position x) (committed x)) w).

(** *** Producer client *)

(** [await producer.send(topic, value=message)]: the call returns when the
    client has taken the record, or raises when it refuses it; the future it
    returns, which the broker's acknowledgement would complete, is dropped by
    the caller and so is not kept here. *)
Definition producer_send (p : ProducerId) (topic : string) (v : Value) : M unit :=
  fun w =>
    let x := producers w p in
    if send_script x (sends x) then
      (Ok tt, emit (EvSend p topic v)
                (set_producer p (mkProducer (send_script x) (S (sends x))
                                            (delivered x ++ [(topic, v)])) w))
    else
      (Raised KafkaError,
       set_producer p (mkProducer (send_script x) (S (sends x)) (delivered x)) w).

(** ** The speed monitor *)

(** The speed monitor as the relay loops use it.  Time stamps are kept as
    rationals and the counter as an integer that always converts: this
    abstracts from the rounding of doubles and from the [OverflowError] of a
    counter beyond the doubles.  [Double.log_speed], further down, is the
    function in Python's own arithmetic; the properties of [log_speed] by
    itself are stated there. *)
Definition Qltb (x y : Q) : bool := negb (Qle_bool y x).

(** [counter / delta_time] on exact numbers: true division raises on a zero
    divisor. *)
Definition py_truediv (counter : Z) (delta_time : Q) : M Q :=
  if Qeq_bool delta_time 0 then raise ZeroDivisionError
  else ret (inject_Z counter / delta_time)%Q.

(** A marker put in the trace when [log_speed] is entered, so that its calls
    can be counted. *)
Definition enter_log_speed (counter : Z) (start_time : Q) (q : QueueId)
    (topic : string) (interval : Z) : M unit :=
  fun w => (Ok tt, emit (EvCallLogSpeed counter start_time q topic interval) w).

Definition log_speed (counter : Z) (start_time : Q) (_queue : QueueId)
    (topic : string) (interval : Z) : M (Q * Z) :=
  enter_log_speed counter start_time _queue topic interval ;;
  now <- time_time ;;
  let delta_time := (now - start_time)%Q in
  if Qltb delta_time (inject_Z interval) then
    ret (start_time, counter)
  else
    speed <- py_truediv counter delta_time ;;
    n <- queue_qsize _queue ;;
    logger_info (LogSpeed topic n counter delta_time speed) ;;
    now' <- time_time ;;
    ret (now', 0).

(** The default of the [interval] parameter. *)
Definition default_interval : Z := 60.

(** ** The speed monitor in double precision *)

(** [log_speed] once more, with the arithmetic Python gives it.  A time stamp
    is an IEEE 754 double: the standard library's [spec_float] at precision 53
    with exponents up to 1024, which has the two zeros, the two infinities and
    NaN.  [time.time() - start_time] is the difference rounded to the nearest
    double, [delta_time < interval] compares a double with an [int] exactly,
    and [counter / delta_time] first converts the [int] to a double, raising
    [OverflowError] when it is too large, and only then looks for a zero
    divisor.  The monitor reads the clock and the queue's size and writes the
    log; its world holds nothing else. *)
Module Double.

Definition float : Type := spec_float.

Definition prec : Z := 53.
Definition emax : Z := 1024.

(** [x - y] on two floats *)
Definition fsub (x y : float) : float := SFsub prec emax x y.

(** The quotient of two floats, the divisor not being zero: it may be
    infinite or NaN, which raises nothing. *)
Definition fdiv (x y : float) : float := SFdiv prec emax x y.

(** [x == 0.0], true of both zeros *)
Definition is_zero (x : float) : bool :=
  match x with
  | S754_zero _ => true
  | _ => false
  end.

(** The double nearest to the integer [n], ties to even; it is infinite when
    [n] lies beyond the doubles. *)
Definition of_int (n : Z) : float := binary_normalize prec emax n 0 false.

(** The conversion that true division applies to an [int] operand; [None]
    stands for [OverflowError: int too large to convert to float]. *)
Definition float_of_int (n : Z) : option float :=
  match of_int n with
  | S754_infinity _ => None
  | x => Some x
  end.

(** The number a finite double stands for, [(-1)^s * m * 2^e]. *)
Definition finite_value (s : bool) (m : positive) (e : Z) : Q :=
  let v := (inject_Z (Zpos m) * 2 ^ e)%Q in
  if s then (- v)%Q else v.

(** [x < n] for a float [x] and an [int] [n]: Python compares the two numbers
    as they are, without converting [n]; no comparison with NaN holds. *)
Definition float_lt_int (x : float) (n : Z) : bool :=
  match x with
  | S754_nan => false
  | S754_infinity s => s
  | S754_zero _ => 0 <? n
  | S754_finite s m e => Qltb (finite_value s m e) (inject_Z n)
  end.

(** [n <= x], for a float [x] that is a number. *)
Definition at_least (x : float) (n : Z) : Prop :=
  match x with
  | S754_nan => False
  | S754_infinity s => s = false
  | S754_zero _ => n <= 0
  | S754_finite s m e => (inject_Z n <= finite_value s m e)%Q
  end.

(** What the monitor does that can be seen: it reads the clock, it evaluates
    the division, it writes a throughput line. *)
Inductive Event :=
| EvTime (t : float)
| EvTrueDiv (counter : Z) (delta_time : float)
| EvLog (topic : string) (qsize counter : Z) (delta_time speed : float).

Record World := mkWorld {
  clock : nat -> float;
  clock_reads : nat;
  queues : QueueId -> AQueue;
  trace : list Event
}.

Definition emit (e : Event) (w : World) : World :=
  mkWorld (clock w) (clock_reads w) (queues w) (trace w ++ [e]).

Definition tick (w : World) : World :=
  mkWorld (clock w) (S (clock_reads w)) (queues w) (trace w).

Definition new_events (w w' : World) : list Event :=
  skipn (List.length (trace w)) (trace w').


Definition M (A : Type) : Type := World -> Result A * World.

Definition ret {A : Type} (a : A) : M A := fun w => (Ok a, w).

Definition raise {A : Type} (e : Exn) : M A := fun w => (Raised e, w).

Definition bind {A B : Type} (m : M A) (k : A -> M B) : M B :=
  fun w =>
    match m w with
    | (Ok a, w') => k a w'
    | (Raised e, w') => (Raised e, w')
    | (Suspended, w') => (Suspended, w')
    end.

Declare Scope double_scope.
Delimit Scope double_scope with double.
Notation "x <- m ;; k" := (bind m (fun x => k))
  (at level 61, m at next level, right associativity) : double_scope.
Notation "m ;; k" := (bind m (fun _ => k))
  (at level 61, right associativity) : double_scope.
Open Scope double_scope.

(** [time.time()] *)
Definition time_time : M float :=
  fun w => let t := clock w (clock_reads w) in (Ok t, emit (EvTime t) (tick w)).

(** [_queue.qsize()] *)
Definition queue_qsize (q : QueueId) : M Z :=
  fun w => (Ok (qlen (queues w q)), w).

(** [logger.info(log_message)] *)
Definition logger_info (topic : string) (qsize counter : Z)
    (delta_time speed : float) : M unit :=
  fun w => (Ok tt, emit (EvLog topic qsize counter delta_time speed) w).

(** [counter / delta_time], an [int] by a [float]: the [int] is converted
    first, then a zero divisor is refused, then the floats are divided. *)
Definition py_truediv (counter : Z) (delta_time : float) : M float :=
  fun w =>
    let w' := emit (EvTrueDiv counter delta_time) w in
    match float_of_int counter with
    | None => (Raised OverflowError, w')
    | Some c =>
        if is_zero delta_time then (Raised ZeroDivisionError, w')
        else (Ok (fdiv c delta_time), w')
    end.

Definition log_speed (counter : Z) (start_time : float) (_queue : QueueId)
    (topic : string) (interval : Z) : M (float * Z) :=
  now <- time_time ;;
  let delta_time := fsub now start_time in
  if float_lt_int delta_time interval then
    ret (start_time, counter)
  else
    speed <- py_truediv counter delta_time ;;
    n <- queue_qsize _queue ;;
    logger_info topic n counter delta_time speed ;;
    now' <- time_time ;;
    ret (now', 0).

(** A world whose clock reads the whole seconds [t0], [t0 + step], ... and
    whose queues each hold two items. *)
Definition world (t0 step : Z) : World :=
  mkWorld (fun n => of_int (t0 + step * Z.of_nat n)) 0
          (fun _ => mkQueue 0 ["a"; "b"] 2) [].

(** The double [2^-60]. *)
Definition two_pow_minus_60 : float := S754_finite false (2 ^ 52) (-112).

End Double.

(** ** The inbound relay *)

(** [await asyncio.gather] over [queue.put(v) for v in vs]: the puts are started
    in list order on the one event loop.  A put on a queue with room completes
    at once; a put that finds the queue full waits for another task to take
    an item, and so do all puts started after it. *)
Fixpoint gather_puts (q : QueueId) (vs : list Value) : M unit :=
  match vs with
  | [] => ret tt
  | v :: rest => queue_put q v ;; gather_puts q rest
  end.

(** The body of [for tp, messages in batch.items()] in [receive_messages]. *)
Fixpoint receive_batch (consumer : ConsumerId) (receive_queue : QueueId)
    (batch : Batch) : M unit :=
  match batch with
  | [] => ret tt
  | (tp, messages) :: rest =>
      logger_info (LogPartition tp (Z.of_nat (List.length messages))) ;;
      gather_puts receive_queue (map rec_value messages) ;;
      logger_info LogDone ;;
      consumer_commit consumer ;;
      receive_batch consumer receive_queue rest
  end.

(** One turn of the [while] loop of [receive_messages]. *)
Definition receive_cycle (consumer : ConsumerId) (receive_queue : QueueId)
    (batch_size : Z) : M unit :=
  batch <- consumer_getmany consumer 1000 batch_size ;;
  receive_batch consumer receive_queue batch.

(** How a run of a relay loop ends: the coroutine returned, or it is still
    looping after the given number of turns. *)
Inductive Run := Returned | Looping.

Fixpoint receive_messages (fuel : nat) (consumer : ConsumerId)
    (receive_queue : QueueId) (shutdown_event : EventId) (batch_size : Z) : M Run :=
  match fuel with
  | O => ret Looping
  | S fuel' =>
      stop <- is_set shutdown_event ;;
      if stop then
        logger_info LogShutdown ;; ret Returned
      else
        receive_cycle consumer receive_queue batch_size ;;
        receive_messages fuel' consumer receive_queue shutdown_event batch_size
  end.

(** ** The outbound relay *)

(** One turn of the [while] loop of [send_messages]; the loop variables
    [start_time] and [messages_sent] go in and come out. *)
Definition send_cycle (topic : string) (producer : ProducerId) (send_queue : QueueId)
    (start_time : Q) (messages_sent : Z) : M (Q * Z) :=
  ' (start_time, messages_sent) <-
      log_speed messages_sent start_time send_queue topic default_interval ;;
  e <- queue_empty send_queue ;;
  if e then
    asyncio_sleep 1 ;;
    ret (start_time, messages_sent)
  else
    message <- queue_get send_queue ;;
    producer_send producer topic message ;;
    queue_task_done send_queue ;;
    ret (start_time, messages_sent + 1).

Fixpoint send_loop (fuel : nat) (topic : string) (producer : ProducerId)
    (send_queue : QueueId) (shutdown_event : EventId)
    (start_time : Q) (messages_sent : Z) : M Run :=
  match fuel with
  | O => ret Looping
  | S fuel' =>
      stop <- is_set shutdown_event ;;
      if stop then
        logger_info LogShutdown ;; ret Returned
      else
        ' (start_time, messages_sent) <-
            send_cycle topic producer send_queue start_time messages_sent ;;
        send_loop fuel' topic producer send_queue shutdown_event
                  start_time messages_sent
  end.

Definition send_messages (fuel : nat) (topic : string) (producer : ProducerId)
    (send_queue : QueueId) (shutdown_event : EventId) : M Run :=
  start_time <- time_time ;;
  send_loop fuel topic producer send_queue shutdown_event start_time 0.

(** ** The engine *)

Module AioKafkaEngine.

Record t := mk {
  receive_queue : QueueId;
  send_queue : QueueId;
  producer : ProducerId;
  consumer : ConsumerId
}.

(** One turn of the [while] loop of [produce_messages]. *)
Definition produce_cycle (self : t) (topic : string)
    (start_time : Q) (messages_sent : Z) : M (Q * Z) :=
  ' (start_time, messages_sent) <-
      log_speed messages_sent start_time (send_queue self) topic default_interval ;;
  e <- queue_empty (send_queue self) ;;
  if e then
    asyncio_sleep 1 ;;
    ret (start_time, messages_sent)
  else
    message <- queue_get (send_queue self) ;;
    producer_send (producer self) topic message ;;
    queue_task_done (send_queue self) ;;
    ret (start_time, messages_sent + 1).

Fixpoint produce_loop (fuel : nat) (self : t) (shutdown_event : EventId)
    (topic : string) (start_time : Q) (messages_sent : Z) : M Run :=
  match fuel with
  | O => ret Looping
  | S fuel' =>
      stop <- is_set shutdown_event ;;
      if stop then
        logger_info LogShutdown ;; ret Returned
      else
        ' (start_time, messages_sent) <-
            produce_cycle self topic start_time messages_sent ;;
        produce_loop fuel' self shutdown_event topic start_time messages_sent
  end.

Definition produce_messages (fuel : nat) (self : t) (shutdown_event : EventId)
    (topic : string) : M Run :=
  start_time <- time_time ;;
  produce_loop fuel self shutdown_event topic start_time 0.

(** The body of [for tp, messages in batch.items()] in [consume_messages]:
    the partition line is logged after the commit and there is no "done"
    line. *)
Fixpoint consume_batch (self : t) (batch : Batch) : M unit :=
  match batch with
  | [] => ret tt
  | (tp, messages) :: rest =>
      gather_puts (receive_queue self) (map rec_value messages) ;;
      consumer_commit (consumer self) ;;
      logger_info (LogPartition tp (Z.of_nat (List.length messages))) ;;
      consume_batch self rest
  end.

Definition consume_cycle (self : t) (batch_size : Z) : M unit :=
  batch <- consumer_getmany (consumer self) 1000 batch_size ;;
  consume_batch self batch.

Fixpoint consume_messages (fuel : nat) (self : t) (shutdown_event : EventId)
    (batch_size : Z) : M Run :=
  match fuel with
  | O => ret Looping
  | S fuel' =>
      stop <- is_set shutdown_event ;;
      if stop then
        logger_info LogShutdown ;; ret Returned
      else
        consume_cycle self batch_size ;;
        consume_messages fuel' self shutdown_event batch_size
  end.

End AioKafkaEngine.

(** ** The worlds the speed monitor leaves *)

(** The world after the first clock reading of [log_speed]. *)
Definition after_reading (counter : Z) (start_time : Q) (q : QueueId)
    (topic : string) (interval : Z) (w : World) : World :=
  emit (EvTime (clock w (clock_reads w)))
       (tick (emit (EvCallLogSpeed counter start_time q topic interval) w)).

(** The world after the log line and the second clock reading. *)
Definition after_logging (counter : Z) (start_time : Q) (q : QueueId)
    (topic : string) (interval : Z) (w : World) : World :=
  let delta_time := (clock w (clock_reads w) - start_time)%Q in
  emit (EvTime (clock w (S (clock_reads w))))
       (tick (emit (EvLog (LogSpeed topic (qlen (queues w q)) counter delta_time
                                    (inject_Z counter / delta_time)%Q))
                   (after_reading counter start_time q topic interval w))).

(** ** Reading traces *)

Definition is_commit (e : Event) : bool :=
  match e with EvCommit _ _ => true | _ => false end.
Definition is_put (e : Event) : bool :=
  match e with EvPut _ _ => true | _ => false end.
Definition is_get (e : Event) : bool :=
  match e with EvGet _ _ => true | _ => false end.
Definition is_send (e : Event) : bool :=
  match e with EvSend _ _ _ => true | _ => false end.
Definition is_sleep (e : Event) : bool :=
  match e with EvSleep _ => true | _ => false end.
Definition is_task_done (e : Event) : bool :=
  match e with EvTaskDone _ => true | _ => false end.
Definition is_log (e : Event) : bool :=
  match e with EvLog _ => true | _ => false end.
Definition is_call_log_speed (e : Event) : bool :=
  match e with EvCallLogSpeed _ _ _ _ _ => true | _ => false end.
Definition is_turn (e : Event) : bool :=
  match e with EvIsSet _ false => true | _ => false end.

Definition count (p : Event -> bool) (tr : list Event) : nat :=
  List.length (filter p tr).

(** The values put, in the order of their puts. *)
Fixpoint puts_of (tr : list Event) : list Value :=
  match tr with
  | [] => []
  | EvPut _ v :: rest => v :: puts_of rest
  | _ :: rest => puts_of rest
  end.

(** The events a run adds to the trace it started from. *)
Definition new_events (w w' : World) : list Event :=
  skipn (List.length (trace w)) (trace w').

(** ** Vocabulary of the inbound claims *)

(** The trace without its log lines: the broker and queue operations. *)
Definition ops (tr : list Event) : list Event :=
  filter (fun e => negb (is_log e)) tr.

(** The payloads of a batch, partition by partition. *)
Definition batch_values (b : Batch) : list Value :=
  map rec_value (List.concat (map snd b)).

(** What a cycle does to queue and broker for a batch: per partition, the
    puts of its records and then one commit of the fetch positions. *)
Fixpoint relay_ops (q : QueueId) (c : ConsumerId) (pos : Offsets) (b : Batch)
    : list Event :=
  match b with
  | [] => []
  | (_, messages) :: rest =>
      map (fun m => EvPut q (rec_value m)) messages
        ++ EvCommit c pos :: relay_ops q c pos rest
  end.

Definition prefix {A : Type} (l1 l2 : list A) : Prop :=
  exists rest, l2 = l1 ++ rest.

(** The world after a put that found room. *)
Definition enqueue (q : QueueId) (v : Value) (w : World) : World :=
  let x := queues w q in
  emit (EvPut q v)
       (set_queue q (mkQueue (maxsize x) (items x ++ [v]) (unfinished_tasks x + 1)) w).

Fixpoint put_all (q : QueueId) (vs : list Value) (w : World) : World :=
  match vs with
  | [] => w
  | v :: rest => put_all q rest (enqueue q v w)
  end.

(** Room for [n] more items. *)
Definition has_room (x : AQueue) (n : nat) : Prop :=
  maxsize x <= 0 \/ qlen x + Z.of_nat n <= maxsize x.

(** Every commit of the cycle comes after the puts of all records of the
    partitions walked so far, its own included. *)
Definition commit_after_partitions (batch : Batch) (evs : list Event) : Prop :=
  forall pre c offs post,
    evs = pre ++ EvCommit c offs :: post ->
    puts_of pre = batch_values (firstn (S (count is_commit pre)) batch).

(** Every commit of the cycle comes after the puts of all records of the
    batch. *)
Definition commit_after_all_enqueues (batch : Batch) (evs : list Event) : Prop :=
  forall pre c offs post,
    evs = pre ++ EvCommit c offs :: post ->
    puts_of pre = batch_values batch.

(** Every record is put before any commit whose offset for the record's
    partition lies beyond the record. *)
Definition enqueued_before_covering_commit (batch : Batch) (evs : list Event) : Prop :=
  forall pre c offs post tp messages m off,
    evs = pre ++ EvCommit c offs :: post ->
    In (tp, messages) batch -> In m messages ->
    get_offset tp offs = Some off -> rec_offset m < off ->
    In (rec_value m) (puts_of pre).

(** Two worlds that differ in their log lines only. *)
Definition same_but_log (w1 w2 : World) : Prop :=
  clock w1 = clock w2 /\ clock_reads w1 = clock_reads w2 /\
  queues w1 = queues w2 /\ events w1 = events w2 /\
  consumers w1 = consumers w2 /\ producers w1 = producers w2 /\
  ops (trace w1) = ops (trace w2).

(** Two coroutines that, started in worlds differing in log lines only, end
    the same way in worlds differing in log lines only. *)
Definition sim {A : Type} (m1 m2 : M A) : Prop :=
  forall w1 w2, same_but_log w1 w2 ->
    fst (m1 w1) = fst (m2 w2) /\ same_but_log (snd (m1 w1)) (snd (m2 w2)).

(** A coroutine that only appends to the trace, and never a call of the
    speed monitor. *)
Definition monitor_free {A : Type} (m : M A) : Prop :=
  forall w, exists evs,
    trace (snd (m w)) = trace w ++ evs /\ count is_call_log_speed evs = 0%nat.

(** The speed monitor is called once per turn of the loop. *)
Definition once_per_turn (evs : list Event) : Prop :=
  count is_call_log_speed evs = count is_turn evs.

(** What holds of one inbound cycle, whichever of the two implementations
    runs it: a failed poll ends the cycle with nothing done; otherwise, after
    the poll, every commit follows the puts of the partitions walked so far,
    and a cycle that completes has committed once per partition and put every
    record of the batch. *)
Definition commits_per_partition (c : ConsumerId) (batch_size : Z)
    (cycle : M unit) (w : World) : Prop :=
  match fst (consumer_getmany c 1000 batch_size w) with
  | Ok batch =>
      exists evs,
        new_events w (snd (cycle w)) = EvGetMany c 1000 batch_size batch :: evs /\
        commit_after_partitions batch evs /\
        (fst (cycle w) = Ok tt ->
         count is_commit evs = List.length batch /\
         puts_of evs = batch_values batch)
  | _ =>
      fst (cycle w) = Raised KafkaError /\ new_events w (snd (cycle w)) = []
  end.

(** The events the speed monitor adds after its call marker: clock readings
    and the throughput line. *)
Definition monitor_only (e : Event) : bool :=
  match e with
  | EvTime _ | EvLog _ => true
  | _ => false
  end.

(** Two coroutines that do the same in every world, log lines included. *)
Definition same_run {A : Type} (m1 m2 : M A) : Prop :=
  forall w, m1 w = m2 w.

(** ** A sample world *)

Module Sample.

Definition tp0 : TopicPartition := mkTP "reports" 0.
Definition tp1 : TopicPartition := mkTP "reports" 1.

Definition r10 := mkRec 10 "r10".
Definition r11 := mkRec 11 "r11".
Definition r12 := mkRec 12 "r12".

Definition batch3 : Batch := [(tp0, [r10; r11; r12])].

Definition batch2p : Batch := [(tp0, [mkRec 4 "a"]); (tp1, [mkRec 7 "b"])].

(** Queue 0 is the inbound queue, queue 1 the outbound queue; the clock
    advances by one second per reading and the shutdown flag is set at its
    third reading. *)
Definition world (offer : Batch) (outbound : list Value) : World :=
  mkWorld (fun n => inject_Z (Z.of_nat n)) 0
          (fun q => match q with
                    | 1%nat => mkQueue 0 outbound (Z.of_nat (List.length outbound))
                    | _ => mkQueue 0 [] 0
                    end)
          (fun _ => mkEvent (fun n => Nat.leb 2 n) 0)
          (fun _ => mkConsumer (fun n => match n with
                                         | O => PollOffer offer
                                         | _ => PollOffer []
                                         end) 0
                               (fun _ => true) 0 [] [])
          (fun _ => mkProducer (fun _ => true) 0 [])
          [].

Definition engine : AioKafkaEngine.t := AioKafkaEngine.mk 0 1 0 0.

End Sample.

(** ** Vocabulary of the loop properties *)

(** The values taken from a queue, in the order of their gets. *)
Fixpoint gets_of (tr : list Event) : list Value :=
  match tr with
  | [] => []
  | EvGet _ v :: rest => v :: gets_of rest
  | _ :: rest => gets_of rest
  end.

(** The values published, in the order of the [send] calls that returned. *)
Fixpoint sends_of (tr : list Event) : list Value :=
  match tr with
  | [] => []
  | EvSend _ _ v :: rest => v :: sends_of rest
  | _ :: rest => sends_of rest
  end.

(** The payloads the polls returned, poll after poll. *)
Fixpoint polled (tr : list Event) : list Value :=
  match tr with
  | [] => []
  | EvGetMany _ _ _ b :: rest => batch_values b ++ polled rest
  | _ :: rest => polled rest
  end.

Definition is_check (e : Event) : bool :=
  match e with EvIsSet _ _ => true | _ => false end.

(** What follows the first observation of a set shutdown flag, if there is
    one. *)
Fixpoint after_stop (tr : list Event) : option (list Event) :=
  match tr with
  | [] => None
  | EvIsSet _ true :: rest => Some rest
  | _ :: rest => after_stop rest
  end.

(** A coroutine that never looks at a shutdown flag. *)
Definition check_free {A : Type} (m : M A) : Prop :=
  forall w, exists evs,
    trace (snd (m w)) = trace w ++ evs /\
    forallb (fun e => negb (is_check e)) evs = true.

(** How a run that observed shutdown ends: nothing but the shutdown line
    follows the observation, and the coroutine returned; a run that did not
    observe it has not returned. *)
Definition stops_on_signal (r : Result Run) (evs : list Event) : Prop :=
  match after_stop evs with
  | Some post => post = [EvLog LogShutdown] /\ r = Ok Returned
  | None => r <> Ok Returned
  end.

(** The counter the outbound loop holds after the events [tr], having held
    [c] before them: a publish followed by its [task_done] raises it, a
    throughput line resets it. *)
Fixpoint counter_after (c : Z) (tr : list Event) : Z :=
  match tr with
  | [] => c
  | EvTaskDone _ :: rest => counter_after (c + 1) rest
  | EvLog (LogSpeed _ _ _ _ _) :: rest => counter_after 0 rest
  | _ :: rest => counter_after c rest
  end.

(** Every call of the speed monitor receives, and every throughput line
    reports, the number of items marked done since the previous throughput
    line, starting from [c]. *)
Fixpoint counter_consistent (c : Z) (tr : list Event) : Prop :=
  match tr with
  | [] => True
  | EvCallLogSpeed cnt _ _ _ _ :: rest => cnt = c /\ counter_consistent c rest
  | EvLog (LogSpeed _ _ cnt _ _) :: rest => cnt = c /\ counter_consistent 0 rest
  | EvTaskDone _ :: rest => counter_consistent (c + 1) rest
  | _ :: rest => counter_consistent c rest
  end.

(** What a run of the inbound relay leaves alone: the clock, the producers,
    every queue but its own, every consumer but its own and every event but
    its own. *)
Definition inbound_frame (c : ConsumerId) (q : QueueId) (ev : EventId)
    (w w' : World) : Prop :=
  clock_reads w' = clock_reads w /\
  producers w' = producers w /\
  (forall q', q' <> q -> queues w' q' = queues w q') /\
  (forall c', c' <> c -> consumers w' c' = consumers w c') /\
  (forall ev', ev' <> ev -> events w' ev' = events w ev').

(** What a run of the outbound relay leaves alone: the consumers, every
    queue but its own, every producer but its own and every event but its
    own. *)
Definition outbound_frame (p : ProducerId) (q : QueueId) (ev : EventId)
    (w w' : World) : Prop :=
  consumers w' = consumers w /\
  (forall q', q' <> q -> queues w' q' = queues w q') /\
  (forall p', p' <> p -> producers w' p' = producers w p') /\
  (forall ev', ev' <> ev -> events w' ev' = events w ev').

(** A coroutine whose every run is related to its start by [R]. *)
Definition preserves (R : World -> World -> Prop) {A : Type} (m : M A) : Prop :=
  forall w, R w (snd (m w)).

(** A result that is a normal return. *)
Definition returned {A : Type} (r : Result A) : Prop :=
  match r with Ok _ => True | _ => False end.

(** The sample world with bounded queues of capacity 1: the inbound queue
    already holds one item, the outbound queue holds the given items. *)
Definition crowded_world (offer : Batch) (outbound : list Value) : World :=
  mkWorld (clock (Sample.world offer outbound))
          (clock_reads (Sample.world offer outbound))
          (fun q => match q with
                    | 1%nat => mkQueue 1 outbound (Z.of_nat (List.length outbound))
                    | _ => mkQueue 1 ["old"] 1
                    end)
          (events (Sample.world offer outbound))
          (consumers (Sample.world offer outbound))
          (producers (Sample.world offer outbound))
          [].

(** The sample world whose broker rejects every commit and every publish. *)
Definition failing_world (offer : Batch) (outbound : list Value) : World :=
  mkWorld (clock (Sample.world offer outbound))
          (clock_reads (Sample.world offer outbound))
          (queues (Sample.world offer outbound))
          (events (Sample.world offer outbound))
          (fun _ => mkConsumer (fun _ => PollOffer offer) 0 (fun _ => false) 0 [] [])
          (fun _ => mkProducer (fun _ => false) 0 [])
          [].

(** What the speed monitor does at the head of an outbound turn, from world
    [w] to world [w1]: it returns a pair, moves no queue and no client, and
    either keeps the pair after one clock reading or, after the throughput
    line, resets the counter and takes the second reading as window start. *)
Definition monitor_step (counter : Z) (start_time : Q) (q : QueueId)
    (topic : string) (w w1 : World) (s1 : Q) (c1 : Z) : Prop :=
  log_speed counter start_time q topic default_interval w = (Ok (s1, c1), w1) /\
  queues w1 = queues w /\ producers w1 = producers w /\
  events w1 = events w /\ consumers w1 = consumers w /\
  ((s1 = start_time /\ c1 = counter /\
    exists t,
      trace w1 = trace w ++
        [EvCallLogSpeed counter start_time q topic default_interval; EvTime t]) \/
   (c1 = 0 /\
    exists t n d sp,
      trace w1 = trace w ++
        [EvCallLogSpeed counter start_time q topic default_interval; EvTime t;
         EvLog (LogSpeed topic n counter d sp); EvTime s1])).

(** What is common to every way an outbound turn can go on after the speed
    monitor, from world [w1] to world [w']. *)
Definition outbound_frame_step (p : ProducerId) (q : QueueId) (w1 w' : World) : Prop :=
  consumers w' = consumers w1 /\ events w' = events w1 /\
  (forall q', q' <> q -> queues w' q' = queues w1 q') /\
  (forall p', p' <> p -> producers w' p' = producers w1 p') /\
  maxsize (queues w' q) = maxsize (queues w1 q) /\
  send_script (producers w' p) = send_script (producers w1 p).

(** The four ways an outbound turn can go on after the speed monitor: the
    queue is empty and the relay sleeps; the publish fails; the publish
    succeeds but [task_done] refuses; the item is published and marked done. *)
Definition outbound_step (topic : string) (p : ProducerId) (q : QueueId)
    (w1 w' : World) (s1 : Q) (c1 : Z) (r : Result (Q * Z)) : Prop :=
  (items (queues w1 q) = [] /\ r = Ok (s1, c1) /\
   trace w' = trace w1 ++ [EvSleep 1] /\
   queues w' q = queues w1 q /\ producers w' p = producers w1 p) \/
  (exists v rest,
     items (queues w1 q) = v :: rest /\ items (queues w' q) = rest /\
     sends (producers w' p) = S (sends (producers w1 p)) /\
     ((send_script (producers w1 p) (sends (producers w1 p)) = false /\
       r = Raised KafkaError /\
       trace w' = trace w1 ++ [EvGet q v] /\
       unfinished_tasks (queues w' q) = unfinished_tasks (queues w1 q) /\
       delivered (producers w' p) = delivered (producers w1 p)) \/
      (send_script (producers w1 p) (sends (producers w1 p)) = true /\
       unfinished_tasks (queues w1 q) <= 0 /\
       r = Raised ValueError /\
       trace w' = trace w1 ++ [EvGet q v; EvSend p topic v] /\
       unfinished_tasks (queues w' q) = unfinished_tasks (queues w1 q) /\
       delivered (producers w' p) = delivered (producers w1 p) ++ [(topic, v)]) \/
      (send_script (producers w1 p) (sends (producers w1 p)) = true /\
       0 < unfinished_tasks (queues w1 q) /\
       r = Ok (s1, c1 + 1) /\
       trace w' = trace w1 ++ [EvGet q v; EvSend p topic v; EvTaskDone q] /\
       unfinished_tasks (queues w' q) = unfinished_tasks (queues w1 q) - 1 /\
       delivered (producers w' p) = delivered (producers w1 p) ++ [(topic, v)]))).

(** The outbound relay between worlds [w] and [w'], with events [evs]: what
    it took from the queue is the head of the queue, in order; what it
    published is what it took, in order, except for the last item taken when
    the run ended in an error; and the broker holds exactly what was
    published, under the relay's topic. *)
Definition publishes_in_queue_order {A : Type} (topic : string) (p : ProducerId)
    (q : QueueId) (w w' : World) (r : Result A) (evs : list Event) : Prop :=
  items (queues w q) = gets_of evs ++ items (queues w' q) /\
  prefix (sends_of evs) (gets_of evs) /\
  (List.length (gets_of evs) <= S (List.length (sends_of evs)))%nat /\
  delivered (producers w' p)
    = delivered (producers w p) ++ map (pair topic) (sends_of evs) /\
  (returned r -> sends_of evs = gets_of evs).



(** * Properties *)

(** ** Traces *)

Lemma count_app (p : Event -> bool) (l1 l2 : list Event) :
  count p (l1 ++ l2) = (count p l1 + count p l2)%nat.
Proof. unfold count. rewrite filter_app. apply length_app. Qed.

Lemma puts_of_app (l1 l2 : list Event) :
  puts_of (l1 ++ l2) = puts_of l1 ++ puts_of l2.
Proof.
  induction l1 as [|e l1 IH]; simpl; [reflexivity|].
  destruct e; simpl; rewrite ?IH; reflexivity.
Qed.

Lemma new_events_app (w w' : World) (evs : list Event) :
  trace w' = trace w ++ evs -> new_events w w' = evs.
Proof.
  unfold new_events. intros ->.
  rewrite skipn_app, skipn_all, Nat.sub_diag. reflexivity.
Qed.

(** ** The speed monitor, case by case *)

Lemma Qltb_ge (x y : Q) : Qltb x y = false <-> (y <= x)%Q.
Proof.
  unfold Qltb. rewrite negb_false_iff. apply Qle_bool_iff.
Qed.

Lemma log_speed_cases (counter : Z) (start_time : Q) (q : QueueId)
    (topic : string) (interval : Z) (w : World) :
  log_speed counter start_time q topic interval w =
  let delta_time := (clock w (clock_reads w) - start_time)%Q in
  if Qltb delta_time (inject_Z interval) then
    (Ok (start_time, counter), after_reading counter start_time q topic interval w)
  else if Qeq_bool delta_time 0 then
    (Raised ZeroDivisionError, after_reading counter start_time q topic interval w)
  else
    (Ok (clock w (S (clock_reads w)), 0),
     after_logging counter start_time q topic interval w).
Proof.
  unfold log_speed, bind, enter_log_speed, time_time, py_truediv. simpl.
  destruct (Qltb _ _); [reflexivity|].
  destruct (Qeq_bool _ _); reflexivity.
Qed.

Lemma inject_Z_pos (z : Z) : 0 < z -> (0 < inject_Z z)%Q.
Proof. intros H. unfold Qlt. simpl. lia. Qed.

(** With a positive interval the speed monitor never divides by zero. *)
Lemma log_speed_positive (counter : Z) (start_time : Q) (q : QueueId)
    (topic : string) (interval : Z) (w : World) :
  0 < interval ->
  let delta_time := (clock w (clock_reads w) - start_time)%Q in
  log_speed counter start_time q topic interval w =
  if Qltb delta_time (inject_Z interval) then
    (Ok (start_time, counter), after_reading counter start_time q topic interval w)
  else
    (Ok (clock w (S (clock_reads w)), 0),
     after_logging counter start_time q topic interval w).
Proof.
  intros Hpos. rewrite log_speed_cases. cbv zeta.
  destruct (Qltb _ _) eqn:E; [reflexivity|].
  apply Qltb_ge in E.
  destruct (Qeq_bool _ 0) eqn:E0; [|reflexivity].
  apply Qeq_bool_eq in E0. exfalso.
  pose proof (inject_Z_pos interval Hpos) as Hi.
  rewrite E0 in E. exact (Qlt_not_le _ _ Hi E).
Qed.

(** ** The speed monitor in double precision, case by case *)

Lemma double_new_events_app (w w' : Double.World) (evs : list Double.Event) :
  Double.trace w' = Double.trace w ++ evs -> Double.new_events w w' = evs.
Proof.
  unfold Double.new_events. intros ->.
  rewrite skipn_app, skipn_all, Nat.sub_diag. reflexivity.
Qed.

(** The world after the first clock reading. *)
Lemma double_log_speed_cases (counter : Z) (start_time : Double.float)
    (q : QueueId) (topic : string) (interval : Z) (w : Double.World) :
  Double.log_speed counter start_time q topic interval w =
  let now := Double.clock w (Double.clock_reads w) in
  let delta_time := Double.fsub now start_time in
  let w1 := Double.emit (Double.EvTime now) (Double.tick w) in
  let w2 := Double.emit (Double.EvTrueDiv counter delta_time) w1 in
  if Double.float_lt_int delta_time interval then
    (Ok (start_time, counter), w1)
  else
    match Double.float_of_int counter with
    | None => (Raised OverflowError, w2)
    | Some c =>
        if Double.is_zero delta_time then (Raised ZeroDivisionError, w2)
        else
          (Ok (Double.clock w (S (Double.clock_reads w)), 0),
           Double.emit (Double.EvTime (Double.clock w (S (Double.clock_reads w))))
             (Double.tick
                (Double.emit
                   (Double.EvLog topic (qlen (Double.queues w q)) counter
                      delta_time (Double.fdiv c delta_time)) w2)))
    end.
Proof.
  unfold Double.log_speed, Double.bind, Double.time_time, Double.py_truediv.
  cbv zeta. cbn [Double.clock Double.clock_reads Double.emit Double.tick].
  destruct (Double.float_lt_int _ _); [reflexivity|].
  destruct (Double.float_of_int counter); [|reflexivity].
  destruct (Double.is_zero _); reflexivity.
Qed.

(** A float that is not below a positive integer is not zero, and unless it
    is NaN it is at least that integer. *)
Lemma double_guard (d : Double.float) (n : Z) :
  0 < n -> Double.float_lt_int d n = false ->
  Double.is_zero d = false /\ (d <> S754_nan -> Double.at_least d n).
Proof.
  intros Hn H. destruct d as [s|s| |s m e]; simpl in *.
  - apply Z.ltb_ge in H. lia.
  - split; [reflexivity|]. intros _. exact H.
  - split; [reflexivity|]. intros Hnan. exfalso. apply Hnan. reflexivity.
  - split; [reflexivity|]. intros _. apply Qltb_ge. exact H.
Qed.

(** A zero that is not below an integer: the integer is not positive. *)
Lemma double_zero_not_below (d : Double.float) (n : Z) :
  Double.is_zero d = true -> Double.float_lt_int d n = false -> n <= 0.
Proof.
  intros Hz H. destruct d as [s|s| |s m e]; simpl in *; try discriminate Hz.
  apply Z.ltb_ge in H. exact H.
Qed.

(** ** Speed monitor: claims C3, C5, C10 *)

(** C3.  For every counter, window start, queue, label and interval: when the
    elapsed time [time.time() - start_time], as the function computes it, is
    less than the interval, [log_speed] returns its input pair
    [(start_time, counter)], having done nothing but read the clock once; and
    when the next clock reading is still inside the window, calling it again
    on the returned pair returns the same pair once more. *)
Theorem log_speed_noop_within_window :
  forall (counter : Z) (start_time : Double.float) (q : QueueId)
         (topic : string) (interval : Z) (w : Double.World),
    Double.float_lt_int
      (Double.fsub (Double.clock w (Double.clock_reads w)) start_time)
      interval = true ->
    let first := Double.log_speed counter start_time q topic interval w in
    fst first = Ok (start_time, counter) /\
    Double.new_events w (snd first)
      = [Double.EvTime (Double.clock w (Double.clock_reads w))] /\
    Double.queues (snd first) = Double.queues w /\
    (Double.float_lt_int
       (Double.fsub (Double.clock w (S (Double.clock_reads w))) start_time)
       interval = true ->
     fst (Double.bind (Double.log_speed counter start_time q topic interval)
            (fun r => Double.log_speed (snd r) (fst r) q topic interval) w)
     = Ok (start_time, counter)).
Proof.
  intros counter start_time q topic interval w Hin. cbv zeta.
  rewrite double_log_speed_cases. cbv zeta. rewrite Hin. cbn [fst snd].
  repeat split.
  - apply double_new_events_app. reflexivity.
  - intros Hin2. unfold Double.bind.
    rewrite double_log_speed_cases. cbv zeta. rewrite Hin. cbn [fst snd].
    rewrite double_log_speed_cases. cbv zeta.
    cbn [Double.clock Double.clock_reads Double.emit Double.tick].
    rewrite Hin2. reflexivity.
Qed.


(** C10, as the code has it.  For every input [log_speed] leaves all queues
    as they were.  When it returns, what it returns is either the pair it was
    given or the clock's next reading paired with zero.  It can also raise,
    and only once the test [delta_time < interval] has failed:
    [OverflowError] when the counter is too large for a double,
    [ZeroDivisionError] when the counter converts, the elapsed time is zero
    and the interval is not positive.  With a positive interval and a counter
    that converts it always returns. *)
Theorem log_speed_frame_and_shape :
  forall (counter : Z) (start_time : Double.float) (q : QueueId)
         (topic : string) (interval : Z) (w : Double.World),
    let delta_time :=
      Double.fsub (Double.clock w (Double.clock_reads w)) start_time in
    let r := Double.log_speed counter start_time q topic interval w in
    Double.queues (snd r) = Double.queues w /\
    match fst r with
    | Ok (t, c) =>
        (t = start_time /\ c = counter) \/
        (t = Double.clock w (S (Double.clock_reads w)) /\ c = 0)
    | Raised e =>
        Double.float_lt_int delta_time interval = false /\
        ((e = OverflowError /\ Double.float_of_int counter = None) \/
         (e = ZeroDivisionError /\ Double.float_of_int counter <> None /\
          Double.is_zero delta_time = true /\ interval <= 0))
    | Suspended => False
    end /\
    (0 < interval -> Double.float_of_int counter <> None ->
     exists pair, fst r = Ok pair).
Proof.
  intros counter start_time q topic interval w. cbv zeta.
  rewrite double_log_speed_cases. cbv zeta.
  set (delta_time := Double.fsub (Double.clock w (Double.clock_reads w)) start_time).
  destruct (Double.float_lt_int delta_time interval) eqn:E.
  - cbn [fst snd]. split; [reflexivity|]. split.
    + left. split; reflexivity.
    + intros _ _. eexists. reflexivity.
  - destruct (Double.float_of_int counter) as [c0|] eqn:Ec.
    + destruct (Double.is_zero delta_time) eqn:Ez; cbn [fst snd].
      * split; [reflexivity|]. split.
        -- split; [reflexivity|]. right.
           split; [reflexivity|]. split; [discriminate|].
           split; [reflexivity|].
           exact (double_zero_not_below delta_time interval Ez E).
        -- intros Hpos _. exfalso.
           pose proof (double_zero_not_below delta_time interval Ez E). lia.
      * split; [reflexivity|]. split.
        -- right. split; reflexivity.
        -- intros _ _. eexists. reflexivity.
    + cbn [fst snd]. split; [reflexivity|]. split.
      * split; [reflexivity|]. left. split; reflexivity.
      * intros _ Hc. exfalso. apply Hc. reflexivity.
Qed.

(** C10, as the claim has it, fails where the function raises instead of
    returning a pair.  With an interval of zero and a clock that reads the
    window start, the elapsed time is zero and the division raises
    [ZeroDivisionError]; with the default interval elapsed and a counter of
    [10^400], the conversion of the counter raises [OverflowError]. *)
Lemma log_speed_raises_instead_of_returning :
  fst (Double.log_speed 5 (Double.of_int 0) 0 "out" 0 (Double.world 0 1))
    = Raised ZeroDivisionError /\
  fst (Double.log_speed (10 ^ 400) (Double.of_int 0) 0 "out" 60
         (Double.world 60 1))
    = Raised OverflowError.
Proof. split; vm_compute; reflexivity. Qed.

(** ** Puts *)

Lemma queue_put_eq (q : QueueId) (v : Value) (w : World) :
  queue_put q v w = if full (queues w q) then (Suspended, w) else (Ok tt, enqueue q v w).
Proof. reflexivity. Qed.

Lemma upd_same {A : Type} (f : nat -> A) (k : nat) (v : A) : upd f k v k = v.
Proof. unfold upd. rewrite Nat.eqb_refl. reflexivity. Qed.

Lemma put_all_app (q : QueueId) (vs1 vs2 : list Value) (w : World) :
  put_all q (vs1 ++ vs2) w = put_all q vs2 (put_all q vs1 w).
Proof. revert w. induction vs1; intros w; simpl; [reflexivity|apply IHvs1]. Qed.

Lemma put_all_trace (q : QueueId) (vs : list Value) (w : World) :
  trace (put_all q vs w) = trace w ++ map (EvPut q) vs.
Proof.
  revert w. induction vs as [|v vs IH]; intros w; simpl.
  - symmetry. apply app_nil_r.
  - rewrite IH. simpl. rewrite <- app_assoc. reflexivity.
Qed.

Lemma put_all_frame (q : QueueId) (vs : list Value) (w : World) :
  clock (put_all q vs w) = clock w /\
  clock_reads (put_all q vs w) = clock_reads w /\
  events (put_all q vs w) = events w /\
  consumers (put_all q vs w) = consumers w /\
  producers (put_all q vs w) = producers w.
Proof.
  revert w. induction vs as [|v vs IH]; intros w; simpl.
  - repeat split.
  - destruct (IH (enqueue q v w)) as (H1 & H2 & H3 & H4 & H5).
    rewrite H1, H2, H3, H4, H5. repeat split.
Qed.

Lemma put_all_queue (q : QueueId) (vs : list Value) (w : World) :
  queues (put_all q vs w) q =
  mkQueue (maxsize (queues w q)) (items (queues w q) ++ vs)
          (unfinished_tasks (queues w q) + Z.of_nat (List.length vs)).
Proof.
  revert w. induction vs as [|v vs IH]; intros w.
  - simpl. rewrite app_nil_r, Z.add_0_r. destruct (queues w q); reflexivity.
  - cbn [put_all]. rewrite IH. unfold enqueue. cbn [queues emit set_queue].
    rewrite upd_same. cbn [maxsize items unfinished_tasks].
    rewrite <- app_assoc. cbn [app List.length]. f_equal. lia.
Qed.

Lemma put_all_other_queue (q q' : QueueId) (vs : list Value) (w : World) :
  q' <> q -> queues (put_all q vs w) q' = queues w q'.
Proof.
  intros Hne. revert w. induction vs as [|v vs IH]; intros w; [reflexivity|].
  cbn [put_all]. rewrite IH. unfold enqueue. cbn [queues emit set_queue].
  unfold upd. destruct (Nat.eqb q' q) eqn:E; [|reflexivity].
  apply Nat.eqb_eq in E. contradiction.
Qed.

(** Whatever the room, [gather_puts] completes a prefix of its puts, in
    order, and either returns with all of them done or stays suspended. *)
Lemma gather_puts_outcome (q : QueueId) (vs : list Value) (w : World) :
  exists done,
    prefix done vs /\
    snd (gather_puts q vs w) = put_all q done w /\
    ((fst (gather_puts q vs w) = Ok tt /\ done = vs) \/
     fst (gather_puts q vs w) = Suspended).
Proof.
  revert w. induction vs as [|v vs IH]; intros w.
  - exists []. split; [exists []; reflexivity|]. simpl. auto.
  - cbn [gather_puts]. unfold bind. rewrite queue_put_eq.
    destruct (full (queues w q)).
    + exists []. split; [exists (v :: vs); reflexivity|]. simpl. auto.
    + destruct (IH (enqueue q v w)) as (done & [rest Hrest] & Hw & Hr).
      exists (v :: done). split; [exists rest; simpl; congruence|].
      split; [exact Hw|].
      destruct Hr as [[Hok Hd]|Hs]; [left|right]; [split|]; congruence.
Qed.

Lemma full_false_room (x : AQueue) (n : nat) :
  has_room x (S n) -> full x = false.
Proof.
  unfold has_room, full. intros [H|H].
  - apply Z.leb_le in H. rewrite H. reflexivity.
  - destruct (maxsize x <=? 0); [reflexivity|]. apply Z.leb_gt. lia.
Qed.

(** With room for all of them, the puts all complete. *)
Lemma gather_puts_room (q : QueueId) (vs : list Value) (w : World) :
  has_room (queues w q) (List.length vs) ->
  gather_puts q vs w = (Ok tt, put_all q vs w).
Proof.
  revert w. induction vs as [|v vs IH]; intros w Hroom; [reflexivity|].
  cbn [gather_puts]. unfold bind. rewrite queue_put_eq.
  rewrite (full_false_room _ _ Hroom). cbn [put_all]. apply IH.
  unfold enqueue. cbn [queues emit set_queue]. rewrite upd_same.
  unfold has_room, qlen in *. cbn [maxsize items List.length] in *.
  rewrite length_app. cbn [List.length]. lia.
Qed.

(** ** Worlds up to log lines *)

Lemma ops_app (l1 l2 : list Event) : ops (l1 ++ l2) = ops l1 ++ ops l2.
Proof. apply filter_app. Qed.

Lemma same_but_log_refl (w : World) : same_but_log w w.
Proof. repeat split. Qed.

Lemma sim_ret {A : Type} (a : A) : sim (ret a) (ret a).
Proof. intros w1 w2 H. split; [reflexivity|exact H]. Qed.

Lemma sim_bind {A B : Type} (m1 m2 : M A) (k1 k2 : A -> M B) :
  sim m1 m2 -> (forall a, sim (k1 a) (k2 a)) -> sim (bind m1 k1) (bind m2 k2).
Proof.
  intros Hm Hk w1 w2 Hw. unfold bind.
  destruct (Hm w1 w2 Hw) as [Hr Hw'].
  destruct (m1 w1) as [r1 w1'], (m2 w2) as [r2 w2']. simpl in Hr, Hw'. subst r2.
  destruct r1; [apply Hk; exact Hw'| |]; split; simpl; auto.
Qed.

(** A log line on either side does not matter. *)
Lemma sim_log_left {A : Type} (r : LogRecord) (m1 m2 : M A) :
  sim m1 m2 -> sim (logger_info r ;; m1) m2.
Proof.
  intros Hm w1 w2 (H1 & H2 & H3 & H4 & H5 & H6 & H7).
  unfold bind, logger_info. apply Hm.
  unfold same_but_log. simpl. rewrite ops_app. simpl. rewrite app_nil_r.
  repeat split; assumption.
Qed.

Lemma sim_log_right {A : Type} (r : LogRecord) (m1 m2 : M A) :
  sim m1 m2 -> sim m1 (logger_info r ;; m2).
Proof.
  intros Hm w1 w2 (H1 & H2 & H3 & H4 & H5 & H6 & H7).
  unfold bind, logger_info. apply Hm.
  unfold same_but_log. simpl. rewrite ops_app. simpl. rewrite app_nil_r.
  repeat split; assumption.
Qed.

Ltac sim_fields :=
  unfold same_but_log; simpl; rewrite ?ops_app; simpl;
  repeat split; congruence.


Lemma sim_queue_put (q : QueueId) (v : Value) : sim (queue_put q v) (queue_put q v).
Proof.
  intros w1 w2 (H1 & H2 & H3 & H4 & H5 & H6 & H7).
  unfold queue_put. rewrite H3. destruct (full (queues w2 q)).
  - split; [reflexivity|]. sim_fields.
  - split; [reflexivity|]. sim_fields.
Qed.

Lemma sim_gather_puts (q : QueueId) (vs : list Value) :
  sim (gather_puts q vs) (gather_puts q vs).
Proof.
  induction vs as [|v vs IH]; simpl.
  - apply sim_ret.
  - apply sim_bind; [apply sim_queue_put|intros _; exact IH].
Qed.

Lemma sim_consumer_commit (c : ConsumerId) :
  sim (consumer_commit c) (consumer_commit c).
Proof.
  intros w1 w2 (H1 & H2 & H3 & H4 & H5 & H6 & H7).
  unfold consumer_commit. rewrite H5.
  destruct (commit_script (consumers w2 c) (commit_calls (consumers w2 c))).
  - split; [reflexivity|]. sim_fields.
  - split; [reflexivity|]. sim_fields.
Qed.

Lemma sim_consumer_getmany (c : ConsumerId) (timeout_ms max_records : Z) :
  sim (consumer_getmany c timeout_ms max_records)
      (consumer_getmany c timeout_ms max_records).
Proof.
  intros w1 w2 (H1 & H2 & H3 & H4 & H5 & H6 & H7).
  unfold consumer_getmany. rewrite H5.
  destruct (poll_script (consumers w2 c) (polls (consumers w2 c))).
  - split; [reflexivity|]. sim_fields.
  - split; [reflexivity|]. sim_fields.
Qed.

(** The two batch loops differ in their log lines only. *)
Lemma sim_batch (self : AioKafkaEngine.t) (b : Batch) :
  sim (receive_batch (AioKafkaEngine.consumer self)
                     (AioKafkaEngine.receive_queue self) b)
      (AioKafkaEngine.consume_batch self b).
Proof.
  induction b as [|[tp messages] rest IH]; simpl.
  - apply sim_ret.
  - apply sim_log_left.
    apply sim_bind; [apply sim_gather_puts|intros _].
    apply sim_log_left.
    apply sim_bind; [apply sim_consumer_commit|intros _].
    apply sim_log_right. exact IH.
Qed.

Lemma sim_cycle (self : AioKafkaEngine.t) (batch_size : Z) :
  sim (receive_cycle (AioKafkaEngine.consumer self)
                     (AioKafkaEngine.receive_queue self) batch_size)
      (AioKafkaEngine.consume_cycle self batch_size).
Proof.
  unfold receive_cycle, AioKafkaEngine.consume_cycle.
  apply sim_bind; [apply sim_consumer_getmany|intros b; apply sim_batch].
Qed.


(** ** The shape of an inbound cycle *)

Lemma prefix_nil {A : Type} (l : list A) : prefix [] l.
Proof. exists l. reflexivity. Qed.

Lemma prefix_refl {A : Type} (l : list A) : prefix l l.
Proof. exists []. symmetry. apply app_nil_r. Qed.

Lemma prefix_app {A : Type} (l l1 l2 : list A) :
  prefix l1 l2 -> prefix (l ++ l1) (l ++ l2).
Proof. intros [rest ->]. exists rest. apply app_assoc. Qed.

Lemma prefix_app_l {A : Type} (l1 l2 rest : list A) :
  prefix l1 l2 -> prefix l1 (l2 ++ rest).
Proof. intros [r ->]. exists (r ++ rest). symmetry. apply app_assoc. Qed.

Lemma prefix_map {A B : Type} (f : A -> B) (l1 l2 : list A) :
  prefix l1 l2 -> prefix (map f l1) (map f l2).
Proof. intros [rest ->]. exists (map f rest). apply map_app. Qed.

Lemma ops_puts (q : QueueId) (vs : list Value) :
  ops (map (EvPut q) vs) = map (EvPut q) vs.
Proof. induction vs as [|v vs IH]; simpl; [reflexivity|]. f_equal. exact IH. Qed.

Lemma receive_batch_ops (c : ConsumerId) (q : QueueId) (b : Batch)
    (w w' : World) (r : Result unit) :
  receive_batch c q b w = (r, w') ->
  exists evs,
    trace w' = trace w ++ evs /\
    prefix (ops evs) (relay_ops q c (position (consumers w c)) b) /\
    (r = Ok tt -> ops evs = relay_ops q c (position (consumers w c)) b).
Proof.
  revert w. induction b as [|[tp messages] rest IH]; intros w H.
  - injection H as <- <-. exists []. simpl. rewrite app_nil_r.
    repeat split. apply prefix_nil.
  - cbn [receive_batch relay_ops] in *.
    unfold bind at 1 in H. unfold logger_info at 1 in H.
    unfold bind at 1 in H.
    set (line := EvLog (LogPartition tp (Z.of_nat (List.length messages)))) in *.
    destruct (gather_puts_outcome q (map rec_value messages) (emit line w))
      as (done & Hpre & Hw & Hr).
    destruct (gather_puts q (map rec_value messages) (emit line w)) as [r1 w1].
    simpl in Hw, Hr. subst w1.
    assert (Hputs : map (fun m => EvPut q (rec_value m)) messages
                    = map (EvPut q) (map rec_value messages))
      by (rewrite map_map; reflexivity).
    rewrite Hputs.
    destruct Hr as [[-> ->] | ->].
    2:{ injection H as <- <-. exists (line :: map (EvPut q) done).
        rewrite put_all_trace. simpl. rewrite <- app_assoc.
        split; [reflexivity|].
        rewrite ops_puts. split; [|discriminate].
        apply prefix_app_l, prefix_map, Hpre. }
    unfold bind at 1 in H. unfold logger_info at 1 in H.
    unfold bind at 1 in H. unfold consumer_commit at 1 in H.
    cbn [consumers emit] in H.
    destruct (put_all_frame q (map rec_value messages) (emit line w))
      as (_ & _ & _ & Hc & _).
    rewrite Hc in H. cbn [consumers emit] in H.
    destruct (commit_script (consumers w c) (commit_calls (consumers w c))).
    2:{ injection H as <- <-.
        exists (line :: map (EvPut q) (map rec_value messages) ++ [EvLog LogDone]).
        simpl. rewrite put_all_trace. simpl.
        repeat rewrite <- app_assoc. split; [reflexivity|].
        rewrite ops_app, ops_puts. simpl. rewrite app_nil_r.
        split; [|discriminate].
        exists (EvCommit c (position (consumers w c))
                  :: relay_ops q c (position (consumers w c)) rest).
        reflexivity. }
    destruct (IH _ H) as (evs & Ht & Hp & Hok).
    cbn [consumers emit set_consumer] in Hp, Hok.
    rewrite upd_same in Hp, Hok. cbn [position] in Hp, Hok.
    exists (line :: map (EvPut q) (map rec_value messages)
              ++ EvLog LogDone :: EvCommit c (position (consumers w c)) :: evs).
    split.
    + rewrite Ht. simpl. rewrite put_all_trace. simpl.
      repeat rewrite <- app_assoc. reflexivity.
    + assert (Hops : ops (line :: map (EvPut q) (map rec_value messages)
                            ++ EvLog LogDone
                            :: EvCommit c (position (consumers w c)) :: evs)
                     = map (EvPut q) (map rec_value messages)
                       ++ EvCommit c (position (consumers w c)) :: ops evs).
      { simpl. rewrite ops_app, ops_puts. reflexivity. }
      rewrite Hops. split.
      * apply prefix_app. destruct Hp as [r' Hr']. exists r'. simpl. congruence.
      * intros Hr. rewrite (Hok Hr). reflexivity.
Qed.

(** ** Coroutines that never call the speed monitor *)

Lemma monitor_free_ret {A : Type} (a : A) : monitor_free (ret a).
Proof.
  intros w. exists []. split; [simpl; symmetry; apply app_nil_r|reflexivity].
Qed.

Lemma monitor_free_bind {A B : Type} (m : M A) (k : A -> M B) :
  monitor_free m -> (forall a, monitor_free (k a)) -> monitor_free (bind m k).
Proof.
  intros Hm Hk w. unfold bind. destruct (Hm w) as (evs & Hevs & Hn).
  destruct (m w) as [[a| |] w1]; simpl in Hevs.
  - destruct (Hk a w1) as (evs' & Hevs' & Hn'). exists (evs ++ evs'). split.
    + rewrite Hevs', Hevs. symmetry. apply app_assoc.
    + rewrite count_app, Hn, Hn'. reflexivity.
  - exists evs. split; assumption.
  - exists evs. split; assumption.
Qed.

Ltac monitor_free_prim :=
  intros w; cbv beta zeta delta [is_set logger_info queue_put consumer_commit
                                  consumer_getmany time_time asyncio_sleep];
  repeat match goal with
         | |- context [if ?b then _ else _] => destruct b
         | |- context [match ?x with PollOffer _ => _ | PollError => _ end] =>
             destruct x
         end;
  simpl;
  first [ eexists; split; [reflexivity|reflexivity]
        | exists []; split; [symmetry; apply app_nil_r|reflexivity] ].

Lemma monitor_free_logger_info (r : LogRecord) : monitor_free (logger_info r).
Proof. monitor_free_prim. Qed.

Lemma monitor_free_is_set (ev : EventId) : monitor_free (is_set ev).
Proof. monitor_free_prim. Qed.

Lemma monitor_free_queue_put (q : QueueId) (v : Value) :
  monitor_free (queue_put q v).
Proof. monitor_free_prim. Qed.

Lemma monitor_free_consumer_commit (c : ConsumerId) :
  monitor_free (consumer_commit c).
Proof. monitor_free_prim. Qed.

Lemma monitor_free_consumer_getmany (c : ConsumerId) (t n : Z) :
  monitor_free (consumer_getmany c t n).
Proof. monitor_free_prim. Qed.

Lemma monitor_free_gather_puts (q : QueueId) (vs : list Value) :
  monitor_free (gather_puts q vs).
Proof.
  induction vs as [|v vs IH]; simpl; [apply monitor_free_ret|].
  apply monitor_free_bind; [apply monitor_free_queue_put|intros _; exact IH].
Qed.

Lemma monitor_free_receive_batch (c : ConsumerId) (q : QueueId) (b : Batch) :
  monitor_free (receive_batch c q b).
Proof.
  induction b as [|[tp messages] rest IH]; simpl; [apply monitor_free_ret|].
  apply monitor_free_bind; [apply monitor_free_logger_info|intros _].
  apply monitor_free_bind; [apply monitor_free_gather_puts|intros _].
  apply monitor_free_bind; [apply monitor_free_logger_info|intros _].
  apply monitor_free_bind; [apply monitor_free_consumer_commit|intros _; exact IH].
Qed.

Lemma monitor_free_consume_batch (self : AioKafkaEngine.t) (b : Batch) :
  monitor_free (AioKafkaEngine.consume_batch self b).
Proof.
  induction b as [|[tp messages] rest IH]; simpl; [apply monitor_free_ret|].
  apply monitor_free_bind; [apply monitor_free_gather_puts|intros _].
  apply monitor_free_bind; [apply monitor_free_consumer_commit|intros _].
  apply monitor_free_bind; [apply monitor_free_logger_info|intros _; exact IH].
Qed.

Lemma monitor_free_receive_messages (fuel : nat) (c : ConsumerId) (q : QueueId)
    (ev : EventId) (batch_size : Z) :
  monitor_free (receive_messages fuel c q ev batch_size).
Proof.
  induction fuel as [|fuel IH]; simpl; [apply monitor_free_ret|].
  apply monitor_free_bind; [apply monitor_free_is_set|intros stop].
  destruct stop.
  - apply monitor_free_bind; [apply monitor_free_logger_info|intros _].
    apply monitor_free_ret.
  - apply monitor_free_bind; [|intros _; exact IH].
    apply monitor_free_bind; [apply monitor_free_consumer_getmany|intros b].
    apply monitor_free_receive_batch.
Qed.

Lemma monitor_free_consume_messages (fuel : nat) (self : AioKafkaEngine.t)
    (ev : EventId) (batch_size : Z) :
  monitor_free (AioKafkaEngine.consume_messages fuel self ev batch_size).
Proof.
  induction fuel as [|fuel IH]; simpl; [apply monitor_free_ret|].
  apply monitor_free_bind; [apply monitor_free_is_set|intros stop].
  destruct stop.
  - apply monitor_free_bind; [apply monitor_free_logger_info|intros _].
    apply monitor_free_ret.
  - apply monitor_free_bind; [|intros _; exact IH].
    apply monitor_free_bind; [apply monitor_free_consumer_getmany|intros b].
    apply monitor_free_consume_batch.
Qed.

Lemma consume_batch_ops (self : AioKafkaEngine.t) (b : Batch)
    (w w' : World) (r : Result unit) :
  AioKafkaEngine.consume_batch self b w = (r, w') ->
  exists evs,
    trace w' = trace w ++ evs /\
    prefix (ops evs)
           (relay_ops (AioKafkaEngine.receive_queue self)
                      (AioKafkaEngine.consumer self)
                      (position (consumers w (AioKafkaEngine.consumer self))) b) /\
    (r = Ok tt ->
     ops evs = relay_ops (AioKafkaEngine.receive_queue self)
                         (AioKafkaEngine.consumer self)
                         (position (consumers w (AioKafkaEngine.consumer self))) b).
Proof.
  intros H.
  destruct (receive_batch (AioKafkaEngine.consumer self)
                          (AioKafkaEngine.receive_queue self) b w)
    as [r1 w1] eqn:E1.
  destruct (receive_batch_ops _ _ _ _ _ _ E1) as (evs1 & Ht1 & Hp1 & Hok1).
  destruct (sim_batch self b w w (same_but_log_refl w)) as [Hr Hs].
  rewrite E1, H in Hr, Hs. simpl in Hr, Hs. subst r1.
  destruct Hs as (_ & _ & _ & _ & _ & _ & Hops).
  destruct (monitor_free_consume_batch self b w) as (evs & Ht & _).
  rewrite H in Ht.
  simpl in Ht. exists evs. split; [exact Ht|].
  rewrite Ht1, Ht, !ops_app in Hops. apply app_inv_head in Hops.
  rewrite <- Hops. split; assumption.
Qed.

(** ** Order of puts and commits *)

Lemma puts_of_ops (l : list Event) : puts_of (ops l) = puts_of l.
Proof.
  induction l as [|e l IH]; [reflexivity|].
  destruct e; simpl; rewrite ?IH; try reflexivity.
Qed.

Lemma count_commit_ops (l : list Event) :
  count is_commit (ops l) = count is_commit l.
Proof.
  unfold count. induction l as [|e l IH]; [reflexivity|].
  destruct e; simpl; rewrite ?IH; reflexivity.
Qed.

Lemma puts_of_puts (q : QueueId) (vs : list Value) :
  puts_of (map (EvPut q) vs) = vs.
Proof. induction vs as [|v vs IH]; simpl; [reflexivity|]. f_equal. exact IH. Qed.

Lemma count_commit_puts (q : QueueId) (vs : list Value) :
  count is_commit (map (EvPut q) vs) = 0%nat.
Proof. unfold count. induction vs as [|v vs IH]; simpl; [reflexivity|exact IH]. Qed.

(** A commit found in "puts, commit, remainder" is that commit or lies in the
    remainder. *)
Lemma puts_commit_split (q : QueueId) (vs : list Value) (c c' : ConsumerId)
    (pos offs : Offsets) (tail pre post : list Event) :
  map (EvPut q) vs ++ EvCommit c pos :: tail = pre ++ EvCommit c' offs :: post ->
  pre = map (EvPut q) vs \/
  exists pre', pre = map (EvPut q) vs ++ EvCommit c pos :: pre' /\
               tail = pre' ++ EvCommit c' offs :: post.
Proof.
  revert pre. induction vs as [|v vs IH]; intros pre H; simpl in *.
  - destruct pre as [|e pre]; simpl in H.
    + left. reflexivity.
    + right. injection H as <- H. exists pre. split; [reflexivity|exact H].
  - destruct pre as [|e pre]; simpl in H; [discriminate H|].
    injection H as <- H. destruct (IH pre H) as [->|(pre' & -> & Ht)].
    + left. reflexivity.
    + right. exists pre'. split; [reflexivity|exact Ht].
Qed.

Lemma batch_values_cons (tp : TopicPartition) (messages : list ConsumerRecord)
    (rest : Batch) :
  batch_values ((tp, messages) :: rest) = map rec_value messages ++ batch_values rest.
Proof. unfold batch_values. simpl. apply map_app. Qed.

Lemma relay_ops_order (q : QueueId) (c : ConsumerId) (pos : Offsets) (b : Batch) :
  commit_after_partitions b (relay_ops q c pos b).
Proof.
  induction b as [|[tp messages] rest IH]; intros pre c' offs post H.
  - destruct pre; discriminate H.
  - cbn [relay_ops] in H.
    assert (Hputs : map (fun m => EvPut q (rec_value m)) messages
                    = map (EvPut q) (map rec_value messages))
      by (rewrite map_map; reflexivity).
    rewrite Hputs in H.
    destruct (puts_commit_split _ _ _ _ _ _ _ _ _ H) as [->|(pre' & -> & Ht)].
    + rewrite puts_of_puts, count_commit_puts. cbn [firstn].
      rewrite batch_values_cons. unfold batch_values at 1. simpl.
      symmetry. apply app_nil_r.
    + rewrite puts_of_app, count_app, puts_of_puts, count_commit_puts.
      cbn [puts_of]. change (count is_commit (EvCommit c pos :: pre'))
        with (S (count is_commit pre')).
      cbn [Nat.add firstn]. rewrite batch_values_cons. f_equal.
      exact (IH _ _ _ _ Ht).
Qed.

Lemma commit_after_partitions_prefix (b : Batch) (evs full_ops : list Event) :
  commit_after_partitions b full_ops ->
  prefix (ops evs) full_ops ->
  commit_after_partitions b evs.
Proof.
  intros Hfull [rest Hrest] pre c offs post ->.
  rewrite ops_app in Hrest. simpl in Hrest.
  rewrite <- app_assoc in Hrest. simpl in Hrest.
  rewrite <- (puts_of_ops pre), <- (count_commit_ops pre).
  exact (Hfull _ _ _ _ Hrest).
Qed.

Lemma relay_ops_totals (q : QueueId) (c : ConsumerId) (pos : Offsets) (b : Batch) :
  count is_commit (relay_ops q c pos b) = List.length b /\
  puts_of (relay_ops q c pos b) = batch_values b.
Proof.
  induction b as [|[tp messages] rest [IHc IHp]]; [split; reflexivity|].
  cbn [relay_ops]. rewrite <- (map_map rec_value (EvPut q)).
  rewrite count_app, puts_of_app, count_commit_puts, puts_of_puts.
  rewrite batch_values_cons. cbn [puts_of List.length Nat.add].
  change (count is_commit (EvCommit c pos :: relay_ops q c pos rest))
    with (S (count is_commit (relay_ops q c pos rest))).
  rewrite IHc, IHp. split; reflexivity.
Qed.

(** ** Inbound relay: claims C1, C4, C6 *)

Lemma cycle_commits_per_partition (c : ConsumerId) (q : QueueId) (batch_size : Z)
    (loop_body : Batch -> M unit) (w : World) :
  (forall b w0 w' r, loop_body b w0 = (r, w') ->
     exists evs,
       trace w' = trace w0 ++ evs /\
       prefix (ops evs) (relay_ops q c (position (consumers w0 c)) b) /\
       (r = Ok tt -> ops evs = relay_ops q c (position (consumers w0 c)) b)) ->
  commits_per_partition c batch_size
    (batch <- consumer_getmany c 1000 batch_size ;; loop_body batch) w.
Proof.
  intros Hbody. unfold commits_per_partition, bind, consumer_getmany.
  destruct (poll_script (consumers w c) (polls (consumers w c))) as [offer|].
  - cbn [fst snd].
    set (batch := limit_records (Z.to_nat batch_size) offer).
    match goal with
    | |- context [loop_body batch ?w1] =>
        destruct (loop_body batch w1) as [r w'] eqn:E;
        destruct (Hbody _ _ _ _ E) as (evs & Ht & Hp & Hok)
    end.
    exists evs. cbn [fst snd]. split; [|split].
    + apply new_events_app. rewrite Ht. simpl. rewrite <- app_assoc. reflexivity.
    + eapply commit_after_partitions_prefix; [apply relay_ops_order|exact Hp].
    + intros Hr. specialize (Hok Hr).
      rewrite <- (count_commit_ops evs), <- (puts_of_ops evs), Hok.
      apply relay_ops_totals.
  - cbn [fst snd]. split; [reflexivity|].
    apply new_events_app. simpl. symmetry. apply app_nil_r.
Qed.

(** C1, as the code has it.  In every inbound cycle, of [receive_messages]
    and of [consume_messages] alike, a commit is issued once per partition of
    the batch: every commit comes after the puts of all records of its own
    partition and of the partitions walked before it, and when the cycle
    completes there were as many commits as partitions and every record of
    the batch was put. *)
Theorem commit_follows_puts_of_walked_partitions :
  forall (self : AioKafkaEngine.t) (batch_size : Z) (w : World),
    commits_per_partition (AioKafkaEngine.consumer self) batch_size
      (receive_cycle (AioKafkaEngine.consumer self)
                     (AioKafkaEngine.receive_queue self) batch_size) w /\
    commits_per_partition (AioKafkaEngine.consumer self) batch_size
      (AioKafkaEngine.consume_cycle self batch_size) w.
Proof.
  intros self batch_size w. split.
  - apply (cycle_commits_per_partition _ (AioKafkaEngine.receive_queue self)).
    intros b w0 w' r. apply receive_batch_ops.
  - apply (cycle_commits_per_partition _ (AioKafkaEngine.receive_queue self)).
    intros b w0 w' r. apply consume_batch_ops.
Qed.

(** C1, as the claim has it, fails on a batch of two partitions: the commit
    issued after the first partition comes before the put of the second
    partition's record, and the offsets it commits already lie beyond that
    record. *)
Lemma commit_before_put_of_next_partition :
  exists evs,
    new_events (Sample.world Sample.batch2p [])
               (snd (receive_cycle 0 0 200 (Sample.world Sample.batch2p [])))
    = EvGetMany 0 1000 200 Sample.batch2p :: evs /\
    ~ commit_after_all_enqueues Sample.batch2p evs /\
    ~ enqueued_before_covering_commit Sample.batch2p evs.
Proof.
  eexists. split; [vm_compute; reflexivity|]. split.
  - intros H.
    specialize (H [EvLog (LogPartition Sample.tp0 1); EvPut 0 "a"; EvLog LogDone]
                  0%nat [(Sample.tp0, 5); (Sample.tp1, 8)]
                  [EvLog (LogPartition Sample.tp1 1); EvPut 0 "b"; EvLog LogDone;
                   EvCommit 0 [(Sample.tp0, 5); (Sample.tp1, 8)]]
                  eq_refl).
    discriminate H.
  - intros H.
    specialize (H [EvLog (LogPartition Sample.tp0 1); EvPut 0 "a"; EvLog LogDone]
                  0%nat [(Sample.tp0, 5); (Sample.tp1, 8)]
                  [EvLog (LogPartition Sample.tp1 1); EvPut 0 "b"; EvLog LogDone;
                   EvCommit 0 [(Sample.tp0, 5); (Sample.tp1, 8)]]
                  Sample.tp1 [mkRec 7 "b"] (mkRec 7 "b") 8
                  eq_refl).
    simpl in H.
    destruct H as [H|[]]; [right; left; reflexivity|left; reflexivity|
                            reflexivity|lia|discriminate H].
Qed.

(** C6.  When the shutdown flag is not set and the poll then returns the empty
    result, the cycle of either inbound relay returns normally, its only
    event is the poll itself (no put, no commit), queues and committed
    offsets are as before, and the loop goes on to its next turn. *)
Theorem empty_poll_commits_nothing :
  forall (self : AioKafkaEngine.t) (ev : EventId) (batch_size : Z)
         (fuel : nat) (w0 : World),
    let c := AioKafkaEngine.consumer self in
    let q := AioKafkaEngine.receive_queue self in
    fst (is_set ev w0) = Ok false ->
    let w := snd (is_set ev w0) in
    fst (consumer_getmany c 1000 batch_size w) = Ok [] ->
    let w' := snd (consumer_getmany c 1000 batch_size w) in
    receive_cycle c q batch_size w = (Ok tt, w') /\
    AioKafkaEngine.consume_cycle self batch_size w = (Ok tt, w') /\
    new_events w w' = [EvGetMany c 1000 batch_size []] /\
    queues w' = queues w /\
    committed (consumers w' c) = committed (consumers w c) /\
    commit_calls (consumers w' c) = commit_calls (consumers w c) /\
    receive_messages (S fuel) c q ev batch_size w0
      = receive_messages fuel c q ev batch_size w' /\
    AioKafkaEngine.consume_messages (S fuel) self ev batch_size w0
      = AioKafkaEngine.consume_messages fuel self ev batch_size w'.
Proof.
  intros self ev batch_size fuel w0 c q Hset w Hpoll w'.
  assert (Hrc : receive_cycle c q batch_size w = (Ok tt, w')).
  { unfold receive_cycle, bind. subst w'.
    destruct (consumer_getmany c 1000 batch_size w) as [r w1].
    simpl in Hpoll. subst r. reflexivity. }
  assert (Hcc : AioKafkaEngine.consume_cycle self batch_size w = (Ok tt, w')).
  { unfold AioKafkaEngine.consume_cycle, bind. subst w'. fold c.
    destruct (consumer_getmany c 1000 batch_size w) as [r w1].
    simpl in Hpoll. subst r. reflexivity. }
  assert (Hstep : is_set ev w0 = (Ok false, w)).
  { subst w. destruct (is_set ev w0) as [r w1]. simpl in Hset. subst r.
    reflexivity. }
  split; [exact Hrc|]. split; [exact Hcc|].
  assert (Hshape : trace w' = trace w ++ [EvGetMany c 1000 batch_size []] /\
                   queues w' = queues w /\
                   committed (consumers w' c) = committed (consumers w c) /\
                   commit_calls (consumers w' c) = commit_calls (consumers w c)).
  { subst w'. revert Hpoll. unfold consumer_getmany.
    destruct (poll_script (consumers w c) (polls (consumers w c))) as [offer|];
      cbn [fst snd]; [|discriminate].
    intros Hb. injection Hb as Hb. rewrite Hb.
    cbn [trace queues consumers emit set_consumer]. rewrite upd_same.
    repeat split. }
  destruct Hshape as (Ht & Hq & Hc & Hn).
  split; [apply new_events_app; exact Ht|].
  split; [exact Hq|]. split; [exact Hc|]. split; [exact Hn|].
  split.
  - cbn [receive_messages]. unfold bind at 1. rewrite Hstep.
    unfold bind at 1. fold c q. rewrite Hrc. reflexivity.
  - cbn [AioKafkaEngine.consume_messages]. unfold bind at 1. rewrite Hstep.
    unfold bind at 1. rewrite Hcc. reflexivity.
Qed.

(** ** Running a successful inbound cycle *)

Lemma bind_ok {A B : Type} (m : M A) (k : A -> M B) (w w' : World) (a : A) :
  m w = (Ok a, w') -> bind m k w = k a w'.
Proof. intros H. unfold bind. rewrite H. reflexivity. Qed.

Lemma bind_raised {A B : Type} (m : M A) (k : A -> M B) (w w' : World) (e : Exn) :
  m w = (Raised e, w') -> bind m k w = (Raised e, w').
Proof. intros H. unfold bind. rewrite H. reflexivity. Qed.

Lemma bind_suspended {A B : Type} (m : M A) (k : A -> M B) (w w' : World) :
  m w = (Suspended, w') -> bind m k w = (Suspended, w').
Proof. intros H. unfold bind. rewrite H. reflexivity. Qed.

Lemma upd_other {A : Type} (f : nat -> A) (k k' : nat) (v : A) :
  k' <> k -> upd f k v k' = f k'.
Proof.
  intros Hne. unfold upd. destruct (Nat.eqb k' k) eqn:E; [|reflexivity].
  apply Nat.eqb_eq in E. contradiction.
Qed.

(** An accepted commit: the committed offsets become the fetch positions and
    nothing else moves. *)
Lemma consumer_commit_accepted (c : ConsumerId) (w : World) :
  commit_script (consumers w c) (commit_calls (consumers w c)) = true ->
  exists w',
    consumer_commit c w = (Ok tt, w') /\
    trace w' = trace w ++ [EvCommit c (position (consumers w c))] /\
    queues w' = queues w /\
    position (consumers w' c) = position (consumers w c) /\
    committed (consumers w' c) = position (consumers w c) /\
    commit_script (consumers w' c) = commit_script (consumers w c) /\
    commit_calls (consumers w' c) = S (commit_calls (consumers w c)).
Proof.
  intros H. unfold consumer_commit. rewrite H. eexists.
  split; [reflexivity|]. cbn [trace queues consumers emit set_consumer].
  rewrite upd_same. repeat split.
Qed.

(** A rejected commit: the call is counted and nothing else moves. *)
Lemma consumer_commit_rejected (c : ConsumerId) (w : World) :
  commit_script (consumers w c) (commit_calls (consumers w c)) = false ->
  exists w',
    consumer_commit c w = (Raised KafkaError, w') /\
    trace w' = trace w /\
    queues w' = queues w /\
    position (consumers w' c) = position (consumers w c) /\
    committed (consumers w' c) = committed (consumers w c).
Proof.
  intros H. unfold consumer_commit. rewrite H. eexists.
  split; [reflexivity|]. cbn [trace queues consumers set_consumer].
  rewrite upd_same. repeat split.
Qed.

(** The world after the puts of one partition and the "done" line. *)
Lemma partition_enqueued (q : QueueId) (c : ConsumerId) (line : LogRecord)
    (vs : list Value) (w : World) :
  has_room (queues w q) (List.length vs) ->
  exists w',
    (logger_info line ;; gather_puts q vs ;; logger_info LogDone) w = (Ok tt, w') /\
    trace w' = trace w ++ EvLog line :: map (EvPut q) vs ++ [EvLog LogDone] /\
    queues w' q = mkQueue (maxsize (queues w q)) (items (queues w q) ++ vs)
                    (unfinished_tasks (queues w q) + Z.of_nat (List.length vs)) /\
    consumers w' = consumers w.
Proof.
  intros Hroom.
  exists (emit (EvLog LogDone) (put_all q vs (emit (EvLog line) w))).
  split.
  - rewrite (bind_ok _ _ w (emit (EvLog line) w) tt) by reflexivity.
    rewrite (bind_ok _ _ _ (put_all q vs (emit (EvLog line) w)) tt)
      by (apply gather_puts_room; exact Hroom).
    reflexivity.
  - destruct (put_all_frame q vs (emit (EvLog line) w)) as (_ & _ & _ & Hc & _).
    split; [|split].
    + change (trace (emit (EvLog LogDone) (put_all q vs (emit (EvLog line) w))))
        with (trace (put_all q vs (emit (EvLog line) w)) ++ [EvLog LogDone]).
      rewrite put_all_trace.
      change (trace (emit (EvLog line) w)) with (trace w ++ [EvLog line]).
      repeat rewrite <- app_assoc. reflexivity.
    + change (queues (emit (EvLog LogDone) (put_all q vs (emit (EvLog line) w))) q)
        with (queues (put_all q vs (emit (EvLog line) w)) q).
      rewrite put_all_queue. reflexivity.
    + change (consumers (emit (EvLog LogDone) (put_all q vs (emit (EvLog line) w))))
        with (consumers (put_all q vs (emit (EvLog line) w))).
      rewrite Hc. reflexivity.
Qed.

Lemma receive_batch_cons (c : ConsumerId) (q : QueueId) (tp : TopicPartition)
    (messages : list ConsumerRecord) (rest : Batch) (w : World) :
  receive_batch c q ((tp, messages) :: rest) w =
  ((logger_info (LogPartition tp (Z.of_nat (List.length messages))) ;;
    gather_puts q (map rec_value messages) ;;
    logger_info LogDone) ;;
   consumer_commit c ;;
   receive_batch c q rest) w.
Proof.
  cbn [receive_batch]. unfold bind, logger_info.
  destruct (gather_puts q (map rec_value messages) _) as [[[]| |] w1];
    reflexivity.
Qed.

(** With room for every record and every commit accepted, the batch loop of
    [receive_messages] completes: all records are in the queue, in order,
    and the fetch positions are committed. *)
Lemma receive_batch_succeeds (c : ConsumerId) (q : QueueId) (b : Batch) (w : World) :
  has_room (queues w q) (List.length (batch_values b)) ->
  (forall i, (i < List.length b)%nat ->
     commit_script (consumers w c) (commit_calls (consumers w c) + i) = true) ->
  exists w',
    receive_batch c q b w = (Ok tt, w') /\
    queues w' q = mkQueue (maxsize (queues w q))
                    (items (queues w q) ++ batch_values b)
                    (unfinished_tasks (queues w q)
                     + Z.of_nat (List.length (batch_values b))) /\
    position (consumers w' c) = position (consumers w c) /\
    (b <> [] -> committed (consumers w' c) = position (consumers w c)) /\
    (b = [] -> committed (consumers w' c) = committed (consumers w c)).
Proof.
  revert w. induction b as [|[tp messages] rest IH]; intros w Hroom Hscript.
  - exists w. split; [reflexivity|]. split.
    + unfold batch_values. simpl. rewrite app_nil_r, Z.add_0_r.
      destruct (queues w q); reflexivity.
    + split; [reflexivity|]. split; [intros H; contradiction|reflexivity].
  - rewrite batch_values_cons, length_app in Hroom.
    destruct (partition_enqueued q c
                (LogPartition tp (Z.of_nat (List.length messages)))
                (map rec_value messages) w)
      as (w1 & Hrun1 & _ & Hq1 & Hc1).
    { unfold has_room in *. lia. }
    destruct (consumer_commit_accepted c w1)
      as (w2 & Hrun2 & _ & Hq2 & Hpos2 & Hcom2 & Hscr2 & Hcalls2).
    { rewrite Hc1. rewrite <- (Nat.add_0_r (commit_calls (consumers w c))).
      apply Hscript. simpl. lia. }
    destruct (IH w2) as (w3 & Hrun3 & Hq3 & Hpos3 & Hcom3 & Hcom3').
    { rewrite Hq2, Hq1. unfold has_room, qlen in *.
      cbn [maxsize items]. rewrite length_app. lia. }
    { intros i Hi. rewrite Hscr2, Hcalls2, Hc1.
      replace (S (commit_calls (consumers w c)) + i)%nat
        with (commit_calls (consumers w c) + S i)%nat by lia.
      apply Hscript. simpl. lia. }
    exists w3. split.
    + rewrite receive_batch_cons.
      rewrite (bind_ok _ _ w w1 tt Hrun1).
      rewrite (bind_ok _ _ w1 w2 tt Hrun2). exact Hrun3.
    + rewrite Hq3, Hq2, Hq1, Hpos3, Hpos2, Hc1.
      cbn [maxsize items unfinished_tasks].
      rewrite batch_values_cons, length_app, <- app_assoc.
      split; [f_equal; lia|]. split; [reflexivity|].
      split; [|intros H; discriminate H].
      intros _. destruct rest as [|x rest'].
      * rewrite (Hcom3' eq_refl), Hcom2, Hc1. reflexivity.
      * rewrite Hcom3 by discriminate. rewrite Hpos2, Hc1. reflexivity.
Qed.

(** A poll that is answered: the batch is what the cap lets through of the
    offer, the fetch positions move past it and nothing else moves. *)
Lemma consumer_getmany_answered (c : ConsumerId) (timeout_ms max_records : Z)
    (offer : Batch) (w : World) :
  poll_script (consumers w c) (polls (consumers w c)) = PollOffer offer ->
  exists w',
    consumer_getmany c timeout_ms max_records w
      = (Ok (limit_records (Z.to_nat max_records) offer), w') /\
    trace w' = trace w ++ [EvGetMany c timeout_ms max_records
                             (limit_records (Z.to_nat max_records) offer)] /\
    queues w' = queues w /\
    position (consumers w' c)
      = advance (limit_records (Z.to_nat max_records) offer)
                (position (consumers w c)) /\
    committed (consumers w' c) = committed (consumers w c) /\
    commit_script (consumers w' c) = commit_script (consumers w c) /\
    commit_calls (consumers w' c) = commit_calls (consumers w c).
Proof.
  intros H. unfold consumer_getmany. rewrite H. eexists.
  split; [reflexivity|]. cbn [trace queues consumers emit set_consumer].
  rewrite upd_same. repeat split.
Qed.

Lemma tp_eqb_refl (tp : TopicPartition) : tp_eqb tp tp = true.
Proof. unfold tp_eqb. rewrite String.eqb_refl, Z.eqb_refl. reflexivity. Qed.

Lemma get_set_offset (tp : TopicPartition) (off : Z) (o : Offsets) :
  get_offset tp (set_offset tp off o) = Some off.
Proof.
  induction o as [|[tp' off'] o IH]; simpl.
  - rewrite tp_eqb_refl. reflexivity.
  - destruct (tp_eqb tp' tp) eqn:E; simpl; rewrite E; [reflexivity|exact IH].
Qed.

(** C4.  The broker offers three records of one partition at offsets 10, 11
    and 12, the batch size is at least 3, the inbound queue has room for
    three items and the broker accepts the commit.  Then the cycle of
    [receive_messages] returns normally; apart from log lines its events are
    the poll of exactly these records, the puts of the three values in offset
    order and one commit, which commits offset 13 for the partition; and the
    three values are at the end of the inbound queue in that order. *)
Theorem three_records_one_commit_at_13 :
  forall (consumer : ConsumerId) (receive_queue : QueueId) (batch_size : Z)
         (tp : TopicPartition) (v10 v11 v12 : Value) (w : World),
    let batch := [(tp, [mkRec 10 v10; mkRec 11 v11; mkRec 12 v12])] in
    poll_script (consumers w consumer) (polls (consumers w consumer))
      = PollOffer batch ->
    3 <= batch_size ->
    has_room (queues w receive_queue) 3 ->
    commit_script (consumers w consumer) (commit_calls (consumers w consumer))
      = true ->
    let r := receive_cycle consumer receive_queue batch_size w in
    exists offsets,
      fst r = Ok tt /\
      ops (new_events w (snd r))
        = [EvGetMany consumer 1000 batch_size batch;
           EvPut receive_queue v10; EvPut receive_queue v11;
           EvPut receive_queue v12; EvCommit consumer offsets] /\
      get_offset tp offsets = Some 13 /\
      committed (consumers (snd r) consumer) = offsets /\
      count is_commit (new_events w (snd r)) = 1%nat /\
      items (queues (snd r) receive_queue)
        = items (queues w receive_queue) ++ [v10; v11; v12].
Proof.
  intros consumer receive_queue batch_size tp v10 v11 v12 w batch
         Hoffer Hsize Hroom Hcommit r.
  assert (Hn : exists k, Z.to_nat batch_size = S (S (S k))).
  { exists (Z.to_nat batch_size - 3)%nat. lia. }
  destruct Hn as [k Hk].
  assert (Hlim : limit_records (Z.to_nat batch_size) batch = batch).
  { rewrite Hk. unfold batch. simpl. rewrite firstn_nil. reflexivity. }
  destruct (consumer_getmany_answered consumer 1000 batch_size batch w Hoffer)
    as (w1 & Hrun1 & Ht1 & Hq1 & Hpos1 & Hcom1 & Hscr1 & Hcalls1).
  rewrite Hlim in Hrun1, Ht1, Hpos1.
  assert (Hadv : advance batch (position (consumers w consumer))
                 = set_offset tp 13 (position (consumers w consumer)))
    by reflexivity.
  rewrite Hadv in Hpos1.
  destruct (receive_batch_succeeds consumer receive_queue batch w1)
    as (w2 & Hrun2 & Hq2 & Hpos2 & Hcom2 & _).
  { rewrite Hq1. exact Hroom. }
  { intros i Hi. rewrite Hscr1, Hcalls1.
    assert (i = 0%nat) as -> by (simpl in Hi; lia).
    rewrite Nat.add_0_r. exact Hcommit. }
  destruct (receive_batch_ops _ _ _ _ _ _ Hrun2) as (evs & Ht2 & _ & Hops).
  specialize (Hops eq_refl). rewrite Hpos1 in Hops.
  assert (Hcycle : r = (Ok tt, w2)).
  { subst r. unfold receive_cycle. rewrite (bind_ok _ _ w w1 batch Hrun1).
    exact Hrun2. }
  rewrite Hcycle. cbn [fst snd].
  exists (set_offset tp 13 (position (consumers w consumer))).
  assert (Hnew : new_events w w2
                 = EvGetMany consumer 1000 batch_size batch :: evs).
  { apply new_events_app. rewrite Ht2, Ht1, <- app_assoc. reflexivity. }
  rewrite Hnew.
  split; [reflexivity|].
  split.
  { change (ops (EvGetMany consumer 1000 batch_size batch :: evs))
      with (EvGetMany consumer 1000 batch_size batch :: ops evs).
    rewrite Hops. reflexivity. }
  split; [apply get_set_offset|].
  split.
  { rewrite Hcom2 by discriminate. exact Hpos1. }
  split.
  { change (count is_commit (EvGetMany consumer 1000 batch_size batch :: evs))
      with (count is_commit evs).
    rewrite <- count_commit_ops, Hops. reflexivity. }
  rewrite Hq2, Hq1. reflexivity.
Qed.

(** ** Outbound relay: claims C2, C7 *)

Lemma default_interval_pos : 0 < default_interval.
Proof. reflexivity. Qed.

(** As the relays call it, with the default interval, the speed monitor always
    returns, touches neither queues nor clients, and adds to the trace its
    call marker followed by clock readings and at most a log line. *)
Lemma log_speed_default (counter : Z) (start_time : Q) (q : QueueId)
    (topic : string) (w : World) :
  exists s1 c1 w1 mon,
    log_speed counter start_time q topic default_interval w = (Ok (s1, c1), w1) /\
    trace w1 = trace w ++
               EvCallLogSpeed counter start_time q topic default_interval :: mon /\
    forallb monitor_only mon = true /\
    queues w1 = queues w /\ producers w1 = producers w /\
    events w1 = events w /\ consumers w1 = consumers w.
Proof.
  rewrite (log_speed_positive _ _ _ _ _ _ default_interval_pos). cbv zeta.
  destruct (Qltb _ _).
  - do 4 eexists. split; [reflexivity|].
    unfold after_reading. simpl. rewrite <- app_assoc.
    split; [reflexivity|]. repeat split.
  - do 4 eexists. split; [reflexivity|].
    unfold after_logging, after_reading. simpl. repeat rewrite <- app_assoc.
    split; [reflexivity|]. repeat split.
Qed.

Lemma monitor_only_count (p : Event -> bool) (mon : list Event) :
  (forall e, monitor_only e = true -> p e = false) ->
  forallb monitor_only mon = true -> count p mon = 0%nat.
Proof.
  intros Hp. unfold count. induction mon as [|e mon IH]; simpl; [reflexivity|].
  intros H. apply andb_true_iff in H. destruct H as [He Hm].
  rewrite (Hp e He). exact (IH Hm).
Qed.

Ltac monitor_count :=
  apply monitor_only_count; [intros [] He; (reflexivity || discriminate He)|assumption].

Lemma monitor_only_not_in (e : Event) (mon : list Event) :
  monitor_only e = false -> forallb monitor_only mon = true -> ~ In e mon.
Proof.
  intros He Hm Hin. rewrite forallb_forall in Hm. rewrite (Hm e Hin) in He.
  discriminate He.
Qed.

(** C7.  When the shutdown flag is not set and the outbound queue is empty,
    the turn of either outbound loop consists of the speed monitor's call and
    exactly one sleep, of one second: nothing is taken from the queue,
    nothing is published, and the loop starts its next turn with the pair the
    speed monitor returned. *)
Theorem empty_outbound_queue_sleeps_once :
  forall (self : AioKafkaEngine.t) (ev : EventId) (topic : string)
         (start_time : Q) (messages_sent : Z) (fuel : nat) (w0 : World),
    let p := AioKafkaEngine.producer self in
    let q := AioKafkaEngine.send_queue self in
    fst (is_set ev w0) = Ok false ->
    let w := snd (is_set ev w0) in
    items (queues w q) = [] ->
    exists s1 c1 w',
      fst (log_speed messages_sent start_time q topic default_interval w)
        = Ok (s1, c1) /\
      send_cycle topic p q start_time messages_sent w = (Ok (s1, c1), w') /\
      AioKafkaEngine.produce_cycle self topic start_time messages_sent w
        = (Ok (s1, c1), w') /\
      count is_sleep (new_events w w') = 1%nat /\
      In (EvSleep 1) (new_events w w') /\
      count is_get (new_events w w') = 0%nat /\
      count is_send (new_events w w') = 0%nat /\
      queues w' = queues w /\ producers w' = producers w /\
      send_loop (S fuel) topic p q ev start_time messages_sent w0
        = send_loop fuel topic p q ev s1 c1 w' /\
      AioKafkaEngine.produce_loop (S fuel) self ev topic start_time messages_sent w0
        = AioKafkaEngine.produce_loop fuel self ev topic s1 c1 w'.
Proof.
  intros self ev topic start_time messages_sent fuel w0 p q Hset w Hempty.
  destruct (log_speed_default messages_sent start_time q topic w)
    as (s1 & c1 & w1 & mon & Hls & Htr & Hmon & Hq & Hp & _ & _).
  exists s1, c1, (emit (EvSleep 1) w1).
  assert (Hcycle : send_cycle topic p q start_time messages_sent w
                   = (Ok (s1, c1), emit (EvSleep 1) w1)).
  { unfold send_cycle, bind at 1. rewrite Hls.
    unfold bind at 1, queue_empty. rewrite Hq, Hempty. reflexivity. }
  assert (Hstep : is_set ev w0 = (Ok false, w)).
  { subst w. destruct (is_set ev w0) as [r wx]. simpl in Hset. subst r.
    reflexivity. }
  assert (Hev : new_events w (emit (EvSleep 1) w1)
                = EvCallLogSpeed messages_sent start_time q topic default_interval
                    :: mon ++ [EvSleep 1]).
  { apply new_events_app. simpl. rewrite Htr, <- app_assoc. reflexivity. }
  rewrite Hls, Hev.
  split; [reflexivity|]. split; [exact Hcycle|]. split; [exact Hcycle|].
  change (EvCallLogSpeed messages_sent start_time q topic default_interval
            :: mon ++ [EvSleep 1])
    with ([EvCallLogSpeed messages_sent start_time q topic default_interval]
            ++ mon ++ [EvSleep 1]).
  rewrite !count_app.
  split; [replace (count is_sleep mon) with 0%nat
            by (symmetry; monitor_count); reflexivity|].
  split; [apply in_or_app; right; apply in_or_app; right; left; reflexivity|].
  split; [replace (count is_get mon) with 0%nat
            by (symmetry; monitor_count); reflexivity|].
  split; [replace (count is_send mon) with 0%nat
            by (symmetry; monitor_count); reflexivity|].
  split; [exact Hq|]. split; [exact Hp|].
  split.
  - cbn [send_loop]. unfold bind at 1. rewrite Hstep.
    unfold bind at 1. rewrite Hcycle. reflexivity.
  - cbn [AioKafkaEngine.produce_loop]. unfold bind at 1. rewrite Hstep.
    unfold bind at 1.
    change (AioKafkaEngine.produce_cycle self topic start_time messages_sent w)
      with (send_cycle topic p q start_time messages_sent w).
    rewrite Hcycle. reflexivity.
Qed.

(** C2, what the code does.  In a turn of either outbound loop that finds an
    item [v] at the head of the outbound queue (a queue whose count of
    unfinished tasks is positive, as it is once [v] was put): after the speed
    monitor, the turn takes [v], awaits [producer.send] and, as soon as that
    call has returned, marks the item done and returns the counter the speed
    monitor gave plus one.  Between the return of [send] and [task_done] the
    turn awaits nothing: the record has then been delivered to the client,
    and the acknowledgement of the broker, whose future [send] returned, is
    not waited for.  When the [send] call itself raises, the error propagates
    and the item is not marked done. *)
Theorem task_done_follows_send_call :
  forall (self : AioKafkaEngine.t) (topic : string) (start_time : Q)
         (messages_sent : Z) (w : World) (v : Value) (rest : list Value),
    let p := AioKafkaEngine.producer self in
    let q := AioKafkaEngine.send_queue self in
    items (queues w q) = v :: rest ->
    0 < unfinished_tasks (queues w q) ->
    exists s1 c1 w1,
      log_speed messages_sent start_time q topic default_interval w
        = (Ok (s1, c1), w1) /\
      AioKafkaEngine.produce_cycle self topic start_time messages_sent w
        = send_cycle topic p q start_time messages_sent w /\
      (send_script (producers w p) (sends (producers w p)) = true ->
       exists w',
         send_cycle topic p q start_time messages_sent w = (Ok (s1, c1 + 1), w') /\
         trace w' = trace w1 ++ [EvGet q v; EvSend p topic v; EvTaskDone q] /\
         delivered (producers w' p) = delivered (producers w p) ++ [(topic, v)] /\
         items (queues w' q) = rest /\
         unfinished_tasks (queues w' q) = unfinished_tasks (queues w q) - 1) /\
      (send_script (producers w p) (sends (producers w p)) = false ->
       exists w',
         send_cycle topic p q start_time messages_sent w = (Raised KafkaError, w') /\
         trace w' = trace w1 ++ [EvGet q v] /\
         delivered (producers w' p) = delivered (producers w p) /\
         items (queues w' q) = rest /\
         unfinished_tasks (queues w' q) = unfinished_tasks (queues w q)).
Proof.
  intros self topic start_time messages_sent w v rest p q Hitems Hunf.
  destruct (log_speed_default messages_sent start_time q topic w)
    as (s1 & c1 & w1 & mon & Hls & Htr & Hmon & Hq & Hp & _ & _).
  exists s1, c1, w1. split; [exact Hls|]. split; [reflexivity|].
  assert (Hgt : (unfinished_tasks (queues w q) <=? 0) = false)
    by (apply Z.leb_gt; exact Hunf).
  split; intros Hsend.
  - eexists. split.
    + unfold send_cycle, bind at 1. rewrite Hls.
      unfold bind at 1, queue_empty. rewrite Hq, Hitems.
      unfold bind at 1, queue_get. rewrite Hq, Hitems.
      unfold bind at 1, producer_send. cbn [producers emit set_queue].
      rewrite Hp, Hsend.
      unfold bind at 1, queue_task_done.
      cbn [queues emit set_queue set_producer]. rewrite upd_same.
      cbn [unfinished_tasks]. rewrite Hgt. reflexivity.
    + cbn [trace producers queues emit set_queue set_producer].
      rewrite !upd_same. cbn [delivered items unfinished_tasks].
      repeat rewrite <- app_assoc. repeat split.
  - eexists. split.
    + unfold send_cycle, bind at 1. rewrite Hls.
      unfold bind at 1, queue_empty. rewrite Hq, Hitems.
      unfold bind at 1, queue_get. rewrite Hq, Hitems.
      unfold bind at 1, producer_send. cbn [producers emit set_queue].
      rewrite Hp, Hsend. reflexivity.
    + cbn [trace producers queues emit set_queue set_producer].
      rewrite !upd_same. cbn [delivered items unfinished_tasks].
      repeat split.
Qed.

(** ** The speed monitor in the loops: claim C8 *)

Lemma send_cycle_calls (topic : string) (p : ProducerId) (q : QueueId)
    (start_time : Q) (messages_sent : Z) (w w' : World) (r : Result (Q * Z)) :
  send_cycle topic p q start_time messages_sent w = (r, w') ->
  exists evs,
    trace w' = trace w ++
               EvCallLogSpeed messages_sent start_time q topic default_interval
                 :: evs /\
    count is_call_log_speed evs = 0%nat /\
    count is_turn evs = 0%nat /\
    (forall s' c', r = Ok (s', c') ->
       exists c1,
         fst (log_speed messages_sent start_time q topic default_interval w)
           = Ok (s', c1) /\
         (c' = c1 \/ c' = c1 + 1)).
Proof.
  intros H.
  destruct (log_speed_default messages_sent start_time q topic w)
    as (s1 & c1 & w1 & mon & Hls & Htr & Hmon & Hq & Hp & _ & _).
  assert (Hc : count is_call_log_speed mon = 0%nat) by monitor_count.
  assert (Ht : count is_turn mon = 0%nat) by monitor_count.
  unfold send_cycle, bind at 1 in H. rewrite Hls in H.
  unfold bind at 1, queue_empty in H. rewrite Hls.
  destruct (items (queues w1 q)) as [|v rest] eqn:Hitems.
  - unfold bind, asyncio_sleep, ret in H. injection H as <- <-.
    exists (mon ++ [EvSleep 1]). cbn [trace emit]. rewrite Htr, <- app_assoc.
    split; [reflexivity|]. rewrite !count_app, Hc, Ht.
    split; [reflexivity|]. split; [reflexivity|].
    intros s' c' E. injection E as <- <-. exists c1. split; [reflexivity|].
    left. reflexivity.
  - unfold bind at 1, queue_get in H. rewrite Hitems in H.
    unfold bind at 1, producer_send in H. cbn [producers emit set_queue] in H.
    destruct (send_script (producers w1 p) (sends (producers w1 p))).
    + unfold bind at 1, queue_task_done in H.
      cbn [queues emit set_queue set_producer] in H. rewrite upd_same in H.
      cbn [unfinished_tasks] in H.
      destruct (unfinished_tasks (queues w1 q) <=? 0).
      * injection H as <- <-.
        exists (mon ++ [EvGet q v; EvSend p topic v]).
        cbn [trace emit set_queue set_producer].
        rewrite Htr. repeat rewrite <- app_assoc.
        split; [reflexivity|]. rewrite !count_app, Hc, Ht.
        split; [reflexivity|]. split; [reflexivity|]. discriminate.
      * unfold ret in H. injection H as <- <-.
        exists (mon ++ [EvGet q v; EvSend p topic v; EvTaskDone q]).
        cbn [trace emit set_queue set_producer].
        rewrite Htr. repeat rewrite <- app_assoc.
        split; [reflexivity|]. rewrite !count_app, Hc, Ht.
        split; [reflexivity|]. split; [reflexivity|].
        intros s' c' E. injection E as <- <-. exists c1.
        split; [reflexivity|]. right. reflexivity.
    + injection H as <- <-.
      exists (mon ++ [EvGet q v]).
      cbn [trace emit set_queue set_producer].
      rewrite Htr. repeat rewrite <- app_assoc.
      split; [reflexivity|]. rewrite !count_app, Hc, Ht.
      split; [reflexivity|]. split; [reflexivity|]. discriminate.
Qed.

Lemma send_loop_once_per_turn (fuel : nat) (topic : string) (p : ProducerId)
    (q : QueueId) (ev : EventId) (start_time : Q) (messages_sent : Z) (w : World) :
  exists evs,
    trace (snd (send_loop fuel topic p q ev start_time messages_sent w))
      = trace w ++ evs /\
    once_per_turn evs.
Proof.
  revert start_time messages_sent w.
  induction fuel as [|fuel IH]; intros start_time messages_sent w.
  - exists []. split; [simpl; symmetry; apply app_nil_r|reflexivity].
  - cbn [send_loop]. unfold bind at 1, is_set.
    set (b := is_set_script (events w ev) (is_set_calls (events w ev))).
    set (w1 := emit (EvIsSet ev b) _).
    assert (Hw1 : trace w1 = trace w ++ [EvIsSet ev b]) by reflexivity.
    destruct b.
    + exists [EvIsSet ev true; EvLog LogShutdown].
      unfold bind, logger_info, ret. cbn [snd trace emit]. rewrite Hw1.
      rewrite <- app_assoc. split; reflexivity.
    + unfold bind at 1.
      destruct (send_cycle topic p q start_time messages_sent w1)
        as [r w2] eqn:E.
      destruct (send_cycle_calls _ _ _ _ _ _ _ _ E) as (evs & Ht & Hc & Hn & _).
      destruct r as [[s' c']| |].
      * destruct (IH s' c' w2) as (evs' & Ht' & Hb).
        exists (EvIsSet ev false
                  :: EvCallLogSpeed messages_sent start_time q topic default_interval
                  :: evs ++ evs').
        split.
        -- rewrite Ht', Ht, Hw1. repeat rewrite <- app_assoc. reflexivity.
        -- unfold once_per_turn in *.
           change (EvIsSet ev false
                     :: EvCallLogSpeed messages_sent start_time q topic
                          default_interval :: evs ++ evs')
             with ([EvIsSet ev false;
                    EvCallLogSpeed messages_sent start_time q topic
                      default_interval] ++ evs ++ evs').
           rewrite !count_app, Hc, Hn, Hb. reflexivity.
      * exists (EvIsSet ev false
                  :: EvCallLogSpeed messages_sent start_time q topic default_interval
                  :: evs).
        cbn [snd]. split.
        -- rewrite Ht, Hw1. repeat rewrite <- app_assoc. reflexivity.
        -- unfold once_per_turn.
           change (EvIsSet ev false
                     :: EvCallLogSpeed messages_sent start_time q topic
                          default_interval :: evs)
             with ([EvIsSet ev false;
                    EvCallLogSpeed messages_sent start_time q topic
                      default_interval] ++ evs).
           rewrite !count_app, Hc, Hn. reflexivity.
      * exists (EvIsSet ev false
                  :: EvCallLogSpeed messages_sent start_time q topic default_interval
                  :: evs).
        cbn [snd]. split.
        -- rewrite Ht, Hw1. repeat rewrite <- app_assoc. reflexivity.
        -- unfold once_per_turn.
           change (EvIsSet ev false
                     :: EvCallLogSpeed messages_sent start_time q topic
                          default_interval :: evs)
             with ([EvIsSet ev false;
                    EvCallLogSpeed messages_sent start_time q topic
                      default_interval] ++ evs).
           rewrite !count_app, Hc, Hn. reflexivity.
Qed.

Lemma send_messages_once_per_turn (fuel : nat) (topic : string) (p : ProducerId)
    (q : QueueId) (ev : EventId) (w : World) :
  once_per_turn (new_events w (snd (send_messages fuel topic p q ev w))).
Proof.
  unfold send_messages, bind, time_time.
  match goal with
  | |- context [send_loop fuel topic p q ev ?s ?c ?w1] =>
      destruct (send_loop_once_per_turn fuel topic p q ev s c w1)
        as (evs & Ht & Hb)
  end.
  cbn [trace emit tick] in Ht.
  rewrite (new_events_app _ _ (EvTime (clock w (clock_reads w)) :: evs)).
  - unfold once_per_turn in *.
    change (EvTime (clock w (clock_reads w)) :: evs)
      with ([EvTime (clock w (clock_reads w))] ++ evs).
    rewrite !count_app, Hb. reflexivity.
  - rewrite Ht, <- app_assoc. reflexivity.
Qed.

(** The engine's outbound loop is the module-level one on the engine's own
    queue and producer. *)
Lemma produce_loop_eq (fuel : nat) (self : AioKafkaEngine.t) (ev : EventId)
    (topic : string) (start_time : Q) (messages_sent : Z) (w : World) :
  AioKafkaEngine.produce_loop fuel self ev topic start_time messages_sent w
  = send_loop fuel topic (AioKafkaEngine.producer self)
              (AioKafkaEngine.send_queue self) ev start_time messages_sent w.
Proof.
  revert start_time messages_sent w.
  induction fuel as [|fuel IH]; intros start_time messages_sent w; [reflexivity|].
  cbn [AioKafkaEngine.produce_loop send_loop]. unfold bind.
  destruct (is_set ev w) as [[[|]| |] w1]; try reflexivity.
  change (AioKafkaEngine.produce_cycle self topic start_time messages_sent w1)
    with (send_cycle topic (AioKafkaEngine.producer self)
                     (AioKafkaEngine.send_queue self) start_time messages_sent w1).
  destruct (send_cycle topic (AioKafkaEngine.producer self)
                       (AioKafkaEngine.send_queue self) start_time messages_sent w1)
    as [[[s' c']| |] w2]; try reflexivity.
  apply IH.
Qed.

Lemma produce_messages_eq (fuel : nat) (self : AioKafkaEngine.t) (ev : EventId)
    (topic : string) :
  same_run (AioKafkaEngine.produce_messages fuel self ev topic)
           (send_messages fuel topic (AioKafkaEngine.producer self)
                          (AioKafkaEngine.send_queue self) ev).
Proof.
  intros w. unfold AioKafkaEngine.produce_messages, send_messages, bind.
  destruct (time_time w) as [[t| |] w1]; try reflexivity.
  apply produce_loop_eq.
Qed.

(** C8, as the code has it.  The outbound relay, in both implementations,
    calls the speed monitor exactly once per turn of its loop: every turn
    opens with one call on the loop's current counter and window start, and
    the pair carried to the next turn is the returned one, with the counter
    raised by one when an item was published.  The inbound relay, in both
    implementations, never calls the speed monitor. *)
Theorem speed_monitor_once_per_outbound_turn :
  forall (fuel : nat) (self : AioKafkaEngine.t) (ev : EventId) (topic : string)
         (batch_size : Z) (w : World),
    let p := AioKafkaEngine.producer self in
    let q := AioKafkaEngine.send_queue self in
    once_per_turn (new_events w (snd (send_messages fuel topic p q ev w))) /\
    once_per_turn
      (new_events w (snd (AioKafkaEngine.produce_messages fuel self ev topic w))) /\
    (forall start_time messages_sent,
        exists evs,
          new_events w (snd (send_cycle topic p q start_time messages_sent w))
            = EvCallLogSpeed messages_sent start_time q topic default_interval
                :: evs /\
          count is_call_log_speed evs = 0%nat /\
          (forall s' c',
              fst (send_cycle topic p q start_time messages_sent w) = Ok (s', c') ->
              exists c1,
                fst (log_speed messages_sent start_time q topic default_interval w)
                  = Ok (s', c1) /\
                (c' = c1 \/ c' = c1 + 1))) /\
    count is_call_log_speed
      (new_events w (snd (receive_messages fuel (AioKafkaEngine.consumer self)
                            (AioKafkaEngine.receive_queue self) ev batch_size w)))
      = 0%nat /\
    count is_call_log_speed
      (new_events w (snd (AioKafkaEngine.consume_messages fuel self ev batch_size w)))
      = 0%nat.
Proof.
  intros fuel self ev topic batch_size w p q.
  split; [apply send_messages_once_per_turn|].
  split; [rewrite produce_messages_eq; apply send_messages_once_per_turn|].
  split.
  - intros start_time messages_sent.
    destruct (send_cycle topic p q start_time messages_sent w) as [r w'] eqn:E.
    destruct (send_cycle_calls _ _ _ _ _ _ _ _ E) as (evs & Ht & Hc & _ & Hr).
    exists evs. cbn [fst snd]. split; [apply new_events_app; exact Ht|].
    split; [exact Hc|]. exact Hr.
  - split.
    + destruct (monitor_free_receive_messages fuel (AioKafkaEngine.consumer self)
                  (AioKafkaEngine.receive_queue self) ev batch_size w)
        as (evs & Ht & Hc).
      rewrite (new_events_app _ _ _ Ht). exact Hc.
    + destruct (monitor_free_consume_messages fuel self ev batch_size w)
        as (evs & Ht & Hc).
      rewrite (new_events_app _ _ _ Ht). exact Hc.
Qed.

(** C8, as the claim has it, fails on the inbound relay: a run of
    [receive_messages] that takes two turns of the loop calls the speed
    monitor not once. *)
Lemma inbound_relay_never_calls_speed_monitor :
  count is_turn
    (new_events (Sample.world Sample.batch3 [])
       (snd (receive_messages 5 0 0 0 200 (Sample.world Sample.batch3 []))))
    = 2%nat /\
  ~ once_per_turn
      (new_events (Sample.world Sample.batch3 [])
         (snd (receive_messages 5 0 0 0 200 (Sample.world Sample.batch3 [])))).
Proof.
  split; [vm_compute; reflexivity|].
  unfold once_per_turn. vm_compute. discriminate.
Qed.

(** ** The two implementations: claim C9 *)



(** ** The theorems at work on the sample world *)

(** C3 on a clock that reads 0, for a window that started at 0 and lasts 60
    seconds. *)
Lemma log_speed_noop_sample :
  Double.float_lt_int
    (Double.fsub
       (Double.clock (Double.world 0 1) (Double.clock_reads (Double.world 0 1)))
       (Double.of_int 0)) 60 = true /\
  fst (Double.log_speed 5 (Double.of_int 0) 1 "out" 60 (Double.world 0 1))
    = Ok (Double.of_int 0, 5).
Proof.
  assert (H : Double.float_lt_int
                (Double.fsub
                   (Double.clock (Double.world 0 1)
                      (Double.clock_reads (Double.world 0 1)))
                   (Double.of_int 0)) 60 = true) by (vm_compute; reflexivity).
  split; [exact H|].
  exact (proj1 (log_speed_noop_within_window 5 (Double.of_int 0) 1 "out" 60
                  (Double.world 0 1) H)).
Defined.


(** The window test is made on the rounded difference.  With the clock at 60
    seconds and a window that started at [2^-60], the difference rounds to 60
    and the default interval counts as elapsed: the monitor logs and starts a
    new window. *)
Example log_speed_rounds_elapsed_time :
  Double.fsub (Double.of_int 60) Double.two_pow_minus_60 = Double.of_int 60 /\
  fst (Double.log_speed 5 Double.two_pow_minus_60 1 "out" 60 (Double.world 60 1))
    = Ok (Double.of_int 61, 0).
Proof. split; vm_compute; reflexivity. Qed.

(** At the edge of the doubles: [2^1024 - 2^970 - 1] converts, to the largest
    double, and [2^1024 - 2^970] is too large for true division. *)
Example float_of_int_range :
  Double.float_of_int (2 ^ 1024 - 2 ^ 970 - 1)
    = Some (S754_finite false (2 ^ 53 - 1) 971) /\
  Double.float_of_int (2 ^ 1024 - 2 ^ 970) = None /\
  Double.float_of_int (- (2 ^ 1024 - 2 ^ 970)) = None /\
  Double.float_of_int (10 ^ 400) = None.
Proof. repeat split; vm_compute; reflexivity. Qed.

(** C6 on the sample world, whose broker has nothing to offer. *)
Lemma empty_poll_sample :
  fst (is_set 0 (Sample.world [] [])) = Ok false /\
  fst (consumer_getmany 0 1000 200 (snd (is_set 0 (Sample.world [] [])))) = Ok [] /\
  receive_cycle 0 0 200 (snd (is_set 0 (Sample.world [] [])))
    = (Ok tt, snd (consumer_getmany 0 1000 200 (snd (is_set 0 (Sample.world [] []))))).
Proof.
  assert (H1 : fst (is_set 0 (Sample.world [] [])) = Ok false) by reflexivity.
  assert (H2 : fst (consumer_getmany 0 1000 200 (snd (is_set 0 (Sample.world [] []))))
               = Ok []) by reflexivity.
  split; [exact H1|]. split; [exact H2|].
  exact (proj1 (empty_poll_commits_nothing Sample.engine 0 200 0
                  (Sample.world [] []) H1 H2)).
Defined.

(** C4 on the sample world, whose broker offers records 10, 11 and 12 of
    partition 0. *)
Lemma three_records_sample :
  exists offsets,
    get_offset Sample.tp0 offsets = Some 13 /\
    committed (consumers (snd (receive_cycle 0 0 200 (Sample.world Sample.batch3 []))) 0)
      = offsets.
Proof.
  assert (H1 : poll_script (consumers (Sample.world Sample.batch3 []) 0)
                 (polls (consumers (Sample.world Sample.batch3 []) 0))
               = PollOffer [(Sample.tp0, [mkRec 10 "r10"; mkRec 11 "r11"; mkRec 12 "r12"])])
    by reflexivity.
  assert (H2 : 3 <= 200) by lia.
  assert (H3 : has_room (queues (Sample.world Sample.batch3 []) 0) 3)
    by (left; simpl; lia).
  assert (H4 : commit_script (consumers (Sample.world Sample.batch3 []) 0)
                 (commit_calls (consumers (Sample.world Sample.batch3 []) 0))
               = true) by reflexivity.
  destruct (three_records_one_commit_at_13 0 0 200 Sample.tp0 "r10" "r11" "r12"
              (Sample.world Sample.batch3 []) H1 H2 H3 H4)
    as (offsets & _ & _ & Hoff & Hcom & _).
  exists offsets. split; [exact Hoff|exact Hcom].
Defined.

(** C7 on the sample world with an empty outbound queue. *)
Lemma empty_outbound_queue_sample :
  fst (is_set 0 (Sample.world [] [])) = Ok false /\
  items (queues (snd (is_set 0 (Sample.world [] []))) 1) = [] /\
  exists w',
    fst (send_cycle "out" 0 1 0 0 (snd (is_set 0 (Sample.world [] [])))) = Ok (0%Q, 0) /\
    snd (send_cycle "out" 0 1 0 0 (snd (is_set 0 (Sample.world [] [])))) = w' /\
    count is_sleep (new_events (snd (is_set 0 (Sample.world [] []))) w') = 1%nat.
Proof.
  assert (H1 : fst (is_set 0 (Sample.world [] [])) = Ok false) by reflexivity.
  assert (H2 : items (queues (snd (is_set 0 (Sample.world [] []))) 1) = [])
    by reflexivity.
  split; [exact H1|]. split; [exact H2|].
  destruct (empty_outbound_queue_sleeps_once Sample.engine 0 "out" 0 0 0
              (Sample.world [] []) H1 H2)
    as (s1 & c1 & w' & Hls & Hcycle & _ & Hsleep & _).
  exists w'. cbn [AioKafkaEngine.producer AioKafkaEngine.send_queue Sample.engine]
    in Hcycle, Hls, Hsleep.
  rewrite Hcycle. cbn [fst snd].
  split; [|split; [reflexivity|exact Hsleep]].
  rewrite <- Hls. reflexivity.
Defined.

(** C2 on the sample world with one item in the outbound queue: the turn
    ends with the item marked done and counted, the record with the client. *)
Lemma task_done_follows_send_call_sample :
  items (queues (Sample.world [] ["x"]) 1) = ["x"] /\
  0 < unfinished_tasks (queues (Sample.world [] ["x"]) 1) /\
  exists w',
    send_cycle "out" 0 1 0 0 (Sample.world [] ["x"]) = (Ok (0%Q, 1), w') /\
    delivered (producers w' 0) = [("out", "x")].
Proof.
  assert (H1 : items (queues (Sample.world [] ["x"]) 1) = ["x"]) by reflexivity.
  assert (H2 : 0 < unfinished_tasks (queues (Sample.world [] ["x"]) 1))
    by (simpl; lia).
  split; [exact H1|]. split; [exact H2|].
  destruct (task_done_follows_send_call Sample.engine "out" 0 0
              (Sample.world [] ["x"]) "x" [] H1 H2)
    as (s1 & c1 & w1 & Hls & _ & Hok & _).
  destruct (Hok eq_refl) as (w' & Hcycle & _ & Hdel & _).
  exists w'. cbn [AioKafkaEngine.producer AioKafkaEngine.send_queue Sample.engine]
    in Hcycle, Hls, Hdel.
  split; [|exact Hdel].
  rewrite Hcycle.
  assert (E : (Ok (s1, c1), w1)
              = (Ok (0%Q, 0), snd (log_speed 0 0 1 "out" default_interval
                                     (Sample.world [] ["x"])))).
  { rewrite <- Hls. reflexivity. }
  injection E as -> -> _. reflexivity.
Defined.

(** * Further properties of the relays *)

(** ** Shutdown *)

Lemma check_free_ret {A : Type} (a : A) : check_free (ret a).
Proof.
  intros w. exists []. split; [simpl; symmetry; apply app_nil_r|reflexivity].
Qed.

Lemma check_free_bind {A B : Type} (m : M A) (k : A -> M B) :
  check_free m -> (forall a, check_free (k a)) -> check_free (bind m k).
Proof.
  intros Hm Hk w. unfold bind. destruct (Hm w) as (evs & Hevs & Hn).
  destruct (m w) as [[a| |] w1]; simpl in Hevs.
  - destruct (Hk a w1) as (evs' & Hevs' & Hn'). exists (evs ++ evs'). split.
    + rewrite Hevs', Hevs. symmetry. apply app_assoc.
    + rewrite forallb_app, Hn, Hn'. reflexivity.
  - exists evs. split; assumption.
  - exists evs. split; assumption.
Qed.

Ltac check_free_prim :=
  intros w;
  cbv beta zeta delta [logger_info queue_put consumer_commit consumer_getmany
                       time_time asyncio_sleep queue_empty queue_get
                       producer_send queue_task_done];
  repeat match goal with
         | |- context [if ?b then _ else _] => destruct b
         | |- context [match ?x with PollOffer _ => _ | PollError => _ end] =>
             destruct x
         | |- context [match items ?x with [] => _ | _ :: _ => _ end] =>
             destruct (items x)
         end;
  simpl;
  first [ eexists; split; [reflexivity|reflexivity]
        | exists []; split; [symmetry; apply app_nil_r|reflexivity] ].

Lemma check_free_logger_info (r : LogRecord) : check_free (logger_info r).
Proof. check_free_prim. Qed.

Lemma check_free_queue_put (q : QueueId) (v : Value) : check_free (queue_put q v).
Proof. check_free_prim. Qed.

Lemma check_free_consumer_commit (c : ConsumerId) : check_free (consumer_commit c).
Proof. check_free_prim. Qed.

Lemma check_free_consumer_getmany (c : ConsumerId) (t n : Z) :
  check_free (consumer_getmany c t n).
Proof. check_free_prim. Qed.

Lemma check_free_asyncio_sleep (n : Z) : check_free (asyncio_sleep n).
Proof. check_free_prim. Qed.

Lemma check_free_queue_empty (q : QueueId) : check_free (queue_empty q).
Proof. check_free_prim. Qed.

Lemma check_free_queue_get (q : QueueId) : check_free (queue_get q).
Proof. check_free_prim. Qed.

Lemma check_free_producer_send (p : ProducerId) (topic : string) (v : Value) :
  check_free (producer_send p topic v).
Proof. check_free_prim. Qed.

Lemma check_free_queue_task_done (q : QueueId) : check_free (queue_task_done q).
Proof. check_free_prim. Qed.

Lemma check_free_log_speed (counter : Z) (start_time : Q) (q : QueueId)
    (topic : string) (interval : Z) :
  check_free (log_speed counter start_time q topic interval).
Proof.
  intros w. rewrite log_speed_cases. cbv zeta.
  destruct (Qltb _ _); [|destruct (Qeq_bool _ _)];
    eexists; (split; [unfold after_logging, after_reading; simpl;
                      repeat rewrite <- app_assoc; reflexivity|reflexivity]).
Qed.

Lemma check_free_gather_puts (q : QueueId) (vs : list Value) :
  check_free (gather_puts q vs).
Proof.
  induction vs as [|v vs IH]; simpl; [apply check_free_ret|].
  apply check_free_bind; [apply check_free_queue_put|intros _; exact IH].
Qed.

Lemma check_free_receive_cycle (c : ConsumerId) (q : QueueId) (batch_size : Z) :
  check_free (receive_cycle c q batch_size).
Proof.
  apply check_free_bind; [apply check_free_consumer_getmany|intros b].
  induction b as [|[tp messages] rest IH]; simpl; [apply check_free_ret|].
  apply check_free_bind; [apply check_free_logger_info|intros _].
  apply check_free_bind; [apply check_free_gather_puts|intros _].
  apply check_free_bind; [apply check_free_logger_info|intros _].
  apply check_free_bind; [apply check_free_consumer_commit|intros _; exact IH].
Qed.

Lemma check_free_consume_cycle (self : AioKafkaEngine.t) (batch_size : Z) :
  check_free (AioKafkaEngine.consume_cycle self batch_size).
Proof.
  apply check_free_bind; [apply check_free_consumer_getmany|intros b].
  induction b as [|[tp messages] rest IH]; simpl; [apply check_free_ret|].
  apply check_free_bind; [apply check_free_gather_puts|intros _].
  apply check_free_bind; [apply check_free_consumer_commit|intros _].
  apply check_free_bind; [apply check_free_logger_info|intros _; exact IH].
Qed.

Lemma check_free_send_cycle (topic : string) (p : ProducerId) (q : QueueId)
    (start_time : Q) (messages_sent : Z) :
  check_free (send_cycle topic p q start_time messages_sent).
Proof.
  apply check_free_bind; [apply check_free_log_speed|intros [s1 c1]].
  apply check_free_bind; [apply check_free_queue_empty|intros e].
  destruct e.
  - apply check_free_bind; [apply check_free_asyncio_sleep|intros _].
    apply check_free_ret.
  - apply check_free_bind; [apply check_free_queue_get|intros v].
    apply check_free_bind; [apply check_free_producer_send|intros _].
    apply check_free_bind; [apply check_free_queue_task_done|intros _].
    apply check_free_ret.
Qed.

Lemma after_stop_quiet_app (l1 l2 : list Event) :
  forallb (fun e => negb (is_check e)) l1 = true ->
  after_stop (l1 ++ l2) = after_stop l2.
Proof.
  induction l1 as [|e l1 IH]; intros H; [reflexivity|].
  simpl in H. apply andb_true_iff in H. destruct H as [He Hl].
  destruct e; try discriminate He; simpl; exact (IH Hl).
Qed.

Lemma after_stop_quiet (l : list Event) :
  forallb (fun e => negb (is_check e)) l = true -> after_stop l = None.
Proof.
  intros H. rewrite <- (app_nil_r l). rewrite after_stop_quiet_app by exact H.
  reflexivity.
Qed.

(** One turn of a relay loop, whatever its cycle and the rest of the loop. *)
Lemma stops_on_signal_turn {St : Type} (ev : EventId) (cycle : M St)
    (rest : St -> M Run) (w w' : World) (r : Result Run) :
  check_free cycle ->
  (forall st w1 r1 w1', rest st w1 = (r1, w1') ->
     exists evs, trace w1' = trace w1 ++ evs /\ stops_on_signal r1 evs) ->
  (stop <- is_set ev ;;
   if stop then logger_info LogShutdown ;; ret Returned
   else st <- cycle ;; rest st) w = (r, w') ->
  exists evs, trace w' = trace w ++ evs /\ stops_on_signal r evs.
Proof.
  intros Hcycle Hrest H. unfold bind at 1, is_set in H.
  set (b := is_set_script (events w ev) (is_set_calls (events w ev))) in H.
  set (w1 := emit (EvIsSet ev b) _) in H.
  assert (Hw1 : trace w1 = trace w ++ [EvIsSet ev b]) by reflexivity.
  destruct b.
  - unfold bind, logger_info, ret in H. injection H as <- <-.
    exists [EvIsSet ev true; EvLog LogShutdown].
    cbn [trace emit]. rewrite Hw1, <- app_assoc. split; [reflexivity|].
    unfold stops_on_signal. cbn [after_stop]. split; reflexivity.
  - unfold bind at 1 in H. destruct (Hcycle w1) as (evs1 & Ht1 & Hq1).
    destruct (cycle w1) as [[st| |] w2]; cbn [fst snd] in *.
    + destruct (Hrest st w2 r w' H) as (evs2 & Ht2 & Hs2).
      exists (EvIsSet ev false :: evs1 ++ evs2). split.
      * rewrite Ht2, Ht1, Hw1. repeat rewrite <- app_assoc. reflexivity.
      * unfold stops_on_signal in *. cbn [after_stop].
        rewrite after_stop_quiet_app by exact Hq1. exact Hs2.
    + injection H as <- <-. exists (EvIsSet ev false :: evs1). split.
      * rewrite Ht1, Hw1. rewrite <- app_assoc. reflexivity.
      * unfold stops_on_signal. cbn [after_stop].
        rewrite after_stop_quiet by exact Hq1. discriminate.
    + injection H as <- <-. exists (EvIsSet ev false :: evs1). split.
      * rewrite Ht1, Hw1. rewrite <- app_assoc. reflexivity.
      * unfold stops_on_signal. cbn [after_stop].
        rewrite after_stop_quiet by exact Hq1. discriminate.
Qed.

Lemma stops_on_signal_out_of_fuel (w w' : World) (r : Result Run) :
  ret Looping w = (r, w') ->
  exists evs, trace w' = trace w ++ evs /\ stops_on_signal r evs.
Proof.
  intros H. injection H as <- <-.
  exists []. split; [symmetry; apply app_nil_r|].
  unfold stops_on_signal. simpl. discriminate.
Qed.

Lemma receive_messages_stops (fuel : nat) (c : ConsumerId) (q : QueueId)
    (ev : EventId) (batch_size : Z) (w w' : World) (r : Result Run) :
  receive_messages fuel c q ev batch_size w = (r, w') ->
  exists evs, trace w' = trace w ++ evs /\ stops_on_signal r evs.
Proof.
  revert w w' r. induction fuel as [|fuel IH]; intros w w' r H.
  - exact (stops_on_signal_out_of_fuel _ _ _ H).
  - cbn [receive_messages] in H.
    apply (stops_on_signal_turn ev (receive_cycle c q batch_size)
             (fun _ => receive_messages fuel c q ev batch_size) w w' r);
      [apply check_free_receive_cycle| |exact H].
    intros _ w1 r1 w1'. apply IH.
Qed.

Lemma consume_messages_stops (fuel : nat) (self : AioKafkaEngine.t)
    (ev : EventId) (batch_size : Z) (w w' : World) (r : Result Run) :
  AioKafkaEngine.consume_messages fuel self ev batch_size w = (r, w') ->
  exists evs, trace w' = trace w ++ evs /\ stops_on_signal r evs.
Proof.
  revert w w' r. induction fuel as [|fuel IH]; intros w w' r H.
  - exact (stops_on_signal_out_of_fuel _ _ _ H).
  - cbn [AioKafkaEngine.consume_messages] in H.
    apply (stops_on_signal_turn ev (AioKafkaEngine.consume_cycle self batch_size)
             (fun _ => AioKafkaEngine.consume_messages fuel self ev batch_size)
             w w' r);
      [apply check_free_consume_cycle| |exact H].
    intros _ w1 r1 w1'. apply IH.
Qed.

Lemma send_loop_stops (fuel : nat) (topic : string) (p : ProducerId)
    (q : QueueId) (ev : EventId) (start_time : Q) (messages_sent : Z)
    (w w' : World) (r : Result Run) :
  send_loop fuel topic p q ev start_time messages_sent w = (r, w') ->
  exists evs, trace w' = trace w ++ evs /\ stops_on_signal r evs.
Proof.
  revert start_time messages_sent w w' r.
  induction fuel as [|fuel IH]; intros start_time messages_sent w w' r H.
  - exact (stops_on_signal_out_of_fuel _ _ _ H).
  - cbn [send_loop] in H.
    apply (stops_on_signal_turn ev
             (send_cycle topic p q start_time messages_sent)
             (fun st => let '(s, c) := st in send_loop fuel topic p q ev s c)
             w w' r);
      [apply check_free_send_cycle| |exact H].
    intros [s c] w1 r1 w1'. apply IH.
Qed.

Lemma send_messages_stops (fuel : nat) (topic : string) (p : ProducerId)
    (q : QueueId) (ev : EventId) (w : World) :
  stops_on_signal (fst (send_messages fuel topic p q ev w))
                  (new_events w (snd (send_messages fuel topic p q ev w))).
Proof.
  destruct (send_messages fuel topic p q ev w) as [r w'] eqn:E.
  unfold send_messages, bind, time_time in E.
  destruct (send_loop_stops _ _ _ _ _ _ _ _ _ _ E) as (evs & Ht & Hs).
  cbn [trace emit tick] in Ht. cbn [fst snd].
  rewrite (new_events_app _ _ (EvTime (clock w (clock_reads w)) :: evs)).
  - exact Hs.
  - rewrite Ht, <- app_assoc. reflexivity.
Qed.

(** X1.  Every run of a relay, inbound or outbound, function or method, honours
    the shutdown flag: the first time the flag is seen set, the relay logs
    the shutdown line, does nothing else and returns; and a relay returns in
    no other way. *)
Theorem relays_stop_on_signal_only :
  forall (fuel : nat) (self : AioKafkaEngine.t) (ev : EventId) (topic : string)
         (batch_size : Z) (w : World),
    let c := AioKafkaEngine.consumer self in
    let rq := AioKafkaEngine.receive_queue self in
    let p := AioKafkaEngine.producer self in
    let sq := AioKafkaEngine.send_queue self in
    stops_on_signal
      (fst (receive_messages fuel c rq ev batch_size w))
      (new_events w (snd (receive_messages fuel c rq ev batch_size w))) /\
    stops_on_signal
      (fst (AioKafkaEngine.consume_messages fuel self ev batch_size w))
      (new_events w (snd (AioKafkaEngine.consume_messages fuel self ev batch_size w))) /\
    stops_on_signal
      (fst (send_messages fuel topic p sq ev w))
      (new_events w (snd (send_messages fuel topic p sq ev w))) /\
    stops_on_signal
      (fst (AioKafkaEngine.produce_messages fuel self ev topic w))
      (new_events w (snd (AioKafkaEngine.produce_messages fuel self ev topic w))).
Proof.
  intros fuel self ev topic batch_size w c rq p sq.
  split; [|split; [|split]].
  - destruct (receive_messages fuel c rq ev batch_size w) as [r w'] eqn:E.
    destruct (receive_messages_stops _ _ _ _ _ _ _ _ E) as (evs & Ht & Hs).
    cbn [fst snd]. rewrite (new_events_app _ _ _ Ht). exact Hs.
  - destruct (AioKafkaEngine.consume_messages fuel self ev batch_size w)
      as [r w'] eqn:E.
    destruct (consume_messages_stops _ _ _ _ _ _ _ E) as (evs & Ht & Hs).
    cbn [fst snd]. rewrite (new_events_app _ _ _ Ht). exact Hs.
  - apply send_messages_stops.
  - rewrite produce_messages_eq. apply send_messages_stops.
Qed.

(** ** The turns of a relay loop *)

(** What a shutdown check does to the world. *)
Lemma is_set_run (ev : EventId) (w : World) :
  exists w1,
    is_set ev w
      = (Ok (is_set_script (events w ev) (is_set_calls (events w ev))), w1) /\
    trace w1 = trace w ++
               [EvIsSet ev (is_set_script (events w ev) (is_set_calls (events w ev)))] /\
    queues w1 = queues w /\ consumers w1 = consumers w /\
    producers w1 = producers w /\ clock_reads w1 = clock_reads w /\
    clock w1 = clock w /\
    events w1 ev = mkEvent (is_set_script (events w ev))
                           (S (is_set_calls (events w ev))) /\
    (forall ev', ev' <> ev -> events w1 ev' = events w ev').
Proof.
  eexists. split; [reflexivity|]. cbn [trace queues consumers producers
    clock_reads clock events emit set_event].
  rewrite upd_same. repeat split. intros ev' Hne. apply upd_other. exact Hne.
Qed.

(** A turn of a relay loop either sees the flag set and returns after the
    shutdown line, or runs its cycle and, when the cycle returns, the rest of
    the loop. *)
Lemma loop_turn_cases {St : Type} (ev : EventId) (cycle : M St)
    (rest : St -> M Run) (w w' : World) (r : Result Run) :
  (stop <- is_set ev ;;
   if stop then logger_info LogShutdown ;; ret Returned
   else st <- cycle ;; rest st) w = (r, w') ->
  exists b w1,
    is_set ev w = (Ok b, w1) /\
    ((b = true /\ r = Ok Returned /\ w' = emit (EvLog LogShutdown) w1) \/
     (b = false /\
      exists rc wc,
        cycle w1 = (rc, wc) /\
        match rc with
        | Ok st => rest st wc = (r, w')
        | Raised e => r = Raised e /\ w' = wc
        | Suspended => r = Suspended /\ w' = wc
        end)).
Proof.
  intros H. destruct (is_set_run ev w) as (w1 & Hrun & _).
  rewrite (bind_ok _ _ w w1 _ Hrun) in H.
  exists (is_set_script (events w ev) (is_set_calls (events w ev))), w1.
  split; [exact Hrun|].
  destruct (is_set_script (events w ev) (is_set_calls (events w ev))).
  - left. unfold bind, logger_info, ret in H. injection H as <- <-.
    repeat split.
  - right. split; [reflexivity|]. unfold bind in H.
    destruct (cycle w1) as [rc wc]. exists rc, wc. split; [reflexivity|].
    destruct rc as [st| |]; [exact H| |]; injection H as <- <-; split; reflexivity.
Qed.

(** ** What the inbound relay puts is what it polled *)

Lemma polled_app (l1 l2 : list Event) : polled (l1 ++ l2) = polled l1 ++ polled l2.
Proof.
  induction l1 as [|e l1 IH]; [reflexivity|].
  destruct e; simpl; rewrite ?IH, ?app_assoc; reflexivity.
Qed.

Lemma polled_ops (l : list Event) : polled (ops l) = polled l.
Proof.
  induction l as [|e l IH]; [reflexivity|].
  destruct e; simpl; rewrite ?IH; reflexivity.
Qed.

Lemma polled_relay_ops (q : QueueId) (c : ConsumerId) (pos : Offsets) (b : Batch) :
  polled (relay_ops q c pos b) = [].
Proof.
  induction b as [|[tp messages] rest IH]; [reflexivity|].
  cbn [relay_ops]. rewrite polled_app. cbn [polled]. rewrite IH, app_nil_r.
  induction messages as [|m messages IHm]; [reflexivity|exact IHm].
Qed.

Lemma prefix_puts_of (l1 l2 : list Event) :
  prefix l1 l2 -> prefix (puts_of l1) (puts_of l2).
Proof. intros [rest ->]. exists (puts_of rest). apply puts_of_app. Qed.

(** The events of a batch loop that follows [relay_ops]: no poll among them,
    and the puts are a prefix of the batch's payloads. *)
Lemma batch_events_puts (q : QueueId) (c : ConsumerId) (pos : Offsets)
    (b : Batch) (evs : list Event) :
  prefix (ops evs) (relay_ops q c pos b) ->
  polled evs = [] /\ prefix (puts_of evs) (batch_values b).
Proof.
  intros Hp. split.
  - destruct Hp as [rest Hrest].
    apply (f_equal polled) in Hrest.
    rewrite polled_relay_ops, polled_app, polled_ops in Hrest.
    symmetry in Hrest. apply app_eq_nil in Hrest. exact (proj1 Hrest).
  - rewrite <- puts_of_ops. apply prefix_puts_of in Hp.
    rewrite (proj2 (relay_ops_totals q c pos b)) in Hp. exact Hp.
Qed.

Lemma inbound_cycle_puts_polled (c : ConsumerId) (q : QueueId) (batch_size : Z)
    (loop_body : Batch -> M unit) (w w' : World) (r : Result unit) :
  (forall b w0 w1 r0, loop_body b w0 = (r0, w1) ->
     exists evs,
       trace w1 = trace w0 ++ evs /\
       prefix (ops evs) (relay_ops q c (position (consumers w0 c)) b) /\
       (r0 = Ok tt -> ops evs = relay_ops q c (position (consumers w0 c)) b)) ->
  (batch <- consumer_getmany c 1000 batch_size ;; loop_body batch) w = (r, w') ->
  exists evs,
    trace w' = trace w ++ evs /\
    prefix (puts_of evs) (polled evs) /\
    (returned r -> puts_of evs = polled evs).
Proof.
  intros Hbody H. unfold bind, consumer_getmany in H.
  destruct (poll_script (consumers w c) (polls (consumers w c))) as [offer|].
  - set (b := limit_records (Z.to_nat batch_size) offer) in H.
    destruct (Hbody _ _ _ _ H) as (evs & Ht & Hp & Hok).
    destruct (batch_events_puts _ _ _ _ _ Hp) as [Hnone Hpre].
    exists (EvGetMany c 1000 batch_size b :: evs). split.
    + rewrite Ht. cbn [trace emit set_consumer]. rewrite <- app_assoc. reflexivity.
    + cbn [puts_of polled]. rewrite Hnone, app_nil_r. split; [exact Hpre|].
      intros Hr. destruct r as [[]| |]; try contradiction.
      rewrite <- puts_of_ops, (Hok eq_refl).
      apply (proj2 (relay_ops_totals q c _ b)).
  - injection H as <- <-. exists []. split; [symmetry; apply app_nil_r|].
    split; [apply prefix_refl|reflexivity].
Qed.

Lemma inbound_loop_puts_polled {St : Type} (ev : EventId) (cycle : M St)
    (rest : St -> M Run) (w w' : World) (r : Result Run) :
  (forall w0 w1 r0, cycle w0 = (r0, w1) ->
     exists evs,
       trace w1 = trace w0 ++ evs /\
       prefix (puts_of evs) (polled evs) /\
       (returned r0 -> puts_of evs = polled evs)) ->
  (forall st w0 w1 r0, rest st w0 = (r0, w1) ->
     exists evs,
       trace w1 = trace w0 ++ evs /\
       prefix (puts_of evs) (polled evs) /\
       (returned r0 -> puts_of evs = polled evs)) ->
  (stop <- is_set ev ;;
   if stop then logger_info LogShutdown ;; ret Returned
   else st <- cycle ;; rest st) w = (r, w') ->
  exists evs,
    trace w' = trace w ++ evs /\
    prefix (puts_of evs) (polled evs) /\
    (returned r -> puts_of evs = polled evs).
Proof.
  intros Hcycle Hrest H.
  destruct (loop_turn_cases _ _ _ _ _ _ H) as (b & w1 & Hset & Hcases).
  destruct (is_set_run ev w) as (w1' & Hrun & Ht1 & _).
  rewrite Hrun in Hset. injection Hset as Hb <-.
  rewrite Hb in Ht1.
  destruct Hcases as [(-> & -> & ->)|(-> & rc & wc & Hc & Hrc)].
  - exists [EvIsSet ev true; EvLog LogShutdown]. cbn [trace emit].
    rewrite Ht1, <- app_assoc. split; [reflexivity|].
    split; [apply prefix_refl|reflexivity].
  - destruct (Hcycle _ _ _ Hc) as (evs1 & Htc & Hp1 & Hok1).
    destruct rc as [st| |].
    + destruct (Hrest _ _ _ _ Hrc) as (evs2 & Ht2 & Hp2 & Hok2).
      exists (EvIsSet ev false :: evs1 ++ evs2). split.
      * rewrite Ht2, Htc, Ht1. repeat rewrite <- app_assoc. reflexivity.
      * cbn [puts_of polled]. rewrite puts_of_app, polled_app, (Hok1 I).
        split; [apply prefix_app; exact Hp2|].
        intros Hr. rewrite (Hok2 Hr). reflexivity.
    + destruct Hrc as [-> ->]. exists (EvIsSet ev false :: evs1). split.
      * rewrite Htc, Ht1, <- app_assoc. reflexivity.
      * cbn [puts_of polled]. split; [exact Hp1|intros []].
    + destruct Hrc as [-> ->]. exists (EvIsSet ev false :: evs1). split.
      * rewrite Htc, Ht1, <- app_assoc. reflexivity.
      * cbn [puts_of polled]. split; [exact Hp1|intros []].
Qed.

Lemma receive_messages_puts_polled (fuel : nat) (c : ConsumerId) (q : QueueId)
    (ev : EventId) (batch_size : Z) (w w' : World) (r : Result Run) :
  receive_messages fuel c q ev batch_size w = (r, w') ->
  exists evs,
    trace w' = trace w ++ evs /\
    prefix (puts_of evs) (polled evs) /\
    (returned r -> puts_of evs = polled evs).
Proof.
  revert w w' r. induction fuel as [|fuel IH]; intros w w' r H.
  - injection H as <- <-. exists []. split; [symmetry; apply app_nil_r|].
    split; [apply prefix_refl|reflexivity].
  - cbn [receive_messages] in H.
    apply (inbound_loop_puts_polled ev (receive_cycle c q batch_size)
             (fun _ => receive_messages fuel c q ev batch_size) w w' r);
      [| |exact H].
    + intros w0 w1 r0. apply (inbound_cycle_puts_polled c q).
      intros b w2 w3 r1. apply receive_batch_ops.
    + intros _ w0 w1 r0. apply IH.
Qed.

Lemma consume_messages_puts_polled (fuel : nat) (self : AioKafkaEngine.t)
    (ev : EventId) (batch_size : Z) (w w' : World) (r : Result Run) :
  AioKafkaEngine.consume_messages fuel self ev batch_size w = (r, w') ->
  exists evs,
    trace w' = trace w ++ evs /\
    prefix (puts_of evs) (polled evs) /\
    (returned r -> puts_of evs = polled evs).
Proof.
  revert w w' r. induction fuel as [|fuel IH]; intros w w' r H.
  - injection H as <- <-. exists []. split; [symmetry; apply app_nil_r|].
    split; [apply prefix_refl|reflexivity].
  - cbn [AioKafkaEngine.consume_messages] in H.
    apply (inbound_loop_puts_polled ev
             (AioKafkaEngine.consume_cycle self batch_size)
             (fun _ => AioKafkaEngine.consume_messages fuel self ev batch_size)
             w w' r);
      [| |exact H].
    + intros w0 w1 r0.
      apply (inbound_cycle_puts_polled (AioKafkaEngine.consumer self)
               (AioKafkaEngine.receive_queue self)).
      intros b w2 w3 r1. apply consume_batch_ops.
    + intros _ w0 w1 r0. apply IH.
Qed.

(** X2.  In every run of the inbound relay, function or method, the values put
    into the inbound queue are, in order, the values of the records the polls
    returned, poll after poll and partition after partition: nothing else is
    put, nothing is put twice, nothing is reordered.  When the run ends
    normally, by shutdown or with turns left to go, every polled record has
    been put; a run cut short by an error or a full queue has put a prefix of
    what it polled. *)
Theorem inbound_relay_puts_what_it_polled :
  forall (fuel : nat) (self : AioKafkaEngine.t) (ev : EventId)
         (batch_size : Z) (w : World),
    let c := AioKafkaEngine.consumer self in
    let q := AioKafkaEngine.receive_queue self in
    let run := receive_messages fuel c q ev batch_size w in
    let run' := AioKafkaEngine.consume_messages fuel self ev batch_size w in
    prefix (puts_of (new_events w (snd run))) (polled (new_events w (snd run))) /\
    (returned (fst run) ->
     puts_of (new_events w (snd run)) = polled (new_events w (snd run))) /\
    prefix (puts_of (new_events w (snd run'))) (polled (new_events w (snd run'))) /\
    (returned (fst run') ->
     puts_of (new_events w (snd run')) = polled (new_events w (snd run'))).
Proof.
  intros fuel self ev batch_size w c q run run'.
  subst run run'.
  destruct (receive_messages fuel c q ev batch_size w) as [r w1] eqn:E.
  destruct (AioKafkaEngine.consume_messages fuel self ev batch_size w)
    as [r' w1'] eqn:E'.
  destruct (receive_messages_puts_polled _ _ _ _ _ _ _ _ E) as (evs & Ht & Hp & Hok).
  destruct (consume_messages_puts_polled _ _ _ _ _ _ _ E') as (evs' & Ht' & Hp' & Hok').
  cbn [fst snd]. rewrite (new_events_app _ _ _ Ht), (new_events_app _ _ _ Ht').
  repeat split; assumption.
Qed.

(** ** Inbound cycles that complete, wait or fail *)

Lemma monitor_free_receive_cycle (c : ConsumerId) (q : QueueId) (batch_size : Z) :
  monitor_free (receive_cycle c q batch_size).
Proof.
  apply monitor_free_bind; [apply monitor_free_consumer_getmany|intros b].
  apply monitor_free_receive_batch.
Qed.

Lemma monitor_free_consume_cycle (self : AioKafkaEngine.t) (batch_size : Z) :
  monitor_free (AioKafkaEngine.consume_cycle self batch_size).
Proof.
  apply monitor_free_bind; [apply monitor_free_consumer_getmany|intros b].
  apply monitor_free_consume_batch.
Qed.

(** The cycle of [consume_messages] ends as the cycle of [receive_messages]
    does, with the same queues and consumers and, log lines apart, the same
    events. *)
Lemma consume_cycle_like_receive (self : AioKafkaEngine.t) (batch_size : Z)
    (w : World) :
  let r := receive_cycle (AioKafkaEngine.consumer self)
                         (AioKafkaEngine.receive_queue self) batch_size w in
  let r' := AioKafkaEngine.consume_cycle self batch_size w in
  fst r' = fst r /\
  queues (snd r') = queues (snd r) /\
  consumers (snd r') = consumers (snd r) /\
  ops (new_events w (snd r')) = ops (new_events w (snd r)).
Proof.
  cbv zeta.
  destruct (sim_cycle self batch_size w w (same_but_log_refl w))
    as (Hr & _ & _ & Hq & _ & Hc & _ & Hops).
  destruct (monitor_free_receive_cycle (AioKafkaEngine.consumer self)
              (AioKafkaEngine.receive_queue self) batch_size w) as (evs & Ht & _).
  destruct (monitor_free_consume_cycle self batch_size w) as (evs' & Ht' & _).
  rewrite (new_events_app _ _ _ Ht), (new_events_app _ _ _ Ht').
  rewrite Ht, Ht', !ops_app in Hops. apply app_inv_head in Hops.
  repeat split; congruence.
Qed.

Lemma count_commit_cons_poll (c : ConsumerId) (t n : Z) (b : Batch)
    (evs : list Event) :
  count is_commit (EvGetMany c t n b :: evs) = count is_commit evs.
Proof. reflexivity. Qed.

(** X3.  When the poll is answered, the queue has room for every record of the
    batch and the broker accepts every commit, the cycle of either inbound
    relay returns normally with all records of the batch appended to the
    inbound queue in batch order, each counted as an unfinished task, after
    one commit per partition. *)
Theorem inbound_cycle_delivers_whole_batch :
  forall (self : AioKafkaEngine.t) (batch_size : Z) (offer : Batch) (w : World),
    let c := AioKafkaEngine.consumer self in
    let q := AioKafkaEngine.receive_queue self in
    let batch := limit_records (Z.to_nat batch_size) offer in
    poll_script (consumers w c) (polls (consumers w c)) = PollOffer offer ->
    has_room (queues w q) (List.length (batch_values batch)) ->
    (forall i, (i < List.length batch)%nat ->
       commit_script (consumers w c) (commit_calls (consumers w c) + i) = true) ->
    let r := receive_cycle c q batch_size w in
    let r' := AioKafkaEngine.consume_cycle self batch_size w in
    fst r = Ok tt /\ fst r' = Ok tt /\
    items (queues (snd r) q) = items (queues w q) ++ batch_values batch /\
    items (queues (snd r') q) = items (queues w q) ++ batch_values batch /\
    unfinished_tasks (queues (snd r) q)
      = unfinished_tasks (queues w q) + Z.of_nat (List.length (batch_values batch)) /\
    puts_of (new_events w (snd r)) = batch_values batch /\
    count is_commit (new_events w (snd r)) = List.length batch /\
    count is_commit (new_events w (snd r')) = List.length batch.
Proof.
  intros self batch_size offer w c q batch Hoffer Hroom Hscript r r'.
  destruct (consume_cycle_like_receive self batch_size w)
    as (Hr' & Hq' & _ & Hops').
  fold c q r r' in Hr', Hq', Hops'.
  destruct (consumer_getmany_answered c 1000 batch_size offer w Hoffer)
    as (w1 & Hrun1 & Ht1 & Hq1 & _ & _ & Hscr1 & Hcalls1).
  fold batch in Hrun1, Ht1.
  destruct (receive_batch_succeeds c q batch w1) as (w2 & Hrun2 & Hq2 & _).
  { rewrite Hq1. exact Hroom. }
  { intros i Hi. rewrite Hscr1, Hcalls1. apply Hscript. exact Hi. }
  destruct (receive_batch_ops _ _ _ _ _ _ Hrun2) as (evs & Ht2 & _ & Hops).
  specialize (Hops eq_refl).
  assert (Hcycle : r = (Ok tt, w2)).
  { subst r. unfold receive_cycle. rewrite (bind_ok _ _ w w1 batch Hrun1).
    exact Hrun2. }
  assert (Hnew : new_events w w2 = EvGetMany c 1000 batch_size batch :: evs).
  { apply new_events_app. rewrite Ht2, Ht1, <- app_assoc. reflexivity. }
  assert (Hcount : count is_commit (new_events w (snd r)) = List.length batch).
  { rewrite Hcycle. cbn [snd]. rewrite Hnew, count_commit_cons_poll.
    rewrite <- count_commit_ops, Hops. apply relay_ops_totals. }
  rewrite Hr', Hq'. rewrite <- (count_commit_ops (new_events w (snd r'))), Hops'.
  rewrite count_commit_ops.
  split; [rewrite Hcycle; reflexivity|]. split; [rewrite Hcycle; reflexivity|].
  assert (Hitems : items (queues (snd r) q)
                   = items (queues w q) ++ batch_values batch).
  { rewrite Hcycle. cbn [snd]. rewrite Hq2, Hq1. reflexivity. }
  split; [exact Hitems|]. split; [exact Hitems|].
  split; [rewrite Hcycle; cbn [snd]; rewrite Hq2, Hq1; reflexivity|].
  split; [|split; exact Hcount].
  rewrite Hcycle. cbn [snd]. rewrite Hnew. cbn [puts_of].
  rewrite <- puts_of_ops, Hops. apply relay_ops_totals.
Qed.

(** X3 on the sample world with a batch of two partitions. *)
Lemma inbound_cycle_delivers_sample :
  items (queues (snd (receive_cycle 0 0 200 (Sample.world Sample.batch2p []))) 0)
  = ["a"; "b"].
Proof.
  assert (H1 : poll_script (consumers (Sample.world Sample.batch2p []) 0)
                 (polls (consumers (Sample.world Sample.batch2p []) 0))
               = PollOffer Sample.batch2p) by reflexivity.
  assert (H2 : has_room (queues (Sample.world Sample.batch2p []) 0)
                 (List.length (batch_values
                                 (limit_records (Z.to_nat 200) Sample.batch2p))))
    by (left; simpl; lia).
  assert (H3 : forall i,
             (i < List.length (limit_records (Z.to_nat 200) Sample.batch2p))%nat ->
             commit_script (consumers (Sample.world Sample.batch2p []) 0)
               (commit_calls (consumers (Sample.world Sample.batch2p []) 0) + i)
             = true) by (intros i _; reflexivity).
  exact (proj1 (proj2 (proj2 (inbound_cycle_delivers_whole_batch
                                Sample.engine 200 Sample.batch2p
                                (Sample.world Sample.batch2p []) H1 H2 H3)))).
Defined.

Lemma put_all_length_queue (q : QueueId) (vs : list Value) (w : World) :
  maxsize (queues (put_all q vs w) q) = maxsize (queues w q).
Proof. rewrite put_all_queue. reflexivity. Qed.

(** Puts that stay suspended have filled the queue, and fewer of them
    completed than were started. *)
Lemma gather_puts_suspended (q : QueueId) (vs : list Value) (w w' : World) :
  gather_puts q vs w = (Suspended, w') ->
  full (queues w' q) = true /\
  exists done,
    w' = put_all q done w /\ (List.length done < List.length vs)%nat.
Proof.
  revert w. induction vs as [|v vs IH]; intros w H; [discriminate H|].
  cbn [gather_puts] in H. unfold bind in H. rewrite queue_put_eq in H.
  destruct (full (queues w q)) eqn:Efull.
  - injection H as <-. split; [exact Efull|].
    exists []. split; [reflexivity|simpl; lia].
  - destruct (gather_puts q vs (enqueue q v w)) as [[[]| |] w1] eqn:E;
      try discriminate H.
    injection H as <-. destruct (IH _ E) as (Hfull & done & -> & Hlen).
    split; [exact Hfull|]. exists (v :: done). split; [reflexivity|simpl; lia].
Qed.

Lemma gather_puts_never_raises (q : QueueId) (vs : list Value) (w : World) (e : Exn) :
  fst (gather_puts q vs w) <> Raised e.
Proof.
  destruct (gather_puts_outcome q vs w) as (done & _ & _ & [[H _]|H]);
    rewrite H; discriminate.
Qed.

(** The puts of one partition between its two log lines: either all
    complete, or the queue is full and the relay waits. *)
Lemma partition_outcome (q : QueueId) (line : LogRecord) (vs : list Value)
    (w w' : World) (r : Result unit) :
  (logger_info line ;; gather_puts q vs ;; logger_info LogDone) w = (r, w') ->
  (r = Ok tt /\
   trace w' = trace w ++ EvLog line :: map (EvPut q) vs ++ [EvLog LogDone] /\
   queues w' q = mkQueue (maxsize (queues w q)) (items (queues w q) ++ vs)
                   (unfinished_tasks (queues w q) + Z.of_nat (List.length vs)) /\
   consumers w' = consumers w) \/
  (r = Suspended /\ full (queues w' q) = true /\
   consumers w' = consumers w /\
   exists done,
     trace w' = trace w ++ EvLog line :: map (EvPut q) done /\
     (List.length done < List.length vs)%nat).
Proof.
  intros H. rewrite (bind_ok _ _ w (emit (EvLog line) w) tt) in H by reflexivity.
  destruct (gather_puts q vs (emit (EvLog line) w)) as [r1 w1] eqn:E.
  destruct r1 as [[]|e|].
  - left. rewrite (bind_ok _ _ _ w1 tt E) in H.
    destruct (gather_puts_outcome q vs (emit (EvLog line) w))
      as (done & _ & Hw & [[_ Hd]|Hs]).
    2:{ rewrite E in Hs. discriminate Hs. }
    rewrite E in Hw. cbn [snd] in Hw. subst done.
    unfold logger_info in H. injection H as <- <-.
    destruct (put_all_frame q vs (emit (EvLog line) w)) as (_ & _ & _ & Hc & _).
    split; [reflexivity|]. rewrite Hw.
    split; [|split].
    + change (trace (emit (EvLog LogDone) (put_all q vs (emit (EvLog line) w))))
        with (trace (put_all q vs (emit (EvLog line) w)) ++ [EvLog LogDone]).
      rewrite put_all_trace.
      change (trace (emit (EvLog line) w)) with (trace w ++ [EvLog line]).
      repeat rewrite <- app_assoc. reflexivity.
    + change (queues (emit (EvLog LogDone) (put_all q vs (emit (EvLog line) w))) q)
        with (queues (put_all q vs (emit (EvLog line) w)) q).
      rewrite put_all_queue. reflexivity.
    + change (consumers (emit (EvLog LogDone) (put_all q vs (emit (EvLog line) w))))
        with (consumers (put_all q vs (emit (EvLog line) w))).
      rewrite Hc. reflexivity.
  - exfalso. apply (gather_puts_never_raises q vs (emit (EvLog line) w) e).
    rewrite E. reflexivity.
  - right. rewrite (bind_suspended _ _ _ w1 E) in H. injection H as <- <-.
    destruct (gather_puts_suspended _ _ _ _ E) as (Hfull & done & -> & Hlen).
    destruct (put_all_frame q done (emit (EvLog line) w)) as (_ & _ & _ & Hc & _).
    split; [reflexivity|]. split; [exact Hfull|]. split; [rewrite Hc; reflexivity|].
    exists done. split; [|exact Hlen].
    rewrite put_all_trace.
    change (trace (emit (EvLog line) w)) with (trace w ++ [EvLog line]).
    rewrite <- app_assoc. reflexivity.
Qed.

Lemma count_commit_partition (line : LogRecord) (q : QueueId) (vs : list Value)
    (tail : list Event) :
  count is_commit (EvLog line :: map (EvPut q) vs ++ tail) = count is_commit tail.
Proof.
  change (EvLog line :: map (EvPut q) vs ++ tail)
    with ([EvLog line] ++ map (EvPut q) vs ++ tail).
  rewrite !count_app, count_commit_puts. reflexivity.
Qed.

Lemma puts_of_partition (line : LogRecord) (q : QueueId) (vs : list Value)
    (tail : list Event) :
  puts_of (EvLog line :: map (EvPut q) vs ++ tail) = vs ++ puts_of tail.
Proof. cbn [puts_of]. rewrite puts_of_app, puts_of_puts. reflexivity. Qed.

(** A batch loop that stays suspended: the queue is full, and neither every
    partition was committed nor every record put. *)
Lemma receive_batch_suspended (c : ConsumerId) (q : QueueId) (b : Batch)
    (w w' : World) :
  receive_batch c q b w = (Suspended, w') ->
  full (queues w' q) = true /\
  exists evs,
    trace w' = trace w ++ evs /\
    (count is_commit evs < List.length b)%nat /\
    (List.length (puts_of evs) < List.length (batch_values b))%nat.
Proof.
  revert w. induction b as [|[tp messages] rest IH]; intros w H; [discriminate H|].
  rewrite receive_batch_cons in H.
  destruct ((logger_info (LogPartition tp (Z.of_nat (List.length messages))) ;;
             gather_puts q (map rec_value messages) ;;
             logger_info LogDone) w) as [r1 w1] eqn:E1.
  rewrite batch_values_cons, length_app, length_map.
  destruct (partition_outcome _ _ _ _ _ _ E1)
    as [(-> & Ht1 & _ & _)|(-> & Hfull & _ & done & Ht1 & Hlen)].
  - rewrite (bind_ok _ _ w w1 tt E1) in H.
    destruct (commit_script (consumers w1 c) (commit_calls (consumers w1 c))) eqn:Es.
    + destruct (consumer_commit_accepted c w1 Es) as (w2 & Hrun2 & Ht2 & _).
      rewrite (bind_ok _ _ w1 w2 tt Hrun2) in H.
      destruct (IH _ H) as (Hf & evs & Ht & Hcount & Hputs).
      split; [exact Hf|].
      exists (EvLog (LogPartition tp (Z.of_nat (List.length messages)))
                :: map (EvPut q) (map rec_value messages)
                ++ [EvLog LogDone; EvCommit c (position (consumers w1 c))] ++ evs).
      split.
      * rewrite Ht, Ht2, Ht1. repeat rewrite <- app_assoc. cbn [app].
        repeat rewrite <- app_assoc. reflexivity.
      * rewrite count_commit_partition, puts_of_partition, length_app, length_map.
        change (count is_commit
                  ([EvLog LogDone; EvCommit c (position (consumers w1 c))] ++ evs))
          with (S (count is_commit evs)).
        change (puts_of ([EvLog LogDone; EvCommit c (position (consumers w1 c))]
                           ++ evs))
          with (puts_of evs).
        cbn [List.length]. split; lia.
    + destruct (consumer_commit_rejected c w1 Es) as (w2 & Hrun2 & _).
      rewrite (bind_raised _ _ w1 w2 _ Hrun2) in H. discriminate H.
  - rewrite (bind_suspended _ _ w w1 E1) in H. injection H as <-.
    split; [exact Hfull|].
    exists (EvLog (LogPartition tp (Z.of_nat (List.length messages)))
              :: map (EvPut q) done).
    split; [exact Ht1|].
    rewrite <- (app_nil_r (map (EvPut q) done)).
    rewrite count_commit_partition, puts_of_partition, app_nil_r, length_map in *.
    cbn [List.length]. split; [unfold count; simpl; lia|lia].
Qed.

(** X4.  Backpressure.  A cycle of either inbound relay stays suspended only on a
    full inbound queue; the poll had been answered, and fewer records were
    put than polled and fewer commits issued than there are partitions: the
    wait is not an error and the partition in progress is not committed. *)
Theorem inbound_cycle_waits_on_full_queue :
  forall (self : AioKafkaEngine.t) (batch_size : Z) (w : World),
    let c := AioKafkaEngine.consumer self in
    let q := AioKafkaEngine.receive_queue self in
    let r := receive_cycle c q batch_size w in
    let r' := AioKafkaEngine.consume_cycle self batch_size w in
    fst r = Suspended ->
    fst r' = Suspended /\
    full (queues (snd r) q) = true /\ full (queues (snd r') q) = true /\
    exists batch,
      fst (consumer_getmany c 1000 batch_size w) = Ok batch /\
      (count is_commit (new_events w (snd r)) < List.length batch)%nat /\
      (count is_commit (new_events w (snd r')) < List.length batch)%nat /\
      (List.length (puts_of (new_events w (snd r)))
         < List.length (batch_values batch))%nat /\
      (List.length (puts_of (new_events w (snd r')))
         < List.length (batch_values batch))%nat.
Proof.
  intros self batch_size w c q r r' Hs.
  destruct (consume_cycle_like_receive self batch_size w)
    as (Hr' & Hq' & _ & Hops').
  fold c q r r' in Hr', Hq', Hops'.
  rewrite Hr', Hq'.
  rewrite <- (count_commit_ops (new_events w (snd r'))),
          <- (puts_of_ops (new_events w (snd r'))), Hops'.
  rewrite count_commit_ops, puts_of_ops.
  split; [exact Hs|].
  destruct r as [rr w2] eqn:Er. cbn [fst snd] in *. subst rr.
  unfold r in Er. clear r. unfold receive_cycle in Er.
  destruct (consumer_getmany c 1000 batch_size w) as [rg w1] eqn:Eg.
  destruct rg as [batch|e|].
  - rewrite (bind_ok _ _ w w1 batch Eg) in Er.
    destruct (receive_batch_suspended _ _ _ _ _ Er)
      as (Hfull & evs & Ht & Hcount & Hputs).
    split; [exact Hfull|]. split; [exact Hfull|].
    exists batch. split; [reflexivity|].
    assert (Hnew : new_events w w2 = EvGetMany c 1000 batch_size batch :: evs).
    { apply new_events_app. rewrite Ht.
      revert Eg. unfold consumer_getmany.
      destruct (poll_script (consumers w c) (polls (consumers w c)));
        [|discriminate].
      intros Eg. injection Eg as <- <-.
      cbn [trace emit set_consumer]. rewrite <- app_assoc. reflexivity. }
    rewrite Hnew, count_commit_cons_poll. cbn [puts_of].
    repeat split; assumption.
  - rewrite (bind_raised _ _ w w1 e Eg) in Er. discriminate Er.
  - exfalso. revert Eg. unfold consumer_getmany.
    destruct (poll_script (consumers w c) (polls (consumers w c))); discriminate.
Qed.

(** X4 on the crowded world, whose inbound queue is full. *)
Lemma inbound_cycle_waits_sample :
  full (queues (snd (receive_cycle 0 0 200 (crowded_world Sample.batch3 []))) 0)
  = true.
Proof.
  assert (H : fst (receive_cycle 0 0 200 (crowded_world Sample.batch3 []))
              = Suspended) by reflexivity.
  exact (proj1 (proj2 (inbound_cycle_waits_on_full_queue Sample.engine 200
                         (crowded_world Sample.batch3 []) H))).
Defined.

(** X5.  A rejected commit.  When the poll is answered with a batch whose first
    partition finds room in the queue and the broker rejects the commit, the
    cycle of either inbound relay raises [KafkaError]: the records of that
    partition are in the inbound queue, no commit was made and the committed
    offsets are as before, so these records are fetched again after a
    restart; the records of the remaining partitions were not put. *)
Theorem rejected_commit_leaves_records_uncommitted :
  forall (self : AioKafkaEngine.t) (batch_size : Z) (offer : Batch)
         (tp : TopicPartition) (messages : list ConsumerRecord) (rest : Batch)
         (w : World),
    let c := AioKafkaEngine.consumer self in
    let q := AioKafkaEngine.receive_queue self in
    poll_script (consumers w c) (polls (consumers w c)) = PollOffer offer ->
    limit_records (Z.to_nat batch_size) offer = (tp, messages) :: rest ->
    has_room (queues w q) (List.length messages) ->
    commit_script (consumers w c) (commit_calls (consumers w c)) = false ->
    let r := receive_cycle c q batch_size w in
    let r' := AioKafkaEngine.consume_cycle self batch_size w in
    fst r = Raised KafkaError /\ fst r' = Raised KafkaError /\
    items (queues (snd r) q) = items (queues w q) ++ map rec_value messages /\
    items (queues (snd r') q) = items (queues w q) ++ map rec_value messages /\
    committed (consumers (snd r) c) = committed (consumers w c) /\
    committed (consumers (snd r') c) = committed (consumers w c) /\
    puts_of (new_events w (snd r)) = map rec_value messages /\
    count is_commit (new_events w (snd r)) = 0%nat.
Proof.
  intros self batch_size offer tp messages rest w c q Hoffer Hlim Hroom Hrej r r'.
  destruct (consume_cycle_like_receive self batch_size w)
    as (Hr' & Hq' & Hc' & _).
  fold c q r r' in Hr', Hq', Hc'. rewrite Hr', Hq', Hc'.
  destruct (consumer_getmany_answered c 1000 batch_size offer w Hoffer)
    as (w1 & Hrun1 & Ht1 & Hq1 & _ & Hcom1 & Hscr1 & Hcalls1).
  rewrite Hlim in Hrun1, Ht1.
  destruct (partition_enqueued q c
              (LogPartition tp (Z.of_nat (List.length messages)))
              (map rec_value messages) w1)
    as (w2 & Hrun2 & Ht2 & Hq2 & Hc2).
  { rewrite Hq1, length_map. exact Hroom. }
  destruct (consumer_commit_rejected c w2)
    as (w3 & Hrun3 & Ht3 & Hq3 & _ & Hcom3).
  { rewrite Hc2, Hscr1, Hcalls1. exact Hrej. }
  assert (Hcycle : r = (Raised KafkaError, w3)).
  { subst r. unfold receive_cycle. rewrite (bind_ok _ _ w w1 _ Hrun1).
    rewrite receive_batch_cons. rewrite (bind_ok _ _ w1 w2 tt Hrun2).
    rewrite (bind_raised _ _ w2 w3 _ Hrun3). reflexivity. }
  assert (Hnew : new_events w w3
                 = EvGetMany c 1000 batch_size ((tp, messages) :: rest)
                   :: EvLog (LogPartition tp (Z.of_nat (List.length messages)))
                   :: map (EvPut q) (map rec_value messages) ++ [EvLog LogDone]).
  { apply new_events_app. rewrite Ht3, Ht2, Ht1, <- app_assoc. reflexivity. }
  rewrite Hcycle. cbn [fst snd]. rewrite Hnew, count_commit_cons_poll.
  rewrite count_commit_partition. cbn [puts_of].
  rewrite puts_of_app, puts_of_puts, app_nil_r.
  rewrite Hq3, Hq2, Hq1, Hcom3, Hc2, Hcom1.
  repeat split.
Qed.

(** X5 on the failing world, whose broker rejects the commit. *)
Lemma rejected_commit_sample :
  fst (receive_cycle 0 0 200 (failing_world Sample.batch2p [])) = Raised KafkaError /\
  items (queues (snd (receive_cycle 0 0 200 (failing_world Sample.batch2p []))) 0)
  = ["a"].
Proof.
  assert (H1 : poll_script (consumers (failing_world Sample.batch2p []) 0)
                 (polls (consumers (failing_world Sample.batch2p []) 0))
               = PollOffer Sample.batch2p) by reflexivity.
  assert (H2 : limit_records (Z.to_nat 200) Sample.batch2p
               = (Sample.tp0, [mkRec 4 "a"]) :: [(Sample.tp1, [mkRec 7 "b"])])
    by reflexivity.
  assert (H3 : has_room (queues (failing_world Sample.batch2p []) 0)
                 (List.length [mkRec 4 "a"])) by (left; simpl; lia).
  assert (H4 : commit_script (consumers (failing_world Sample.batch2p []) 0)
                 (commit_calls (consumers (failing_world Sample.batch2p []) 0))
               = false) by reflexivity.
  destruct (rejected_commit_leaves_records_uncommitted Sample.engine 200
              Sample.batch2p Sample.tp0 [mkRec 4 "a"] [(Sample.tp1, [mkRec 7 "b"])]
              (failing_world Sample.batch2p []) H1 H2 H3 H4)
    as (Hr & _ & Hi & _).
  split; [exact Hr|exact Hi].
Defined.

(** ** The outbound turn, case by case *)

Lemma log_speed_monitor_step (counter : Z) (start_time : Q) (q : QueueId)
    (topic : string) (w : World) :
  exists s1 c1 w1, monitor_step counter start_time q topic w w1 s1 c1.
Proof.
  unfold monitor_step.
  rewrite (log_speed_positive _ _ _ _ _ _ default_interval_pos). cbv zeta.
  destruct (Qltb _ _).
  - do 3 eexists. split; [reflexivity|]. repeat (split; [reflexivity|]).
    left. split; [reflexivity|]. split; [reflexivity|]. eexists.
    unfold after_reading. cbn [trace emit tick]. rewrite <- app_assoc. reflexivity.
  - do 3 eexists. split; [reflexivity|]. repeat (split; [reflexivity|]).
    right. split; [reflexivity|]. do 4 eexists.
    unfold after_logging, after_reading. cbn [trace emit tick].
    repeat rewrite <- app_assoc. reflexivity.
Qed.

Lemma send_cycle_outcome (topic : string) (p : ProducerId) (q : QueueId)
    (start_time : Q) (messages_sent : Z) (w w' : World) (r : Result (Q * Z)) :
  send_cycle topic p q start_time messages_sent w = (r, w') ->
  exists s1 c1 w1,
    monitor_step messages_sent start_time q topic w w1 s1 c1 /\
    outbound_frame_step p q w1 w' /\
    outbound_step topic p q w1 w' s1 c1 r.
Proof.
  intros H.
  destruct (log_speed_monitor_step messages_sent start_time q topic w)
    as (s1 & c1 & w1 & Hm).
  exists s1, c1, w1. split; [exact Hm|].
  destruct Hm as (Hls & _).
  unfold send_cycle in H. rewrite (bind_ok _ _ w w1 _ Hls) in H.
  unfold bind at 1, queue_empty in H.
  unfold outbound_frame_step, outbound_step.
  destruct (items (queues w1 q)) as [|v rest] eqn:Hitems.
  - unfold bind, asyncio_sleep, ret in H. injection H as <- <-.
    split; [repeat split|]. left. repeat split.
  - unfold bind at 1, queue_get in H. rewrite Hitems in H.
    unfold bind at 1, producer_send in H. cbn [producers emit set_queue] in H.
    destruct (send_script (producers w1 p) (sends (producers w1 p))) eqn:Hsend.
    + unfold bind at 1, queue_task_done in H.
      cbn [queues emit set_queue set_producer] in H. rewrite upd_same in H.
      cbn [unfinished_tasks] in H.
      destruct (unfinished_tasks (queues w1 q) <=? 0) eqn:Hunf.
      * injection H as <- <-.
        cbn [trace queues producers consumers events emit set_queue set_producer].
        rewrite !upd_same. cbn [maxsize items unfinished_tasks send_script sends
                                delivered].
        split.
        { repeat split; intros x Hx; apply upd_other; exact Hx. }
        right. exists v, rest. repeat (split; [reflexivity|]).
        right. left. apply Z.leb_le in Hunf.
        repeat rewrite <- app_assoc. repeat split. exact Hunf.
      * unfold ret in H. injection H as <- <-.
        cbn [trace queues producers consumers events emit set_queue set_producer].
        rewrite !upd_same. cbn [maxsize items unfinished_tasks send_script sends
                                delivered].
        split.
        { repeat split; intros x Hx; try (apply upd_other; exact Hx).
          rewrite !upd_other by exact Hx. reflexivity. }
        right. exists v, rest. repeat (split; [reflexivity|]).
        right. right. apply Z.leb_gt in Hunf.
        repeat rewrite <- app_assoc. repeat split. exact Hunf.
    + injection H as <- <-.
      cbn [trace queues producers consumers events emit set_queue set_producer].
      rewrite !upd_same. cbn [maxsize items unfinished_tasks send_script sends
                              delivered].
      split.
      { repeat split; intros x Hx; apply upd_other; exact Hx. }
      right. exists v, rest. repeat (split; [reflexivity|]).
      left. repeat split.
Qed.

(** ** The outbound relay publishes in queue order *)

Lemma gets_of_app (l1 l2 : list Event) : gets_of (l1 ++ l2) = gets_of l1 ++ gets_of l2.
Proof.
  induction l1 as [|e l1 IH]; [reflexivity|].
  destruct e; simpl; rewrite ?IH; reflexivity.
Qed.

Lemma sends_of_app (l1 l2 : list Event) :
  sends_of (l1 ++ l2) = sends_of l1 ++ sends_of l2.
Proof.
  induction l1 as [|e l1 IH]; [reflexivity|].
  destruct e; simpl; rewrite ?IH; reflexivity.
Qed.

Lemma order_quiet {A : Type} (topic : string) (p : ProducerId) (q : QueueId)
    (w w' : World) (r : Result A) (evs : list Event) :
  gets_of evs = [] -> sends_of evs = [] ->
  queues w' q = queues w q -> producers w' p = producers w p ->
  publishes_in_queue_order topic p q w w' r evs.
Proof.
  intros Hg Hs Hq Hp. unfold publishes_in_queue_order.
  rewrite Hg, Hs, Hq, Hp. simpl. rewrite app_nil_r.
  repeat split; [apply prefix_refl|lia].
Qed.

Lemma order_compose {A B : Type} (topic : string) (p : ProducerId) (q : QueueId)
    (w w1 w2 : World) (a : A) (r : Result B) (evs1 evs2 : list Event) :
  publishes_in_queue_order topic p q w w1 (Ok a) evs1 ->
  publishes_in_queue_order topic p q w1 w2 r evs2 ->
  publishes_in_queue_order topic p q w w2 r (evs1 ++ evs2).
Proof.
  intros (Hi1 & _ & _ & Hd1 & Hr1) (Hi2 & Hp2 & Hl2 & Hd2 & Hr2).
  specialize (Hr1 I). unfold publishes_in_queue_order.
  rewrite gets_of_app, sends_of_app, Hr1.
  split; [rewrite Hi1, Hi2; apply app_assoc|].
  split; [apply prefix_app; exact Hp2|].
  split; [rewrite !length_app; lia|].
  split; [rewrite Hd2, Hd1, Hr1, map_app; symmetry; apply app_assoc|].
  intros Hr. rewrite (Hr2 Hr). reflexivity.
Qed.

Lemma order_stop {A B : Type} (topic : string) (p : ProducerId) (q : QueueId)
    (w w1 : World) (r : Result A) (r' : Result B) (evs : list Event) :
  ~ returned r -> ~ returned r' ->
  publishes_in_queue_order topic p q w w1 r evs ->
  publishes_in_queue_order topic p q w w1 r' evs.
Proof.
  intros Hn Hn' (Hi & Hp & Hl & Hd & _).
  repeat split; try assumption. intros Hr. contradiction.
Qed.

Lemma send_cycle_in_order (topic : string) (p : ProducerId) (q : QueueId)
    (start_time : Q) (messages_sent : Z) (w w' : World) (r : Result (Q * Z)) :
  send_cycle topic p q start_time messages_sent w = (r, w') ->
  exists evs,
    trace w' = trace w ++ evs /\
    publishes_in_queue_order topic p q w w' r evs.
Proof.
  intros H.
  destruct (send_cycle_outcome _ _ _ _ _ _ _ _ H)
    as (s1 & c1 & w1 & (_ & Hq1 & Hp1 & _ & _ & Hmon) & _ & Hstep).
  assert (Hm : exists mon, trace w1 = trace w ++ mon /\
                           gets_of mon = [] /\ sends_of mon = []).
  { destruct Hmon as [(_ & _ & t & Ht)|(_ & t & n & d & sp & Ht)];
      eexists; (split; [exact Ht|split; reflexivity]). }
  destruct Hm as (mon & Htm & Hgm & Hsm).
  assert (Hfirst : publishes_in_queue_order topic p q w w1 (Ok tt) mon).
  { apply order_quiet; [exact Hgm|exact Hsm|rewrite Hq1|rewrite Hp1]; reflexivity. }
  destruct Hstep
    as [(Hi & -> & Ht & Hq & Hp)
       |(v & rest & Hi & Hi' & _ &
         [(_ & -> & Ht & _ & Hd)
         |[(_ & _ & -> & Ht & _ & Hd)|(_ & _ & -> & Ht & _ & Hd)]])].
  - exists (mon ++ [EvSleep 1]). split; [rewrite Ht, Htm; symmetry; apply app_assoc|].
    apply (order_compose _ _ _ _ _ _ _ _ _ _ Hfirst).
    apply order_quiet; [reflexivity|reflexivity|exact Hq|exact Hp].
  - exists (mon ++ [EvGet q v]).
    split; [rewrite Ht, Htm; symmetry; apply app_assoc|].
    apply (order_compose _ _ _ _ _ _ _ _ _ _ Hfirst).
    unfold publishes_in_queue_order. cbn [gets_of sends_of map].
    rewrite Hi, Hi', Hd, app_nil_r.
    repeat split; [exists [v]; reflexivity|simpl; lia|intros []].
  - exists (mon ++ [EvGet q v; EvSend p topic v]).
    split; [rewrite Ht, Htm; symmetry; apply app_assoc|].
    apply (order_compose _ _ _ _ _ _ _ _ _ _ Hfirst).
    unfold publishes_in_queue_order. cbn [gets_of sends_of map].
    rewrite Hi, Hi', Hd.
    repeat split; [apply prefix_refl|simpl; lia].
  - exists (mon ++ [EvGet q v; EvSend p topic v; EvTaskDone q]).
    split; [rewrite Ht, Htm; symmetry; apply app_assoc|].
    apply (order_compose _ _ _ _ _ _ _ _ _ _ Hfirst).
    unfold publishes_in_queue_order. cbn [gets_of sends_of map].
    rewrite Hi, Hi', Hd.
    repeat split; [apply prefix_refl|simpl; lia].
Qed.

Lemma send_loop_in_order (fuel : nat) (topic : string) (p : ProducerId)
    (q : QueueId) (ev : EventId) (start_time : Q) (messages_sent : Z)
    (w w' : World) (r : Result Run) :
  send_loop fuel topic p q ev start_time messages_sent w = (r, w') ->
  exists evs,
    trace w' = trace w ++ evs /\
    publishes_in_queue_order topic p q w w' r evs.
Proof.
  revert start_time messages_sent w w' r.
  induction fuel as [|fuel IH]; intros start_time messages_sent w w' r H.
  - injection H as <- <-. exists []. split; [symmetry; apply app_nil_r|].
    apply order_quiet; reflexivity.
  - cbn [send_loop] in H.
    destruct (loop_turn_cases ev (send_cycle topic p q start_time messages_sent)
                (fun st => let '(s, c) := st in send_loop fuel topic p q ev s c)
                w w' r H) as (b & w1 & Hset & Hcases).
    destruct (is_set_run ev w) as (w1' & Hrun & Ht1 & Hq1 & _ & Hp1 & _).
    rewrite Hrun in Hset. injection Hset as Hb <-. rewrite Hb in Ht1.
    assert (Hfirst : publishes_in_queue_order topic p q w w1' (Ok tt)
                       [EvIsSet ev b]).
    { apply order_quiet; [reflexivity|reflexivity|rewrite Hq1|rewrite Hp1];
        reflexivity. }
    destruct Hcases as [(-> & -> & ->)|(-> & rc & wc & Hc & Hrc)].
    + exists ([EvIsSet ev true] ++ [EvLog LogShutdown]).
      split; [cbn [trace emit]; rewrite Ht1, <- app_assoc; reflexivity|].
      apply (order_compose _ _ _ _ _ _ _ _ _ _ Hfirst).
      apply order_quiet; reflexivity.
    + destruct (send_cycle_in_order _ _ _ _ _ _ _ _ Hc) as (evs1 & Htc & Ho1).
      destruct rc as [[s c]| |].
      * destruct (IH _ _ _ _ _ Hrc) as (evs2 & Ht2 & Ho2).
        exists ([EvIsSet ev false] ++ evs1 ++ evs2). split.
        -- rewrite Ht2, Htc, Ht1. repeat rewrite <- app_assoc. reflexivity.
        -- apply (order_compose _ _ _ _ _ _ _ _ _ _ Hfirst).
           exact (order_compose _ _ _ _ _ _ _ _ _ _ Ho1 Ho2).
      * destruct Hrc as [-> ->]. exists ([EvIsSet ev false] ++ evs1). split.
        -- rewrite Htc, Ht1. repeat rewrite <- app_assoc. reflexivity.
        -- apply (order_compose _ _ _ _ _ _ _ _ _ _ Hfirst).
           refine (order_stop _ _ _ _ _ _ _ _ _ _ Ho1); intros x; exact x.
      * destruct Hrc as [-> ->]. exists ([EvIsSet ev false] ++ evs1). split.
        -- rewrite Htc, Ht1. repeat rewrite <- app_assoc. reflexivity.
        -- apply (order_compose _ _ _ _ _ _ _ _ _ _ Hfirst).
           refine (order_stop _ _ _ _ _ _ _ _ _ _ Ho1); intros x; exact x.
Qed.

Lemma send_messages_in_order (fuel : nat) (topic : string) (p : ProducerId)
    (q : QueueId) (ev : EventId) (w : World) :
  publishes_in_queue_order topic p q w
    (snd (send_messages fuel topic p q ev w))
    (fst (send_messages fuel topic p q ev w))
    (new_events w (snd (send_messages fuel topic p q ev w))).
Proof.
  destruct (send_messages fuel topic p q ev w) as [r w'] eqn:E.
  unfold send_messages, bind, time_time in E.
  destruct (send_loop_in_order _ _ _ _ _ _ _ _ _ _ E) as (evs & Ht & Ho).
  cbn [trace emit tick] in Ht. cbn [fst snd].
  rewrite (new_events_app _ _ ([EvTime (clock w (clock_reads w))] ++ evs))
    by (rewrite Ht, <- app_assoc; reflexivity).
  refine (order_compose _ _ _ _ _ _ tt _ _ _ _ Ho).
  apply order_quiet; reflexivity.
Qed.

(** X7.  In every run of the outbound relay, function or method, the items taken
    from the outbound queue are the head of the queue, in queue order, and
    the items published are the items taken, in the same order, each under
    the relay's topic: nothing is published twice, reordered or invented.
    When the run ends normally every item taken was published; when it ends
    in an error at most the last item taken was not. *)
Theorem outbound_relay_publishes_in_queue_order :
  forall (fuel : nat) (self : AioKafkaEngine.t) (ev : EventId) (topic : string)
         (w : World),
    let p := AioKafkaEngine.producer self in
    let q := AioKafkaEngine.send_queue self in
    publishes_in_queue_order topic p q w
      (snd (send_messages fuel topic p q ev w))
      (fst (send_messages fuel topic p q ev w))
      (new_events w (snd (send_messages fuel topic p q ev w))) /\
    publishes_in_queue_order topic p q w
      (snd (AioKafkaEngine.produce_messages fuel self ev topic w))
      (fst (AioKafkaEngine.produce_messages fuel self ev topic w))
      (new_events w (snd (AioKafkaEngine.produce_messages fuel self ev topic w))).
Proof.
  intros fuel self ev topic w p q.
  split; [|rewrite produce_messages_eq]; apply send_messages_in_order.
Qed.

(** ** The errors that end a relay *)






(** ** Draining the outbound queue *)

(** A turn that finds an item, a willing producer and an unfinished task to
    mark done. *)
Lemma send_cycle_publishes (topic : string) (p : ProducerId) (q : QueueId)
    (start_time : Q) (messages_sent : Z) (w : World) (v : Value)
    (rest : list Value) :
  items (queues w q) = v :: rest ->
  send_script (producers w p) (sends (producers w p)) = true ->
  0 < unfinished_tasks (queues w q) ->
  exists s1 c1 w',
    send_cycle topic p q start_time messages_sent w = (Ok (s1, c1), w') /\
    items (queues w' q) = rest /\
    unfinished_tasks (queues w' q) = unfinished_tasks (queues w q) - 1 /\
    events w' = events w /\
    send_script (producers w' p) = send_script (producers w p) /\
    sends (producers w' p) = S (sends (producers w p)).
Proof.
  intros Hitems Hsend Hunf.
  destruct (send_cycle topic p q start_time messages_sent w) as [r w'] eqn:E.
  destruct (send_cycle_outcome _ _ _ _ _ _ _ _ E)
    as (s1 & c1 & w1 & (_ & Hq1 & Hp1 & He1 & _) & (_ & He & _ & _ & _ & Hscr) & Hstep).
  unfold outbound_step in Hstep.
  rewrite Hq1, Hp1 in Hstep. rewrite Hp1 in Hscr. rewrite He1 in He.
  destruct Hstep
    as [(Hi & _)
       |(v' & rest' & Hi & Hi' & Hs &
         [(Hf & _)|[(_ & Hle & _)|(_ & _ & -> & _ & Hu & _)]])].
  - rewrite Hitems in Hi. discriminate Hi.
  - rewrite Hsend in Hf. discriminate Hf.
  - lia.
  - rewrite Hitems in Hi. injection Hi as <- <-.
    exists s1, (c1 + 1), w'. repeat split; assumption.
Qed.

Lemma send_loop_drains (topic : string) (p : ProducerId) (q : QueueId)
    (ev : EventId) (vs : list Value) (start_time : Q) (messages_sent : Z)
    (w : World) :
  items (queues w q) = vs ->
  Z.of_nat (List.length vs) <= unfinished_tasks (queues w q) ->
  (forall i, (i < List.length vs)%nat ->
     is_set_script (events w ev) (is_set_calls (events w ev) + i) = false) ->
  (forall i, (i < List.length vs)%nat ->
     send_script (producers w p) (sends (producers w p) + i) = true) ->
  exists w',
    send_loop (List.length vs) topic p q ev start_time messages_sent w
      = (Ok Looping, w') /\
    items (queues w' q) = [] /\
    unfinished_tasks (queues w' q)
      = unfinished_tasks (queues w q) - Z.of_nat (List.length vs).
Proof.
  revert start_time messages_sent w.
  induction vs as [|v rest IH]; intros start_time messages_sent w Hi Hu Hset Hsend.
  - exists w. split; [reflexivity|]. split; [exact Hi|]. simpl. lia.
  - cbn [List.length] in *.
    destruct (is_set_run ev w) as (w1 & Hrun & _ & Hq1 & _ & Hp1 & _ & _ & He1 & _).
    rewrite <- (Nat.add_0_r (is_set_calls (events w ev))) in Hrun at 1.
    rewrite (Hset 0%nat) in Hrun by lia.
    destruct (send_cycle_publishes topic p q start_time messages_sent w1 v rest)
      as (s1 & c1 & w2 & Hcycle & Hi2 & Hu2 & He2 & Hscr2 & Hs2).
    { rewrite Hq1. exact Hi. }
    { rewrite Hp1. rewrite <- (Nat.add_0_r (sends (producers w p))).
      apply Hsend. lia. }
    { rewrite Hq1. lia. }
    destruct (IH s1 c1 w2) as (w3 & Hloop & Hi3 & Hu3).
    + exact Hi2.
    + rewrite Hu2, Hq1. lia.
    + intros i Hlt. rewrite He2, He1. cbn [is_set_script is_set_calls].
      replace (S (is_set_calls (events w ev)) + i)%nat
        with (is_set_calls (events w ev) + S i)%nat by lia.
      apply Hset. lia.
    + intros i Hlt. rewrite Hscr2, Hs2, Hp1.
      replace (S (sends (producers w p)) + i)%nat
        with (sends (producers w p) + S i)%nat by lia.
      apply Hsend. lia.
    + exists w3. split.
      * cbn [send_loop]. rewrite (bind_ok _ _ w w1 false Hrun).
        rewrite (bind_ok _ _ w1 w2 (s1, c1) Hcycle). exact Hloop.
      * split; [exact Hi3|]. rewrite Hu3, Hu2, Hq1. lia.
Qed.

(** X8.  When the outbound queue holds the items [vs], each counted as an
    unfinished task, the shutdown flag stays unset for as many turns as there
    are items and the producer accepts as many [send] calls, that many turns
    of the outbound relay, function or method, empty the queue: the producer
    has been handed exactly the items of [vs], in order, under the relay's
    topic, and each was marked done. *)
Theorem outbound_relay_drains_queue :
  forall (self : AioKafkaEngine.t) (ev : EventId) (topic : string)
         (vs : list Value) (w : World),
    let p := AioKafkaEngine.producer self in
    let q := AioKafkaEngine.send_queue self in
    items (queues w q) = vs ->
    Z.of_nat (List.length vs) <= unfinished_tasks (queues w q) ->
    (forall i, (i < List.length vs)%nat ->
       is_set_script (events w ev) (is_set_calls (events w ev) + i) = false) ->
    (forall i, (i < List.length vs)%nat ->
       send_script (producers w p) (sends (producers w p) + i) = true) ->
    let run := send_messages (List.length vs) topic p q ev w in
    fst run = Ok Looping /\
    AioKafkaEngine.produce_messages (List.length vs) self ev topic w = run /\
    items (queues (snd run) q) = [] /\
    unfinished_tasks (queues (snd run) q)
      = unfinished_tasks (queues w q) - Z.of_nat (List.length vs) /\
    sends_of (new_events w (snd run)) = vs /\
    delivered (producers (snd run) p)
      = delivered (producers w p) ++ map (pair topic) vs.
Proof.
  intros self ev topic vs w p q Hi Hu Hset Hsend run.
  pose proof (send_messages_in_order (List.length vs) topic p q ev w) as Hord.
  fold run in Hord.
  assert (Hrun : exists w', run = (Ok Looping, w') /\
                            items (queues w' q) = [] /\
                            unfinished_tasks (queues w' q)
                            = unfinished_tasks (queues w q)
                              - Z.of_nat (List.length vs)).
  { subst run. unfold send_messages.
    rewrite (bind_ok _ _ w (emit (EvTime (clock w (clock_reads w))) (tick w))
               (clock w (clock_reads w))) by reflexivity.
    destruct (send_loop_drains topic p q ev vs (clock w (clock_reads w)) 0
                (emit (EvTime (clock w (clock_reads w))) (tick w))
                Hi Hu Hset Hsend) as (w' & Hl & Hi' & Hu').
    exists w'. split; [exact Hl|]. split; [exact Hi'|exact Hu']. }
  destruct Hrun as (w' & Hrun & Hi' & Hu').
  rewrite Hrun in Hord |- *. cbn [fst snd] in *.
  destruct Hord as (Hitems & _ & _ & Hd & Hret).
  specialize (Hret I). rewrite Hi', app_nil_r, Hi in Hitems.
  split; [reflexivity|]. split; [rewrite <- Hrun; apply produce_messages_eq|].
  split; [exact Hi'|]. split; [exact Hu'|].
  split; [rewrite Hret; symmetry; exact Hitems|].
  rewrite Hd, Hret, <- Hitems. reflexivity.
Qed.

(** X8 on the sample world with two items in the outbound queue. *)
Lemma outbound_relay_drains_sample :
  delivered (producers (snd (send_messages 2 "out" 0 1 0
                               (Sample.world [] ["x"; "y"]))) 0)
  = [("out", "x"); ("out", "y")].
Proof.
  assert (H1 : items (queues (Sample.world [] ["x"; "y"]) 1) = ["x"; "y"])
    by reflexivity.
  assert (H2 : Z.of_nat (List.length ["x"; "y"])
               <= unfinished_tasks (queues (Sample.world [] ["x"; "y"]) 1))
    by (simpl; lia).
  assert (H3 : forall i, (i < List.length ["x"; "y"])%nat ->
             is_set_script (events (Sample.world [] ["x"; "y"]) 0)
               (is_set_calls (events (Sample.world [] ["x"; "y"]) 0) + i) = false).
  { intros i Hi. simpl in Hi. destruct i as [|[|i]]; [reflexivity|reflexivity|lia]. }
  assert (H4 : forall i, (i < List.length ["x"; "y"])%nat ->
             send_script (producers (Sample.world [] ["x"; "y"]) 0)
               (sends (producers (Sample.world [] ["x"; "y"]) 0) + i) = true)
    by (intros i _; reflexivity).
  exact (proj2 (proj2 (proj2 (proj2 (proj2
           (outbound_relay_drains_queue Sample.engine 0 "out" ["x"; "y"]
              (Sample.world [] ["x"; "y"]) H1 H2 H3 H4)))))).
Defined.

(** ** The counter the speed monitor is given *)

Lemma counter_after_app (c : Z) (l1 l2 : list Event) :
  counter_after c (l1 ++ l2) = counter_after (counter_after c l1) l2.
Proof.
  revert c. induction l1 as [|e l1 IH]; intros c; [reflexivity|].
  destruct e as [| | |[]| | | | | | |]; simpl; apply IH.
Qed.

Lemma counter_consistent_app (c : Z) (l1 l2 : list Event) :
  counter_consistent c l1 ->
  counter_consistent (counter_after c l1) l2 ->
  counter_consistent c (l1 ++ l2).
Proof.
  revert c. induction l1 as [|e l1 IH]; intros c H1 H2; [exact H2|].
  destruct e as [| | |[]| | | | | | |]; simpl in *;
    try (apply IH; assumption);
    (destruct H1 as [-> H1]; split; [reflexivity|apply IH; assumption]).
Qed.

Lemma send_cycle_counter (topic : string) (p : ProducerId) (q : QueueId)
    (start_time : Q) (messages_sent : Z) (w w' : World) (r : Result (Q * Z)) :
  send_cycle topic p q start_time messages_sent w = (r, w') ->
  exists evs,
    trace w' = trace w ++ evs /\
    counter_consistent messages_sent evs /\
    (forall s' c', r = Ok (s', c') -> c' = counter_after messages_sent evs).
Proof.
  intros H.
  destruct (send_cycle_outcome _ _ _ _ _ _ _ _ H)
    as (s1 & c1 & w1 & (_ & _ & _ & _ & _ & Hmon) & _ & Hstep).
  assert (Hm : exists mon, trace w1 = trace w ++ mon /\
                           counter_consistent messages_sent mon /\
                           counter_after messages_sent mon = c1).
  { destruct Hmon as [(_ & -> & t & Ht)|(-> & t & n & d & sp & Ht)];
      eexists; (split; [exact Ht|]); simpl; repeat split. }
  destruct Hm as (mon & Htm & Hcm & Ham).
  destruct Hstep
    as [(_ & -> & Ht & _)
       |(v & rest & _ & _ & _ &
         [(_ & -> & Ht & _)|[(_ & _ & -> & Ht & _)|(_ & _ & -> & Ht & _)]])];
    eexists; (split; [rewrite Ht, Htm; symmetry; apply app_assoc|]);
    (split; [apply counter_consistent_app; [exact Hcm|simpl; exact I]|]);
    intros s' c' E; try discriminate E; injection E as <- <-;
    rewrite counter_after_app, Ham; reflexivity.
Qed.

Lemma send_loop_counter (fuel : nat) (topic : string) (p : ProducerId)
    (q : QueueId) (ev : EventId) (start_time : Q) (messages_sent : Z)
    (w w' : World) (r : Result Run) :
  send_loop fuel topic p q ev start_time messages_sent w = (r, w') ->
  exists evs,
    trace w' = trace w ++ evs /\ counter_consistent messages_sent evs.
Proof.
  revert start_time messages_sent w w' r.
  induction fuel as [|fuel IH]; intros start_time messages_sent w w' r H.
  - injection H as <- <-. exists []. split; [symmetry; apply app_nil_r|exact I].
  - cbn [send_loop] in H.
    destruct (loop_turn_cases ev (send_cycle topic p q start_time messages_sent)
                (fun st => let '(s, c) := st in send_loop fuel topic p q ev s c)
                w w' r H) as (b & w1 & Hset & Hcases).
    destruct (is_set_run ev w) as (w1' & Hrun & Ht1 & _).
    rewrite Hrun in Hset. injection Hset as Hb <-. rewrite Hb in Ht1.
    destruct Hcases as [(-> & -> & ->)|(-> & rc & wc & Hc & Hrc)].
    + exists [EvIsSet ev true; EvLog LogShutdown].
      split; [cbn [trace emit]; rewrite Ht1, <- app_assoc; reflexivity|].
      simpl. exact I.
    + destruct (send_cycle_counter _ _ _ _ _ _ _ _ Hc) as (evs1 & Htc & Hc1 & Ha1).
      destruct rc as [[s c]| |].
      * destruct (IH _ _ _ _ _ Hrc) as (evs2 & Ht2 & Hc2).
        exists (EvIsSet ev false :: evs1 ++ evs2). split.
        -- rewrite Ht2, Htc, Ht1. repeat rewrite <- app_assoc. reflexivity.
        -- cbn [counter_consistent]. apply counter_consistent_app; [exact Hc1|].
           rewrite <- (Ha1 s c eq_refl). exact Hc2.
      * destruct Hrc as [-> ->]. exists (EvIsSet ev false :: evs1). split.
        -- rewrite Htc, Ht1, <- app_assoc. reflexivity.
        -- exact Hc1.
      * destruct Hrc as [-> ->]. exists (EvIsSet ev false :: evs1). split.
        -- rewrite Htc, Ht1, <- app_assoc. reflexivity.
        -- exact Hc1.
Qed.

Lemma send_messages_counter (fuel : nat) (topic : string) (p : ProducerId)
    (q : QueueId) (ev : EventId) (w : World) :
  counter_consistent 0 (new_events w (snd (send_messages fuel topic p q ev w))).
Proof.
  destruct (send_messages fuel topic p q ev w) as [r w'] eqn:E.
  unfold send_messages, bind, time_time in E.
  destruct (send_loop_counter _ _ _ _ _ _ _ _ _ _ E) as (evs & Ht & Hc).
  cbn [trace emit tick] in Ht. cbn [snd].
  rewrite (new_events_app _ _ (EvTime (clock w (clock_reads w)) :: evs))
    by (rewrite Ht, <- app_assoc; reflexivity).
  exact Hc.
Qed.

(** X10.  In every run of the outbound relay, function or method, the counter
    handed to the speed monitor at each call, and reported by each throughput
    line, is the number of items marked done since the previous throughput
    line, or since the start of the run when there was none. *)
Theorem speed_monitor_counts_items_done :
  forall (fuel : nat) (self : AioKafkaEngine.t) (ev : EventId) (topic : string)
         (w : World),
    counter_consistent 0
      (new_events w (snd (send_messages fuel topic (AioKafkaEngine.producer self)
                            (AioKafkaEngine.send_queue self) ev w))) /\
    counter_consistent 0
      (new_events w (snd (AioKafkaEngine.produce_messages fuel self ev topic w))).
Proof.
  intros fuel self ev topic w.
  split; [|rewrite produce_messages_eq]; apply send_messages_counter.
Qed.

(** ** What each relay leaves alone *)

Lemma preserves_ret {A : Type} (R : World -> World -> Prop) (a : A) :
  (forall w, R w w) -> preserves R (ret a).
Proof. intros Hrefl w. apply Hrefl. Qed.

Lemma preserves_bind {A B : Type} (R : World -> World -> Prop)
    (m : M A) (k : A -> M B) :
  (forall w1 w2 w3, R w1 w2 -> R w2 w3 -> R w1 w3) ->
  preserves R m -> (forall a, preserves R (k a)) -> preserves R (bind m k).
Proof.
  intros Htrans Hm Hk w. unfold bind. specialize (Hm w).
  destruct (m w) as [[a| |] w1]; cbn [snd] in *; [|exact Hm|exact Hm].
  exact (Htrans _ _ _ Hm (Hk a w1)).
Qed.

Lemma inbound_frame_refl (c : ConsumerId) (q : QueueId) (ev : EventId) (w : World) :
  inbound_frame c q ev w w.
Proof. repeat split. Qed.

Lemma inbound_frame_trans (c : ConsumerId) (q : QueueId) (ev : EventId)
    (w1 w2 w3 : World) :
  inbound_frame c q ev w1 w2 -> inbound_frame c q ev w2 w3 ->
  inbound_frame c q ev w1 w3.
Proof.
  intros (A1 & A2 & A3 & A4 & A5) (B1 & B2 & B3 & B4 & B5).
  repeat split; try congruence.
  - intros q' H. rewrite B3, A3 by exact H. reflexivity.
  - intros c' H. rewrite B4, A4 by exact H. reflexivity.
  - intros ev' H. rewrite B5, A5 by exact H. reflexivity.
Qed.

Lemma outbound_frame_refl (p : ProducerId) (q : QueueId) (ev : EventId) (w : World) :
  outbound_frame p q ev w w.
Proof. repeat split. Qed.

Lemma outbound_frame_trans (p : ProducerId) (q : QueueId) (ev : EventId)
    (w1 w2 w3 : World) :
  outbound_frame p q ev w1 w2 -> outbound_frame p q ev w2 w3 ->
  outbound_frame p q ev w1 w3.
Proof.
  intros (A1 & A2 & A3 & A4) (B1 & B2 & B3 & B4).
  repeat split; try congruence.
  - intros q' H. rewrite B2, A2 by exact H. reflexivity.
  - intros p' H. rewrite B3, A3 by exact H. reflexivity.
  - intros ev' H. rewrite B4, A4 by exact H. reflexivity.
Qed.

Ltac frame_prim :=
  intros w;
  cbv beta zeta delta [is_set logger_info queue_put consumer_commit
                       consumer_getmany time_time asyncio_sleep queue_empty
                       queue_get producer_send queue_task_done];
  repeat match goal with
         | |- context [if ?b then _ else _] => destruct b
         | |- context [match ?x with PollOffer _ => _ | PollError => _ end] =>
             destruct x
         | |- context [match items ?x with [] => _ | _ :: _ => _ end] =>
             destruct (items x)
         end;
  unfold inbound_frame, outbound_frame;
  cbn [snd clock_reads producers queues consumers events emit tick set_event
       set_queue set_consumer set_producer];
  repeat split; intros x Hx; apply upd_other; exact Hx.

Lemma inbound_frame_is_set (c : ConsumerId) (q : QueueId) (ev : EventId) :
  preserves (inbound_frame c q ev) (is_set ev).
Proof. frame_prim. Qed.

Lemma inbound_frame_logger_info (c : ConsumerId) (q : QueueId) (ev : EventId)
    (r : LogRecord) :
  preserves (inbound_frame c q ev) (logger_info r).
Proof. frame_prim. Qed.

Lemma inbound_frame_queue_put (c : ConsumerId) (q : QueueId) (ev : EventId)
    (v : Value) :
  preserves (inbound_frame c q ev) (queue_put q v).
Proof. frame_prim. Qed.

Lemma inbound_frame_consumer_commit (c : ConsumerId) (q : QueueId) (ev : EventId) :
  preserves (inbound_frame c q ev) (consumer_commit c).
Proof. frame_prim. Qed.

Lemma inbound_frame_consumer_getmany (c : ConsumerId) (q : QueueId) (ev : EventId)
    (t n : Z) :
  preserves (inbound_frame c q ev) (consumer_getmany c t n).
Proof. frame_prim. Qed.

Lemma inbound_frame_gather_puts (c : ConsumerId) (q : QueueId) (ev : EventId)
    (vs : list Value) :
  preserves (inbound_frame c q ev) (gather_puts q vs).
Proof.
  induction vs as [|v vs IH]; simpl.
  - apply preserves_ret, inbound_frame_refl.
  - apply preserves_bind;
      [apply inbound_frame_trans|apply inbound_frame_queue_put|intros _; exact IH].
Qed.

Ltac inbound_step lemma :=
  apply preserves_bind; [apply inbound_frame_trans|apply lemma|].

Lemma inbound_frame_receive_messages (fuel : nat) (c : ConsumerId) (q : QueueId)
    (ev : EventId) (batch_size : Z) :
  preserves (inbound_frame c q ev) (receive_messages fuel c q ev batch_size).
Proof.
  induction fuel as [|fuel IH]; simpl.
  - apply preserves_ret, inbound_frame_refl.
  - inbound_step inbound_frame_is_set. intros stop. destruct stop.
    + inbound_step inbound_frame_logger_info. intros _.
      apply preserves_ret, inbound_frame_refl.
    + apply preserves_bind; [apply inbound_frame_trans| |intros _; exact IH].
      inbound_step inbound_frame_consumer_getmany. intros b.
      induction b as [|[tp messages] rest IHb]; simpl.
      * apply preserves_ret, inbound_frame_refl.
      * inbound_step inbound_frame_logger_info. intros _.
        inbound_step inbound_frame_gather_puts. intros _.
        inbound_step inbound_frame_logger_info. intros _.
        inbound_step inbound_frame_consumer_commit. intros _. exact IHb.
Qed.

Lemma inbound_frame_consume_messages (fuel : nat) (self : AioKafkaEngine.t)
    (ev : EventId) (batch_size : Z) :
  preserves (inbound_frame (AioKafkaEngine.consumer self)
                           (AioKafkaEngine.receive_queue self) ev)
            (AioKafkaEngine.consume_messages fuel self ev batch_size).
Proof.
  induction fuel as [|fuel IH]; simpl.
  - apply preserves_ret, inbound_frame_refl.
  - inbound_step inbound_frame_is_set. intros stop. destruct stop.
    + inbound_step inbound_frame_logger_info. intros _.
      apply preserves_ret, inbound_frame_refl.
    + apply preserves_bind; [apply inbound_frame_trans| |intros _; exact IH].
      inbound_step inbound_frame_consumer_getmany. intros b.
      induction b as [|[tp messages] rest IHb]; simpl.
      * apply preserves_ret, inbound_frame_refl.
      * inbound_step inbound_frame_gather_puts. intros _.
        inbound_step inbound_frame_consumer_commit. intros _.
        inbound_step inbound_frame_logger_info. intros _. exact IHb.
Qed.

Lemma outbound_frame_is_set (p : ProducerId) (q : QueueId) (ev : EventId) :
  preserves (outbound_frame p q ev) (is_set ev).
Proof. frame_prim. Qed.

Lemma outbound_frame_logger_info (p : ProducerId) (q : QueueId) (ev : EventId)
    (r : LogRecord) :
  preserves (outbound_frame p q ev) (logger_info r).
Proof. frame_prim. Qed.

Lemma outbound_frame_time_time (p : ProducerId) (q : QueueId) (ev : EventId) :
  preserves (outbound_frame p q ev) time_time.
Proof. frame_prim. Qed.

Lemma outbound_frame_send_cycle (topic : string) (p : ProducerId) (q : QueueId)
    (ev : EventId) (start_time : Q) (messages_sent : Z) :
  preserves (outbound_frame p q ev)
            (send_cycle topic p q start_time messages_sent).
Proof.
  intros w.
  destruct (send_cycle topic p q start_time messages_sent w) as [r w'] eqn:E.
  destruct (send_cycle_outcome _ _ _ _ _ _ _ _ E)
    as (s1 & c1 & w1 & (_ & Hq1 & Hp1 & He1 & Hc1 & _)
        & (Hc & He & Hq & Hp & _) & _).
  cbn [snd]. unfold outbound_frame.
  rewrite Hc, Hc1, He, He1. repeat split.
  - intros q' H. rewrite (Hq q' H), Hq1. reflexivity.
  - intros p' H. rewrite (Hp p' H), Hp1. reflexivity.
Qed.

Lemma outbound_frame_send_messages (fuel : nat) (topic : string)
    (p : ProducerId) (q : QueueId) (ev : EventId) :
  preserves (outbound_frame p q ev) (send_messages fuel topic p q ev).
Proof.
  unfold send_messages.
  apply preserves_bind;
    [apply outbound_frame_trans|apply outbound_frame_time_time|intros s].
  generalize 0 as c. revert s.
  induction fuel as [|fuel IH]; intros s c; simpl.
  - apply preserves_ret, outbound_frame_refl.
  - apply preserves_bind;
      [apply outbound_frame_trans|apply outbound_frame_is_set|intros stop].
    destruct stop.
    + apply preserves_bind;
        [apply outbound_frame_trans|apply outbound_frame_logger_info|intros _].
      apply preserves_ret, outbound_frame_refl.
    + apply preserves_bind;
        [apply outbound_frame_trans|apply outbound_frame_send_cycle|].
      intros [s' c']. apply IH.
Qed.

(** X11.  The two directions share no state.  A run of the inbound relay, function
    or method, never reads the clock and leaves the producers, the other
    queues, the other consumers and the other events exactly as they were; a
    run of the outbound relay leaves the consumers, the other queues, the
    other producers and the other events exactly as they were. *)
Theorem relays_keep_to_their_own_objects :
  forall (fuel : nat) (self : AioKafkaEngine.t) (ev : EventId) (topic : string)
         (batch_size : Z) (w : World),
    let c := AioKafkaEngine.consumer self in
    let rq := AioKafkaEngine.receive_queue self in
    let p := AioKafkaEngine.producer self in
    let sq := AioKafkaEngine.send_queue self in
    inbound_frame c rq ev w (snd (receive_messages fuel c rq ev batch_size w)) /\
    inbound_frame c rq ev w
      (snd (AioKafkaEngine.consume_messages fuel self ev batch_size w)) /\
    outbound_frame p sq ev w (snd (send_messages fuel topic p sq ev w)) /\
    outbound_frame p sq ev w
      (snd (AioKafkaEngine.produce_messages fuel self ev topic w)).
Proof.
  intros fuel self ev topic batch_size w c rq p sq.
  split; [apply inbound_frame_receive_messages|].
  split; [apply inbound_frame_consume_messages|].
  split; [|rewrite produce_messages_eq]; apply outbound_frame_send_messages.
Qed.

(** ** The speed monitor at and past the end of a window *)

(** X12.  With a positive interval, once the elapsed time it computes is not
    less than the interval, and with a counter that converts to a double,
    [log_speed] reads the clock, divides, logs one throughput line carrying
    the label, the depth of the queue it was given, the counter, the elapsed
    time and the counter divided by the elapsed time, reads the clock again
    and returns that second reading with a counter of zero. *)
Theorem log_speed_rolls_window :
  forall (counter : Z) (start_time : Double.float) (q : QueueId)
         (topic : string) (interval : Z) (w : Double.World) (c : Double.float),
    let now := Double.clock w (Double.clock_reads w) in
    let delta_time := Double.fsub now start_time in
    0 < interval ->
    Double.float_lt_int delta_time interval = false ->
    Double.float_of_int counter = Some c ->
    let r := Double.log_speed counter start_time q topic interval w in
    fst r = Ok (Double.clock w (S (Double.clock_reads w)), 0) /\
    Double.new_events w (snd r) =
      [Double.EvTime now;
       Double.EvTrueDiv counter delta_time;
       Double.EvLog topic (qlen (Double.queues w q)) counter delta_time
         (Double.fdiv c delta_time);
       Double.EvTime (Double.clock w (S (Double.clock_reads w)))] /\
    Double.clock_reads (snd r) = S (S (Double.clock_reads w)) /\
    Double.queues (snd r) = Double.queues w.
Proof.
  intros counter start_time q topic interval w c now delta_time Hpos Hge Hc.
  cbv zeta. rewrite double_log_speed_cases. cbv zeta.
  fold now. fold delta_time. rewrite Hge, Hc.
  destruct (double_guard delta_time interval Hpos Hge) as [Hz _]. rewrite Hz.
  cbn [fst snd]. split; [reflexivity|]. split; [|split; reflexivity].
  apply double_new_events_app. cbn [Double.trace Double.emit Double.tick].
  repeat rewrite <- app_assoc. reflexivity.
Qed.

(** X12 on a clock that starts at 60 seconds: five items in sixty seconds. *)
Lemma log_speed_rolls_window_sample :
  fst (Double.log_speed 5 (Double.of_int 0) 1 "out" 60 (Double.world 60 1))
    = Ok (Double.of_int 61, 0) /\
  In (Double.EvLog "out" 2 5 (Double.of_int 60)
        (Double.fdiv (Double.of_int 5) (Double.of_int 60)))
     (Double.new_events (Double.world 60 1)
        (snd (Double.log_speed 5 (Double.of_int 0) 1 "out" 60
                (Double.world 60 1)))).
Proof.
  assert (H1 : 0 < 60) by lia.
  assert (H2 : Double.float_lt_int
                 (Double.fsub
                    (Double.clock (Double.world 60 1)
                       (Double.clock_reads (Double.world 60 1)))
                    (Double.of_int 0)) 60 = false) by (vm_compute; reflexivity).
  assert (H3 : Double.float_of_int 5 = Some (Double.of_int 5))
    by (vm_compute; reflexivity).
  destruct (log_speed_rolls_window 5 (Double.of_int 0) 1 "out" 60
              (Double.world 60 1) (Double.of_int 5) H1 H2 H3)
    as (Hr & Hev & _).
  split; [exact Hr|].
  rewrite Hev. right. right. left. vm_compute. reflexivity.
Defined.

(** X13.  With an interval that is not positive, an elapsed time of zero (the
    clock reads the window start) and a counter that converts to a double
    make [log_speed] divide by zero: it raises [ZeroDivisionError] after its
    one clock reading, with nothing logged and nothing returned. *)
Theorem log_speed_divides_by_zero :
  forall (counter : Z) (start_time : Double.float) (q : QueueId)
         (topic : string) (interval : Z) (w : Double.World) (c : Double.float),
    let now := Double.clock w (Double.clock_reads w) in
    let delta_time := Double.fsub now start_time in
    interval <= 0 ->
    Double.is_zero delta_time = true ->
    Double.float_of_int counter = Some c ->
    let r := Double.log_speed counter start_time q topic interval w in
    fst r = Raised ZeroDivisionError /\
    Double.new_events w (snd r)
      = [Double.EvTime now; Double.EvTrueDiv counter delta_time] /\
    Double.queues (snd r) = Double.queues w.
Proof.
  intros counter start_time q topic interval w c now delta_time Hle Hz Hc.
  cbv zeta. rewrite double_log_speed_cases. cbv zeta.
  fold now. fold delta_time.
  assert (Hge : Double.float_lt_int delta_time interval = false).
  { destruct delta_time as [s|s| |s m e]; try discriminate Hz.
    simpl. apply Z.ltb_ge. exact Hle. }
  rewrite Hge, Hc, Hz. cbn [fst snd].
  split; [reflexivity|]. split; [|reflexivity].
  apply double_new_events_app. cbn [Double.trace Double.emit Double.tick].
  repeat rewrite <- app_assoc. reflexivity.
Qed.

(** X13 on a clock that reads the window start, with an interval of zero. *)
Lemma log_speed_divides_by_zero_sample :
  fst (Double.log_speed 5 (Double.of_int 0) 1 "out" 0 (Double.world 0 1))
    = Raised ZeroDivisionError.
Proof.
  assert (H1 : 0 <= 0) by lia.
  assert (H2 : Double.is_zero
                 (Double.fsub
                    (Double.clock (Double.world 0 1)
                       (Double.clock_reads (Double.world 0 1)))
                    (Double.of_int 0)) = true) by (vm_compute; reflexivity).
  assert (H3 : Double.float_of_int 5 = Some (Double.of_int 5))
    by (vm_compute; reflexivity).
  exact (proj1 (log_speed_divides_by_zero 5 (Double.of_int 0) 1 "out" 0
                  (Double.world 0 1) (Double.of_int 5) H1 H2 H3)).
Defined.

(** X14.  Whatever the interval, once the elapsed time is not less than it, a
    counter too large for a double makes [log_speed] raise [OverflowError]
    when it divides, whether or not the elapsed time is zero: nothing is
    logged, nothing returned, and the queues are as they were. *)
Theorem log_speed_overflows_on_huge_counter :
  forall (counter : Z) (start_time : Double.float) (q : QueueId)
         (topic : string) (interval : Z) (w : Double.World),
    let now := Double.clock w (Double.clock_reads w) in
    let delta_time := Double.fsub now start_time in
    Double.float_lt_int delta_time interval = false ->
    Double.float_of_int counter = None ->
    let r := Double.log_speed counter start_time q topic interval w in
    fst r = Raised OverflowError /\
    Double.new_events w (snd r)
      = [Double.EvTime now; Double.EvTrueDiv counter delta_time] /\
    Double.queues (snd r) = Double.queues w.
Proof.
  intros counter start_time q topic interval w now delta_time Hge Hc.
  cbv zeta. rewrite double_log_speed_cases. cbv zeta.
  fold now. fold delta_time. rewrite Hge, Hc. cbn [fst snd].
  split; [reflexivity|]. split; [|reflexivity].
  apply double_new_events_app. cbn [Double.trace Double.emit Double.tick].
  repeat rewrite <- app_assoc. reflexivity.
Qed.

(** X14 on a clock that starts at 60 seconds, with a counter of [10^400]. *)
Lemma log_speed_overflows_sample :
  fst (Double.log_speed (10 ^ 400) (Double.of_int 0) 1 "out" 60
         (Double.world 60 1))
    = Raised OverflowError.
Proof.
  assert (H1 : Double.float_lt_int
                 (Double.fsub
                    (Double.clock (Double.world 60 1)
                       (Double.clock_reads (Double.world 60 1)))
                    (Double.of_int 0)) 60 = false) by (vm_compute; reflexivity).
  assert (H2 : Double.float_of_int (10 ^ 400) = None)
    by (vm_compute; reflexivity).
  exact (proj1 (log_speed_overflows_on_huge_counter (10 ^ 400) (Double.of_int 0)
                  1 "out" 60 (Double.world 60 1) H1 H2)).
Defined.
